(** * product-agent-cli: the planner's control flow, verified

    A shallow embedding of [src/product_agent_cli/main.py]: the helper
    functions ([sanitize_filename], [generate_feature_name], [load_context],
    [format_history_for_prompt]) and [main] itself, written in a small
    state-and-exit monad over an explicit world (console, file system, log of
    API requests).

    Conventions of the embedding.
    - A Python [str] is a [string]; each character stands for one code point
      below 256, and [lower], [upper] and [isspace] are Python's restricted to
      that range.  The two pictographs of the status lines lie outside it and
      stand here as their UTF-8 bytes.
    - The generative API, the JSON library and the environment are external:
      they are the fields of [Env].
    - The terminal is a finite script of input events; when it is used up the
      next read meets end of input, as a closed stdin does.
    - The working directory is a map from names to files and directories.
      Whether the operating system opens a path for writing, and whether a
      write goes through, is the environment's to say ([open_error],
      [write_error]).
    - The console is the one handed to [main]: it records each text it is
      given, markup included, and raises nothing. *)

From Stdlib Require Import Ascii NArith.
From stdpp Require Import base option list strings gmap.

Local Open Scope N_scope.

(** ** Characters and strings *)

Definition code (c : ascii) : N := N_of_ascii c.

Definition in_range (lo hi : N) (c : ascii) : bool :=
  (lo <=? code c) && (code c <=? hi).

(** [str.isspace] on one code point: TAB..CR, FS..US, space, NEL, NBSP. *)
Definition isspace (c : ascii) : bool :=
  in_range 9 13 c || in_range 28 32 c || (code c =? 133) || (code c =? 160).

Definition is_upper (c : ascii) : bool :=
  in_range 65 90 c || (in_range 192 222 c && negb (code c =? 215)).

Definition is_lower (c : ascii) : bool :=
  in_range 97 122 c || (in_range 224 254 c && negb (code c =? 247)).

Definition lower_char (c : ascii) : ascii :=
  if is_upper c then ascii_of_N (code c + 32) else c.

(** The capitals of code points 181, 223 and 255 are not one-byte
    characters; they are left alone. *)
Definition upper_char (c : ascii) : ascii :=
  if is_lower c then ascii_of_N (code c - 32) else c.

Fixpoint smap (f : ascii -> ascii) (s : string) : string :=
  match s with
  | EmptyString => EmptyString
  | String c s' => String (f c) (smap f s')
  end.

Fixpoint sfilter (p : ascii -> bool) (s : string) : string :=
  match s with
  | EmptyString => EmptyString
  | String c s' => if p c then String c (sfilter p s') else sfilter p s'
  end.

Fixpoint sforall (p : ascii -> bool) (s : string) : bool :=
  match s with
  | EmptyString => true
  | String c s' => p c && sforall p s'
  end.

Definition is_empty (s : string) : bool :=
  match s with EmptyString => true | String _ _ => false end.

Definition first_char (s : string) : option ascii :=
  match s with EmptyString => None | String c _ => Some c end.

Fixpoint last_char (s : string) : option ascii :=
  match s with
  | EmptyString => None
  | String c EmptyString => Some c
  | String _ s' => last_char s'
  end.

(** [str.lower()] and [str.capitalize()]. *)
Definition lower (s : string) : string := smap lower_char s.

Definition capitalize (s : string) : string :=
  match s with
  | EmptyString => EmptyString
  | String c s' => String (upper_char c) (lower s')
  end.

(** [str.lstrip], [str.rstrip] and [str.strip] for a class of characters. *)
Fixpoint lstrip_by (p : ascii -> bool) (s : string) : string :=
  match s with
  | EmptyString => EmptyString
  | String c s' => if p c then lstrip_by p s' else s
  end.

Fixpoint rstrip_by (p : ascii -> bool) (s : string) : string :=
  match s with
  | EmptyString => EmptyString
  | String c s' =>
      let r := rstrip_by p s' in
      if is_empty r && p c then EmptyString else String c r
  end.

Definition strip_by (p : ascii -> bool) (s : string) : string :=
  lstrip_by p (rstrip_by p s).

(** [s.strip()]: whitespace from both ends. *)
Definition strip (s : string) : string := strip_by isspace s.

(** [sep.join(l)]. *)
Fixpoint join (sep : string) (l : list string) : string :=
  match l with
  | [] => ""
  | [x] => x
  | x :: l' => x +:+ sep +:+ join sep l'
  end.

(** [needle in hay]. *)
Definition contains (needle hay : string) : Prop :=
  exists pre post, hay = pre +:+ needle +:+ post.

Definition dq : string := String (ascii_of_N 34) EmptyString.
Definition nl : string := String (ascii_of_N 10) EmptyString.

(** ** [sanitize_filename] *)

Definition underscore : ascii := ascii_of_N 95.
Definition hyphen : ascii := ascii_of_N 45.

Definition is_underscore (c : ascii) : bool := code c =? 95.

(** The class [[\s-]]: white space or a hyphen. *)
Definition space_or_hyphen (c : ascii) : bool := isspace c || (code c =? 45).

(** The complement of the class [[^a-z0-9_]]. *)
Definition safe_char (c : ascii) : bool :=
  in_range 97 122 c || in_range 48 57 c || is_underscore c.

Definition sanitize_filename (text : string) : string :=
  let text := strip (lower text) in
  let text := smap (fun c => if space_or_hyphen c then underscore else c) text in
  let text := sfilter safe_char text in
  let text := strip_by is_underscore text in
  if is_empty text then "feature_plan" else text.

(** ** Exceptions and results *)

(** The exceptions the program meets.  [Error msg] is any exception derived
    from [Exception] other than [EOFError], carried as its [str()];
    [KeyboardInterrupt] derives from [BaseException] only. *)
Inductive exn :=
| Error (msg : string)
| EOFError
| KeyboardInterrupt.

(** What [except Exception] catches. *)
Definition is_Exception (e : exn) : bool :=
  match e with KeyboardInterrupt => false | _ => true end.

(** What [except (KeyboardInterrupt, EOFError)] catches. *)
Definition is_interrupt (e : exn) : bool :=
  match e with Error _ => false | _ => true end.

(** [str(e)], as an f-string renders [{e}]. *)
Definition exn_str (e : exn) : string :=
  match e with Error msg => msg | _ => "" end.

Inductive result (A : Type) :=
| Ok (a : A)
| Raise (e : exn).
Arguments Ok {A} a.
Arguments Raise {A} e.

(** ** JSON values, as [json.load] builds them *)

#[local] Set Warnings "-register-all".

Inductive JSON :=
| JNull
| JBool (b : bool)
| JInt (n : Z)
| JFloat (lit : string)
| JStr (s : string)
| JArr (items : list JSON)
| JObj (members : list (string * JSON)).

Definition type_name (v : JSON) : string :=
  match v with
  | JNull => "NoneType"
  | JBool _ => "bool"
  | JInt _ => "int"
  | JFloat _ => "float"
  | JStr _ => "str"
  | JArr _ => "list"
  | JObj _ => "dict"
  end.

Fixpoint assoc (key : string) (members : list (string * JSON)) : option JSON :=
  match members with
  | [] => None
  | (k, v) :: rest => if decide (k = key) then Some v else assoc key rest
  end.

(** [v.get(key, dflt)]: a [dict] method; any other value has no [get]. *)
Definition get (v : JSON) (key : string) (dflt : JSON) : result JSON :=
  match v with
  | JObj members => Ok (default dflt (assoc key members))
  | _ => Raise (Error ("'" +:+ type_name v +:+ "' object has no attribute 'get'"))
  end.

(** ** The chat history and the world *)

(** One message of [chat.history]: a role and its parts (texts). *)
Record Content := { role : string; parts : list string }.

(** One entry of [simple_history]: [{'role': ..., 'parts': text}]. *)
Record SimpleMsg := { s_role : string; s_parts : string }.

(** What a one-shot call returns: [response.text] is the text, or raises. *)
Record Response := { text : result string }.

(** A call made to the generative API. *)
Inductive Request :=
| Generate (prompt : string)
| Send (history : list Content) (message : string).

Inductive Node :=
| File (content : string)
| Dir.

(** One event at the terminal while [console.input] waits. *)
Inductive Input :=
| Line (s : string)
| Interrupt.

(** Everything the program reads but does not own. *)
Record Env := {
  api_key : option string;
    (** [os.getenv("GOOGLE_API_KEY")] once [load_dotenv()] has run *)
  argv : list string;
    (** [sys.argv[1:]] *)
  stdin : list Input;
    (** the terminal script; after it, end of input *)
  generate_content : nat -> string -> result Response;
    (** [model.generate_content(prompt)], by the number of earlier one-shot
        calls *)
  send_message : list Content -> string -> result string;
    (** the reply to [chat.send_message(message)] on the given history *)
  json_load : string -> result JSON;
  json_dumps : JSON -> string;
    (** [json.dumps(_, indent=2)] *)
  py_repr : JSON -> string;
    (** [str()] of a value that is not a [str] *)
  open_error : string -> option string;
    (** the text of the [OSError] that the operating system answers
        [open(path, "w")] with on a path that is not a directory (file name
        too long, permission denied, read-only file system, ...); [None]
        when it opens the file *)
  write_error : string -> string -> option (string * string)
    (** [write_error path data]: the text of the [OSError] met while [data]
        goes to the file opened at [path] (no space left, quota, ...),
        with what the file holds afterwards; [None] when all of it is
        written *)
}.

(** Everything the program changes. *)
Record World := {
  console : list string;        (** what [console.print] showed, in order *)
  files : gmap string Node;     (** the working directory *)
  requests : list Request;      (** the API calls made, in order *)
  chat_history : list Content   (** [chat.history] *)
}.

Definition is_generate (r : Request) : bool :=
  match r with Generate _ => true | Send _ _ => false end.

(** The number of one-shot calls made so far. *)
Definition generated (w : World) : nat :=
  length (List.filter is_generate (requests w)).

(** ** The monad of the program: state, exceptions and [sys.exit] *)

(** How a piece of the program ends: with a value, with an exception on its
    way up, or with [SystemExit] (which no [except] clause of the program
    catches). *)
Inductive outcome (A : Type) :=
| Ret (a : A)
| Raised (e : exn)
| Exited (status : Z).
Arguments Ret {A} a.
Arguments Raised {A} e.
Arguments Exited {A} status.

Definition M (A : Type) : Type := World -> outcome A * World.

Definition ret {A} (a : A) : M A := fun w => (Ret a, w).

Definition bind {A B} (m : M A) (k : A -> M B) : M B :=
  fun w =>
    match m w with
    | (Ret a, w') => k a w'
    | (Raised e, w') => (Raised e, w')
    | (Exited n, w') => (Exited n, w')
    end.

Definition raise {A} (e : exn) : M A := fun w => (Raised e, w).

Definition sys_exit {A} (status : Z) : M A := fun w => (Exited status, w).

Definition of_result {A} (r : result A) : M A :=
  match r with Ok a => ret a | Raise e => raise e end.

(** [try: body  except <class> as e: handler e]. *)
Definition try_except {A} (catches : exn -> bool) (body : M A)
    (handler : exn -> M A) : M A :=
  fun w =>
    match body w with
    | (Raised e, w') => if catches e then handler e w' else (Raised e, w')
    | r => r
    end.

Declare Scope prog_scope.
Delimit Scope prog_scope with prog.
Notation "x <- m ;; k" := (bind m (fun x => k))
  (at level 100, m at next level, right associativity) : prog_scope.
Notation "m ;; k" := (bind m (fun _ => k))
  (at level 100, right associativity) : prog_scope.
Local Open Scope prog_scope.

(** ** The primitive effects *)

Definition set_console (c : list string) (w : World) : World :=
  {| console := c; files := files w; requests := requests w;
     chat_history := chat_history w |}.

Definition set_files (f : gmap string Node) (w : World) : World :=
  {| console := console w; files := f; requests := requests w;
     chat_history := chat_history w |}.

Definition set_requests (r : list Request) (w : World) : World :=
  {| console := console w; files := files w; requests := r;
     chat_history := chat_history w |}.

Definition set_chat_history (h : list Content) (w : World) : World :=
  {| console := console w; files := files w; requests := requests w;
     chat_history := h |}.

(** [console.print(s)]. *)
Definition print (s : string) : M unit :=
  fun w => (Ret tt, set_console (console w ++ [s]) w).

(** [os.path.exists(path)]. *)
Definition path_exists (path : string) : M bool :=
  fun w => (Ret (bool_decide (is_Some (files w !! path))), w).

Definition is_a_directory (path : string) : exn :=
  Error ("[Errno 21] Is a directory: '" +:+ path +:+ "'").

(** [open(path, "w")]: creates or truncates the file.  A directory cannot be
    opened for writing, and the operating system may refuse any other path
    ([open_error]); a refused [open] leaves the directory as it was. *)
Definition open_w (env : Env) (path : string) : M unit :=
  fun w =>
    match files w !! path with
    | Some Dir => (Raised (is_a_directory path), w)
    | _ =>
        match open_error env path with
        | Some msg => (Raised (Error msg), w)
        | None => (Ret tt, set_files (<[path := File ""]> (files w)) w)
        end
    end.

(** [f.write(s)] on the file opened at [path], up to the end of its [with]
    block: all of [s] reaches the file, or the operating system fails the
    write ([write_error]) and the file is left with what got through. *)
Definition f_write (env : Env) (path s : string) : M unit :=
  fun w =>
    match files w !! path with
    | Some (File c) =>
        match write_error env path s with
        | Some (msg, kept) =>
            (Raised (Error msg), set_files (<[path := File kept]> (files w)) w)
        | None =>
            (Ret tt, set_files (<[path := File (c +:+ s)]> (files w)) w)
        end
    | _ => (Ret tt, w)
    end.

(** [open(path, 'r')] and reading it whole. *)
Definition read_file (path : string) : M string :=
  fun w =>
    match files w !! path with
    | Some (File c) => (Ret c, w)
    | Some Dir => (Raised (is_a_directory path), w)
    | None =>
        (Raised (Error ("[Errno 2] No such file or directory: '" +:+ path +:+ "'")), w)
    end.

(** ** Constants: the prompts and the instructions document *)

(** Each prompt is kept as the pieces of its template around the fields
    [{context_json}] and [{history}]; the [_format] functions are
    [str.format] on them. *)

Definition SYSTEM_PROMPT_head : string :=
  join nl
    [ "";
      ("You are an expert " +:+ dq +:+ "Product Architect" +:+ dq +:+ " agent. Your job is to guide a user from a");
      ("high-level feature idea to a complete, actionable plan. You are a " +:+ dq +:+ "full-stack" +:+ dq);
      "architect, comfortable discussing product strategy, user experience (UX), and";
      "engineering design (EDD) all in one fluid conversation.";
      "";
      "Your goal is to gather all the information needed to create two documents:";
      ("1.  **The " +:+ dq +:+ "Feature Plan" +:+ dq +:+ "**: A human-readable document explaining the " +:+ dq +:+ "why" +:+ dq +:+ " and " +:+ dq +:+ "what" +:+ dq +:+ " of the feature.");
      ("2.  **The " +:+ dq +:+ "Execution Spec" +:+ dq +:+ "**: A machine-readable JSON file with EARS-style requirements for a coding agent.");
      "";
      "**Your Conversation Flow:**";
      ("1.  **Acknowledge Context**: If context is provided, state it. (e.g., " +:+ dq +:+ "Working on 'Project X' with a React stack..." +:+ dq +:+ ").");
      ("2.  **Start High (The " +:+ dq +:+ "Why" +:+ dq +:+ ")**: Always start with the problem.");
      ("    * " +:+ dq +:+ "What user problem are we solving?" +:+ dq);
      ("    * " +:+ dq +:+ "Why does this matter for the user?" +:+ dq);
      ("    * " +:+ dq +:+ "How will we measure success?" +:+ dq);
      ("3.  **Move to " +:+ dq +:+ "What" +:+ dq +:+ " (The " +:+ dq +:+ "CUJ / User Stories" +:+ dq +:+ ")**:");
      ("    * " +:+ dq +:+ "Walk me through the ideal user journey." +:+ dq);
      ("    * " +:+ dq +:+ "What's the most critical step for the user?" +:+ dq);
      ("    * " +:+ dq +:+ "Are there any edge cases? (e.g., error handling, empty states)" +:+ dq);
      ("4.  **Move to " +:+ dq +:+ "How" +:+ dq +:+ " (The " +:+ dq +:+ "Implementation" +:+ dq +:+ ")**:");
      ("    * " +:+ dq +:+ "What new UI components will we need?" +:+ dq);
      ("    * " +:+ dq +:+ "Does this need a new API endpoint? What should it do?" +:+ dq);
      ("    * " +:+ dq +:+ "How should this interact with existing systems?" +:+ dq);
      "5.  **Signal Completion**: Once you have gathered all the necessary information for both the plan and the spec, you MUST instruct the user to end the conversation. Your final message should be something like:";
      "";
      ("    " +:+ dq +:+ "Excellent. I have everything I need. To generate the final artifacts, please type 'done' or 'exit'." +:+ dq);
      "";
      "You MUST NOT generate the plan or the spec in the conversation. Your only job is to gather the information and then instruct the user to end the session.";
      "";
      "**Context Injection (if provided):**";
      ("This is a " +:+ dq +:+ "brownfield" +:+ dq +:+ " project. The user has provided context. You MUST adhere");
      "to these constraints.";
      "---";
      "" ].

Definition SYSTEM_PROMPT_tail : string :=
  join nl
    [ "";
      "---";
      "" ].

Definition SYNTHESIZE_PLAN_PROMPT_head : string :=
  join nl
    [ "";
      ("Based on our entire conversation, synthesize the human-readable " +:+ dq +:+ "Feature Plan" +:+ dq);
      "in Markdown. The plan MUST include:";
      ("1.  **Feature Name**: (e.g., " +:+ dq +:+ "Auth: Forgot Password Flow" +:+ dq +:+ ")");
      ("2.  **Problem Statement**: (The " +:+ dq +:+ "Why" +:+ dq +:+ ")");
      "3.  **Success Metrics**: (How we know it works)";
      ("4.  **User Stories / Journey**: (The " +:+ dq +:+ "What" +:+ dq +:+ ")");
      ("5.  **Implementation Notes**: (The " +:+ dq +:+ "How" +:+ dq +:+ ", including high-level API needs or UI components)");
      ("6.  **Edge Cases & Security**: (e.g., " +:+ dq +:+ "User is not found" +:+ dq +:+ ", " +:+ dq +:+ "Rate limiting" +:+ dq +:+ ")");
      "";
      "You MUST only output the Markdown content, with no other text or formatting.";
      "";
      "**Adhere to this context (if provided):**";
      "---";
      "" ].

Definition SYNTHESIZE_PLAN_PROMPT_mid : string :=
  join nl
    [ "";
      "---";
      "";
      "Here is our conversation history:";
      "" ].

Definition SYNTHESIZE_PLAN_PROMPT_tail : string :=
  join nl
    [ "";
      "";
      "Generate the Markdown file now.";
      "" ].

Definition SYNTHESIZE_SPEC_PROMPT_head : string :=
  join nl
    [ "";
      ("Based on our entire conversation, synthesize the machine-readable " +:+ dq +:+ "Execution Spec" +:+ dq);
      "in **MARKDOWN**. The user expects the spec to be detailed and structured using Markdown headings and bullet points.";
      "";
      "Example of the expected output:";
      "";
      "```markdown";
      "# Execution Specification";
      "";
      "## Feature: Example Feature";
      "";
      "### Requirements:";
      "*   **REQ-001 [Type: SYSTEM]** The system shall do something.";
      "*   **REQ-002 [Type: USER_STORY]** When the user does something, the system shall respond.";
      "```";
      "";
      "Here is the structure I expect:";
      "";
      "# Execution Specification";
      "";
      "## Feature: [Feature Name]";
      "";
      "### Requirements:";
      "*   **[ID] [Type: USER_STORY | SYSTEM | SECURITY | ACCESSIBILITY]** [A clear, testable, EARS-style requirement. (e.g., WHEN a user clicks 'Forgot Password', THE SYSTEM SHALL navigate to the 'Password Reset' view.)]";
      "";
      "";
      "**Rules:**";
      "* Create a requirement for EVERY actionable item, user story, and system behavior we discussed.";
      "* IDs must be sequential (REQ-001, REQ-002, ...).";
      "* The `requirement` text is CRITICAL. It must be a clear instruction for a coding agent.";
      "";
      "**Adhere to this context (if provided):**";
      "---";
      "" ].

Definition SYNTHESIZE_SPEC_PROMPT_mid : string :=
  join nl
    [ "";
      "---";
      "";
      "Here is our conversation history:";
      "" ].

Definition SYNTHESIZE_SPEC_PROMPT_tail : string :=
  join nl
    [ "";
      "";
      "Generate the Markdown file now.";
      "" ].

Definition AGENT_INSTRUCTIONS_CONTENT : string :=
  join nl
    [ "";
      ("# Agent Instructions: " +:+ dq +:+ "Code Executor Agent" +:+ dq);
      "";
      "This file describes the expected behavior of an AI Code Executor Agent.";
      "";
      "An Executor Agent is a tool that reads the generated `*.spec.md` and `*.plan.md`";
      "files and performs the required coding tasks.";
      "";
      "## 1. Load Context";
      "The agent **must** always look for and read these two files:";
      "1.  `project.context.json`: This defines the tech stack (e.g., React, FastAPI) and design system. All generated code must adhere to it.";
      ("2.  `*_plan.md`: This is the human-readable " +:+ dq +:+ "why" +:+ dq +:+ " for the feature. It must be used for context on the user's goals.");
      "";
      "## 2. Receive a Work Order";
      ("The agent is activated by being given a path to a `*.spec.md` file. This file is its " +:+ dq +:+ "Work Order." +:+ dq);
      "";
      "## 3. Execute the Work Order";
      "When given a spec, the agent's task is to:";
      "1.  Load and parse the `.md` file.";
      ("2.  Initialize a " +:+ dq +:+ "Build Report" +:+ dq +:+ " to track the status of each requirement.");
      "3.  Iterate through **every single requirement** in the `requirements` array.";
      "4.  For each requirement, generate the complete, production-ready code to implement it, following the tech stack from `project.context.json`.";
      "5.  The agent must clearly state which file paths the code should be saved to (e.g., `src/components/ResetPasswordView.jsx`).";
      ("6.  After code for a requirement is generated and confirmed, mark it as `" +:+ dq +:+ "SUCCESS" +:+ dq +:+ "` in the Build Report.");
      ("7.  If a problem is identified and the code is *not* implemented, mark it as `" +:+ dq +:+ "FAILED" +:+ dq +:+ "` and note the reason.");
      "";
      "## 4. Report Build Status";
      "After all requirements have been attempted:";
      ("1.  The agent **must** provide a final " +:+ dq +:+ "Build Report" +:+ dq +:+ ".");
      "2.  This report **must** clearly list:";
      "    * **Successfully Built Requirements:** (e.g., `[SUCCESS] REQ-001: ...`, `[SUCCESS] REQ-002: ...`)";
      "    * **Failed Requirements:** (e.g., `[FAILED] REQ-003: ... (Reason: API specification was incomplete.)`)";
      ("3.  Conclude with a summary of the feature's status (e.g., " +:+ dq +:+ "The feature is **partially built**. 2 of 3 requirements are complete." +:+ dq +:+ ")");
      "" ].

Definition SYSTEM_PROMPT_format (context_json : string) : string :=
  SYSTEM_PROMPT_head +:+ context_json +:+ SYSTEM_PROMPT_tail.

Definition SYNTHESIZE_PLAN_PROMPT_format (history context_json : string) : string :=
  SYNTHESIZE_PLAN_PROMPT_head +:+ context_json +:+ SYNTHESIZE_PLAN_PROMPT_mid
    +:+ history +:+ SYNTHESIZE_PLAN_PROMPT_tail.

Definition SYNTHESIZE_SPEC_PROMPT_format (history context_json : string) : string :=
  SYNTHESIZE_SPEC_PROMPT_head +:+ context_json +:+ SYNTHESIZE_SPEC_PROMPT_mid
    +:+ history +:+ SYNTHESIZE_SPEC_PROMPT_tail.

Definition AGENT_INSTRUCTIONS_FILENAME : string := "AGENT_INSTRUCTIONS.md".

(** ** The program *)

Section Program.

Context (env : Env).

(** [model.generate_content(prompt)]. *)
Definition model_generate_content (prompt : string) : M Response :=
  fun w =>
    let w' := set_requests (requests w ++ [Generate prompt]) w in
    match generate_content env (generated w) prompt with
    | Ok r => (Ret r, w')
    | Raise e => (Raised e, w')
    end.

(** [model.start_chat(history=h)]. *)
Definition start_chat (h : list Content) : M unit :=
  fun w => (Ret tt, set_chat_history h w).

(** [chat.send_message(message)]: on a reply, the user turn and the model
    turn join the history; the value is [response.text]. *)
Definition chat_send_message (message : string) : M string :=
  fun w =>
    let h := chat_history w in
    let w' := set_requests (requests w ++ [Send h message]) w in
    match send_message env h message with
    | Ok reply =>
        (Ret reply,
         set_chat_history
           (h ++ [ {| role := "user"; parts := [message] |};
                   {| role := "model"; parts := [reply] |} ]) w')
    | Raise e => (Raised e, w')
    end.

(** *** Helper functions *)

Definition feature_name_prompt (initial_idea : string) : string :=
  "You are a naming expert. Given the following feature description, suggest a short, 2-3 word feature name that can be used as a filename."
  +:+ nl +:+ nl +:+ "Feature Description: " +:+ dq +:+ initial_idea +:+ dq
  +:+ nl +:+ nl +:+ "Suggested Name:".

Definition generate_feature_name (initial_idea : string) : M string :=
  let prompt := feature_name_prompt initial_idea in
  response <- model_generate_content prompt ;;
  t <- of_result (text response) ;;
  ret (strip t).

Definition context_file : string := "project.context.json".

(** [str(v)], as an f-string renders [{v}]. *)
Definition py_str (v : JSON) : string :=
  match v with JStr s => s | _ => py_repr env v end.

Definition context_message (product_name stack : JSON) : string :=
  "Context loaded from ./" +:+ context_file +:+ ". I see we're working on '"
  +:+ py_str product_name +:+ "' with a " +:+ py_str stack +:+ " stack.".

Definition context_error (e : exn) : string :=
  "[bold red]Error:[/bold red] Found 'project.context.json' but couldn't read it: "
  +:+ exn_str e.

Definition load_context : M (string * string) :=
  found <- path_exists context_file ;;
  if (found : bool) then
    try_except is_Exception
      (content <- read_file context_file ;;
       context_data <- of_result (json_load env content) ;;
       let context_json := json_dumps env context_data in
       product <- of_result (get context_data "product" (JObj [])) ;;
       product_name <- of_result (get product "name" (JStr "this project")) ;;
       engineering <- of_result (get context_data "engineering" (JObj [])) ;;
       stack <- of_result (get engineering "stack" (JStr "defined")) ;;
       ret (context_json, context_message product_name stack))
      (fun e =>
         print (context_error e) ;;
         ret ("{}", ""))
  else ret ("{}", "Starting a new greenfield plan.").

Definition render_line (msg : SimpleMsg) : string :=
  "[" +:+ capitalize (s_role msg) +:+ "]: " +:+ s_parts msg.

Definition format_history_for_prompt (history : list SimpleMsg) : string :=
  join nl (map render_line history).

(** *** [main], by its numbered steps *)

Definition truthy (o : option string) : bool :=
  match o with Some s => negb (is_empty s) | None => false end.

(** 1. Load API Key. *)
Definition credential_missing : string :=
  "[bold red]Error:[/bold red] `GOOGLE_API_KEY` not found.".

Definition load_api_key : M unit :=
  if truthy (api_key env) then ret tt
  else
    print credential_missing ;;
    print "Please create a `.env` file and add your API key." ;;
    print ("Example: `GOOGLE_API_KEY=" +:+ dq +:+ "your_api_key_here" +:+ dq +:+ "`") ;;
    sys_exit 1.

(** 2. Get initial idea from command line arguments. *)
Definition get_initial_idea : M string :=
  let initial_idea := strip (join " " (argv env)) in
  if is_empty initial_idea then
    print "[bold red]Error:[/bold red] Please provide an initial feature idea." ;;
    print ("Example: `plan " +:+ dq +:+ "Build a new settings page" +:+ dq +:+ "`") ;;
    sys_exit 1
  else ret initial_idea.

Definition feature_name_error (e : exn) : string :=
  "[bold red]Error generating feature name:[/bold red] " +:+ exn_str e.

(** Generate a short feature name; fall back to the idea itself. *)
Definition name_feature (initial_idea : string) : M string :=
  try_except is_Exception
    (feature_name <- generate_feature_name initial_idea ;;
     print ("[bold]Generated Feature Name:[/bold] " +:+ feature_name +:+ nl) ;;
     ret feature_name)
    (fun e =>
       print (feature_name_error e) ;;
       ret initial_idea).

Definition seed_acknowledgment : string :=
  "OK, I am the 'Product Architect' agent. Let's get started. What is the high-level goal or problem you're trying to solve with this feature?".

Definition seed_history (system_prompt : string) : list Content :=
  [ {| role := "user"; parts := [system_prompt] |};
    {| role := "model"; parts := [seed_acknowledgment] |} ].

Definition first_prompt (initial_idea : string) : string :=
  "My initial idea is: " +:+ dq +:+ initial_idea +:+ dq +:+ ". Let's start from there.".

Definition agent_says (response_text : string) : string :=
  "**Agent:** " +:+ response_text.

Definition chat_error (e : exn) : string :=
  "[bold red]Error starting chat:[/bold red] " +:+ exn_str e.

(** 4. Set up the generative model and stateful chat. *)
Definition set_up_chat (initial_idea context_json : string) : M string :=
  try_except is_Exception
    (let system_prompt := SYSTEM_PROMPT_format context_json in
     start_chat (seed_history system_prompt) ;;
     response <- chat_send_message (first_prompt initial_idea) ;;
     print (agent_says response) ;;
     ret system_prompt)
    (fun e =>
       print (chat_error e) ;;
       sys_exit 1).

Definition termination_keywords : list string :=
  ["done"; "save"; "finish"; "exit"; "quit"; "q"].

Definition is_termination (user_input : string) : bool :=
  bool_decide (elem_of (lower user_input) termination_keywords).

Definition synthesize_notice : string :=
  nl +:+ "[bold cyan]Great. I'll synthesize our conversation and generate the artifacts...[/bold cyan]".

Definition session_ended_notice : string :=
  nl +:+ "[bold cyan]Session ended. Synthesizing files...[/bold cyan]".

(** The body of [while True], on what is left of the terminal script. *)
Fixpoint chat_loop (script : list Input) : M unit :=
  match script with
  | [] => raise EOFError
  | Interrupt :: _ => raise KeyboardInterrupt
  | Line s :: rest =>
      let user_input := strip s in
      if is_termination user_input then
        print synthesize_notice
      else if is_empty user_input then chat_loop rest
      else
        response <- chat_send_message user_input ;;
        print (agent_says response) ;;
        chat_loop rest
  end.

(** 5. Start the interactive chat loop. *)
Definition interactive_chat_loop (script : list Input) : M unit :=
  try_except is_interrupt
    (chat_loop script)
    (fun _ => print session_ended_notice).

(** The [for msg in chat.history] loop of step 6: [msg.parts[0]] of a
    message without parts raises [IndexError]. *)
Fixpoint simple_history (system_prompt : string) (history : list Content)
    : result (list SimpleMsg) :=
  match history with
  | [] => Ok []
  | msg :: rest =>
      match parts msg with
      | [] => Raise (Error "list index out of range")
      | t :: _ =>
          match simple_history system_prompt rest with
          | Ok l =>
              Ok (if decide (t = system_prompt) then l
                  else {| s_role := role msg; s_parts := t |} :: l)
          | Raise e => Raise e
          end
      end
  end.

Definition get_chat_history : M (list Content) :=
  fun w => (Ret (chat_history w), w).

(** Generate .plan.md (Human-Readable). *)
Definition generate_plan_md (history_str context_json base_filename : string)
    : M unit :=
  let plan_prompt := SYNTHESIZE_PLAN_PROMPT_format history_str context_json in
  plan_response <- model_generate_content plan_prompt ;;
  let plan_md_file := base_filename +:+ ".plan.md" in
  open_w env plan_md_file ;;
  plan_text <- of_result (text plan_response) ;;
  f_write env plan_md_file plan_text ;;
  print ("✅ Created: ./" +:+ plan_md_file).

Definition empty_spec_error : string :=
  nl +:+ "[bold red]Error:[/bold red] The model did not generate any content for the spec file.".

(** Generate .spec.md (Machine-Readable). *)
Definition generate_spec_md (history_str context_json base_filename : string)
    : M unit :=
  let spec_prompt := SYNTHESIZE_SPEC_PROMPT_format history_str context_json in
  spec_response <- model_generate_content spec_prompt ;;
  spec_text <- of_result (text spec_response) ;;
  (if is_empty (strip spec_text) then
     print empty_spec_error ;;
     sys_exit 1
   else ret tt) ;;
  let spec_md_file := base_filename +:+ ".spec.md" in
  open_w env spec_md_file ;;
  spec_text <- of_result (text spec_response) ;;
  f_write env spec_md_file spec_text ;;
  print ("✅ Created: ./" +:+ spec_md_file).

Definition instructions_created : string :=
  "✅ Created: ./" +:+ AGENT_INSTRUCTIONS_FILENAME +:+ " (Executor instructions)".

Definition instructions_skipped : string :=
  "ℹ️ Found:   ./" +:+ AGENT_INSTRUCTIONS_FILENAME +:+ " (already exists, skipping)".

(** Generate AGENT_INSTRUCTIONS.md (Executor Instructions). *)
Definition generate_agent_instructions : M unit :=
  found <- path_exists AGENT_INSTRUCTIONS_FILENAME ;;
  if negb found then
    open_w env AGENT_INSTRUCTIONS_FILENAME ;;
    f_write env AGENT_INSTRUCTIONS_FILENAME AGENT_INSTRUCTIONS_CONTENT ;;
    print instructions_created
  else
    print instructions_skipped.

Definition synthesis_error (e : exn) : string :=
  nl +:+ "[bold red]Error during synthesis:[/bold red] " +:+ exn_str e.

(** 6. Final Synthesis. *)
Definition final_synthesis (system_prompt feature_name context_json : string)
    : M unit :=
  try_except is_Exception
    (history <- get_chat_history ;;
     simple <- of_result (simple_history system_prompt history) ;;
     let history_str := format_history_for_prompt simple in
     let base_filename := sanitize_filename feature_name in
     print (nl +:+ "[bold]Generating artifacts...[/bold]") ;;
     generate_plan_md history_str context_json base_filename ;;
     generate_spec_md history_str context_json base_filename ;;
     generate_agent_instructions ;;
     print (nl +:+ "[bold green]All files generated successfully![/bold green]") ;;
     print "Your artifacts are ready for an execution agent.")
    (fun e =>
       print (synthesis_error e) ;;
       sys_exit 1).

(** Steps 3 to 6: what follows once the feature name is settled. *)
Definition plan_feature (initial_idea feature_name : string) : M unit :=
  ctx <- load_context ;;
  let context_json := ctx.1 in
  let context_msg := ctx.2 in
  print ("[italic]" +:+ context_msg +:+ "[/italic]" +:+ nl) ;;
  system_prompt <- set_up_chat initial_idea context_json ;;
  interactive_chat_loop (stdin env) ;;
  final_synthesis system_prompt feature_name context_json.

Definition welcome : string :=
  "[bold cyan]Welcome to the Feature Planner CLI[/bold cyan]".

Definition planning_notice (initial_idea : string) : string :=
  "[bold]Planning feature:[/bold] " +:+ initial_idea +:+ nl.

Definition main : M unit :=
  print welcome ;;
  load_api_key ;;
  initial_idea <- get_initial_idea ;;
  feature_name <- name_feature initial_idea ;;
  print (planning_notice initial_idea) ;;
  plan_feature initial_idea feature_name.

End Program.

(** The status the process ends with, as its parent reads it: 0 when [main]
    returns, the argument of [sys.exit], 1 when an exception reaches the top
    and the interpreter prints its traceback.  A [KeyboardInterrupt] that
    reaches the top is no such exit: the interpreter ends the process by
    SIGINT, which a shell reports as 128 + 2. *)
Definition exit_status {A} (o : outcome A) : Z :=
  match o with
  | Ret _ => 0%Z
  | Exited n => n
  | Raised KeyboardInterrupt => 130%Z
  | Raised _ => 1%Z
  end.

(** A fresh process: nothing printed, no call made, no chat. *)
Definition initial_world (fs : gmap string Node) : World :=
  {| console := []; files := fs; requests := []; chat_history := [] |}.

(** ** Vocabulary of the statements *)

(** [m] takes every world to one that is [R]-related to it. *)
Definition respects (R : World -> World -> Prop) {A} (m : M A) : Prop :=
  forall w, R w (m w).2.

(** Only the paths in [paths] may differ between the two file systems. *)
Definition same_files_but (paths : list string) (w w' : World) : Prop :=
  forall path, ~ In path paths -> files w' !! path = files w !! path.

(** The console and the request log of [w'] continue those of [w]. *)
Definition continues (w w' : World) : Prop :=
  (exists more, console w' = console w ++ more) /\
  (exists more, requests w' = requests w ++ more).

(** Nothing but the console differs. *)
Definition only_prints (w w' : World) : Prop :=
  files w' = files w /\ requests w' = requests w /\
  chat_history w' = chat_history w.

(** [data] can be written to [path]: the path is no directory, the operating
    system opens it for writing, and the write goes through. *)
Definition writable (env : Env) (w : World) (path data : string) : Prop :=
  files w !! path <> Some Dir /\
  open_error env path = None /\
  write_error env path data = None.



Definition user_turn (t : string) : Content :=
  {| role := "user"; parts := [t] |}.

Definition model_turn (t : string) : Content :=
  {| role := "model"; parts := [t] |}.

(** The text of a turn: its first part. *)
Definition turn_text (c : Content) : string := hd "" (parts c).

(** The message [simple_history] keeps for a turn. *)
Definition simple_of (c : Content) : SimpleMsg :=
  {| s_role := role c; s_parts := turn_text c |}.

(** The turn repeats the system prompt word for word. *)
Definition echoes (system_prompt : string) (c : Content) : bool :=
  bool_decide (turn_text c = system_prompt).

(** A turn the session itself appends: a model reply, or a user message,
    which never is the system prompt. *)
Definition real_turn (system_prompt : string) (c : Content) : Prop :=
  exists t, c = model_turn t \/ (c = user_turn t /\ t <> system_prompt).

(** The line of the rendered history that stands for a turn. *)
Definition history_line (c : Content) : string :=
  (if decide (role c = "user") then "[User]: " else "[Model]: ")
  +:+ turn_text c.

(** Two runs agree on everything but what the console shows. *)
Definition same_but_console {A} (a b : outcome A * World) : Prop :=
  a.1 = b.1 /\ files a.2 = files b.2 /\ requests a.2 = requests b.2 /\
  chat_history a.2 = chat_history b.2.

(** ** Scenarios

    Concrete environments and worlds on which the theorems below are
    exercised. *)

Definition text_reply (s : string) : result Response := Ok {| text := Ok s |}.

(** An environment whose one-shot calls answer by their rank and whose chat
    answers by the message alone. *)
Definition scripted_env (key : option string) (args : list string)
    (script : list Input) (gen : nat -> result Response)
    (chat : string -> result string) (context : result JSON) : Env :=
  {| api_key := key; argv := args; stdin := script;
     generate_content := fun n _ => gen n;
     send_message := fun _ message => chat message;
     json_load := fun _ => context;
     json_dumps := fun _ => "{}";
     py_repr := fun _ => "";
     open_error := fun _ => None;
     write_error := fun _ _ => None |}.

(** The replies of the repository's tests: a name, a plan, a spec. *)
Definition three_replies (name plan spec : string) (n : nat) : result Response :=
  match n with
  | O => text_reply name
  | S O => text_reply plan
  | _ => text_reply spec
  end.

Definition no_context : result JSON :=
  Raise (Error "Expecting value: line 1 column 1 (char 0)").

Definition test_env (spec : string) : Env :=
  scripted_env (Some "fake_api_key") ["test feature"] [Line "done"]
    (three_replies "test_feature_name" "# Test Plan" spec)
    (fun _ => Ok "Agent response") no_context.

(** The requests and the history that the input loop of [test_env] leaves,
    on a cleared console. *)
Definition test_session (fs : gmap string Node) : World :=
  let system_prompt := SYSTEM_PROMPT_format "{}" in
  {| console := [];
     files := fs;
     requests :=
       [ Generate (feature_name_prompt "test feature");
         Send (seed_history system_prompt) (first_prompt "test feature") ];
     chat_history :=
       seed_history system_prompt ++
       [ {| role := "user"; parts := [first_prompt "test feature"] |};
         {| role := "model"; parts := ["Agent response"] |} ] |}.

Definition test_simple_history : list SimpleMsg :=
  [ {| s_role := "model"; s_parts := seed_acknowledgment |};
    {| s_role := "user"; s_parts := first_prompt "test feature" |};
    {| s_role := "model"; s_parts := "Agent response" |} ].

Definition no_files : gmap string Node := empty.

(** A working directory that already holds all three output names. *)
Definition old_files : gmap string Node :=
  <[ "test_feature_name.plan.md" := File "old plan" ]>
    (<[ "test_feature_name.spec.md" := File "old spec" ]>
       (<[ AGENT_INSTRUCTIONS_FILENAME := File "kept as it is" ]> no_files)).

Definition no_key_env : Env :=
  scripted_env None ["test feature"] [Line "done"]
    (three_replies "test_feature_name" "# Test Plan" "# Test Spec")
    (fun _ => Ok "Agent response") no_context.

(** The name call fails; everything else answers as in the tests. *)
Definition unnamed_env : Env :=
  scripted_env (Some "fake_api_key") ["Dark"; "Mode!"] [Line "done"]
    (fun n => match n with
              | O => Raise (Error "503 Service Unavailable")
              | S O => text_reply "# Test Plan"
              | _ => text_reply "# Test Spec"
              end)
    (fun _ => Ok "Agent response") no_context.






(** A model that answers every message by repeating the first turn of the
    history it is given, that is, its instructions. *)
Definition echo_env : Env :=
  {| api_key := Some "fake_api_key"; argv := ["test feature"];
     stdin := [Line "done"];
     generate_content :=
       fun n _ => three_replies "test_feature_name" "# Test Plan" "# Test Spec" n;
     send_message :=
       fun history _ =>
         Ok (match history with c :: _ => turn_text c | [] => "" end);
     json_load := fun _ => no_context;
     json_dumps := fun _ => "{}";
     py_repr := fun _ => "";
     open_error := fun _ => None;
     write_error := fun _ _ => None |}.

(** The environment of the tests, on a terminal script of one's choice. *)
Definition talk_env (script : list Input) : Env :=
  scripted_env (Some "fake_api_key") ["test feature"] script
    (three_replies "test_feature_name" "# Test Plan" "# Test Spec")
    (fun _ => Ok "Agent response") no_context.

(** ** Vocabulary of the further properties *)

(** A lower-case letter or a digit. *)
Definition alnum_char (c : ascii) : bool :=
  in_range 97 122 c || in_range 48 57 c.

(** A character [sanitize_filename] keeps or turns into an underscore. *)
Definition clean_char (c : ascii) : bool := safe_char c || space_or_hyphen c.

Definition starts_with (p : ascii -> bool) (s : string) : bool :=
  match first_char s with Some c => p c | None => false end.

Definition ends_with (p : ascii -> bool) (s : string) : bool :=
  match last_char s with Some c => p c | None => false end.

(** The second step of [sanitize_filename] on one character. *)
Definition separator_to_underscore (c : ascii) : ascii :=
  if space_or_hyphen c then underscore else c.

(** The value on which the loader's chain of [get] calls fails, if any: the
    context itself when it is not an object, else the [product] member when
    it is present and not an object, else the [engineering] member likewise. *)
Definition misshapen (v : JSON) : option JSON :=
  match v with
  | JObj members =>
      match assoc "product" members with
      | Some (JObj _) | None =>
          match assoc "engineering" members with
          | Some (JObj _) | None => None
          | Some other => Some other
          end
      | Some other => Some other
      end
  | _ => Some v
  end.

(** The [AttributeError] of calling [get] on [v]. *)
Definition no_get (v : JSON) : exn :=
  Error ("'" +:+ type_name v +:+ "' object has no attribute 'get'").

(** The credential is set and the command line holds only white space. *)
Definition no_idea_env : Env :=
  scripted_env (Some "fake_api_key") ["  "; ""] [Line "done"]
    (three_replies "test_feature_name" "# Test Plan" "# Test Spec")
    (fun _ => Ok "Agent response") no_context.

(** A context file that parses, to a list. *)
Definition list_context_env : Env :=
  scripted_env (Some "fake_api_key") ["test feature"] [Line "done"]
    (three_replies "test_feature_name" "# Test Plan" "# Test Spec")
    (fun _ => Ok "Agent response") (Ok (JArr [JInt 1; JInt 2])).

Definition list_files : gmap string Node :=
  <[ context_file := File "[1, 2]" ]> no_files.

(** A plan call whose response carries no text: [response.text] raises. *)
Definition textless_env : Env :=
  scripted_env (Some "fake_api_key") ["test feature"] [Line "done"]
    (fun n => match n with
              | O => text_reply "test_feature_name"
              | S O => Ok {| text := Raise (Error "The response has no text part") |}
              | _ => text_reply "# Test Spec"
              end)
    (fun _ => Ok "Agent response") no_context.

(** Every one-shot call after the name fails. *)
Definition failing_env : Env :=
  scripted_env (Some "fake_api_key") ["test feature"] [Line "done"]
    (fun n => match n with
              | O => text_reply "test_feature_name"
              | _ => Raise (Error "429 Resource exhausted")
              end)
    (fun _ => Ok "Agent response") no_context.

(** The plan is generated, the spec call fails. *)
Definition spec_failing_env : Env :=
  scripted_env (Some "fake_api_key") ["test feature"] [Line "done"]
    (fun n => match n with
              | O => text_reply "test_feature_name"
              | S O => text_reply "# Test Plan"
              | _ => Raise (Error "429 Resource exhausted")
              end)
    (fun _ => Ok "Agent response") no_context.

(** A message the loop may send: stripped, not empty, not a keyword. *)
Definition sendable (message : string) : Prop :=
  strip message = message /\ is_empty message = false /\
  is_termination message = false.

(** The two turns one exchange adds to the history. *)
Definition exchange (said : string * string) : list Content :=
  [user_turn said.1; model_turn said.2].

(** The chat fails on the second message of the session. *)
Definition dropping_env : Env :=
  scripted_env (Some "fake_api_key") ["test feature"]
    [Line "add a dark theme"; Line "done"]
    (three_replies "test_feature_name" "# Test Plan" "# Test Spec")
    (fun message =>
       if decide (message = "add a dark theme")
       then Raise (Error "500 Internal error")
       else Ok "Agent response")
    no_context.

(** No file of [w] is missing from [w']. *)
Definition keeps_files (w w' : World) : Prop :=
  forall path, is_Some (files w !! path) -> is_Some (files w' !! path).

(** An [AGENT_INSTRUCTIONS.md] that exists in [w] is the same in [w']. *)
Definition keeps_instructions (w w' : World) : Prop :=
  forall node,
    files w !! AGENT_INSTRUCTIONS_FILENAME = Some node ->
    files w' !! AGENT_INSTRUCTIONS_FILENAME = Some node.

(** The path names a file of the working directory itself: no slash. *)
Definition plain_name (path : string) : bool :=
  sforall (fun c => negb (code c =? 47)) path.


(** The model proposes a name that reads like a path. *)
Definition traversal_env : Env :=
  scripted_env (Some "fake_api_key") ["test feature"] [Line "done"]
    (three_replies "../../etc/Cron.d" "# Test Plan" "# Test Spec")
    (fun _ => Ok "Agent response") no_context.

(** The user interrupts the program while it waits for the feature name. *)
Definition interrupted_env : Env :=
  scripted_env (Some "fake_api_key") ["test feature"] [Line "done"]
    (fun _ => Raise KeyboardInterrupt)
    (fun _ => Ok "Agent response") no_context.

(** [env] on a file system that answers [open(path, "w")] by [refuse]. *)
Definition refusing (refuse : string -> option string) (env : Env) : Env :=
  {| api_key := api_key env; argv := argv env; stdin := stdin env;
     generate_content := generate_content env;
     send_message := send_message env;
     json_load := json_load env; json_dumps := json_dumps env;
     py_repr := py_repr env;
     open_error := refuse;
     write_error := write_error env |}.

(** A file system whose names hold at most 255 bytes. *)
Definition name_too_long (path : string) : option string :=
  if (255 <? String.length path)%nat
  then Some ("[Errno 36] File name too long: '" +:+ path +:+ "'")
  else None.

Fixpoint replicate_char (n : nat) (c : ascii) : string :=
  match n with
  | O => ""
  | S n' => String c (replicate_char n' c)
  end.

(** The model proposes a name of 275 letters. *)
Definition long_name : string := replicate_char 275 "a".

Definition long_name_env : Env :=
  refusing name_too_long
    (scripted_env (Some "fake_api_key") ["test feature"] [Line "done"]
       (three_replies long_name "# Test Plan" "# Test Spec")
       (fun _ => Ok "Agent response") no_context).

(** Whenever [m] ends by [sys.exit], the status is 1. *)
Definition exits_one {A} (m : M A) : Prop :=
  forall w n w', m w = (Exited n, w') -> n = 1%Z.

(** [m] makes at most [n] API calls, and forgets none already logged. *)
Definition spends (n : nat) {A} (m : M A) : Prop :=
  forall w, exists more,
    requests (m w).2 = requests w ++ more /\ (length more <= n)%nat.

(** * Properties *)

(** ** Strings *)

Lemma append_nil_l (s : string) : "" +:+ s = s.
Proof. reflexivity. Qed.

Lemma append_cons (c : ascii) (s t : string) :
  String c s +:+ t = String c (s +:+ t).
Proof. reflexivity. Qed.

Lemma append_nil_r (s : string) : s +:+ "" = s.
Proof.
  induction s as [|c s IH]; [reflexivity |].
  now rewrite append_cons, IH.
Qed.

Lemma append_assoc (a b c : string) : (a +:+ b) +:+ c = a +:+ b +:+ c.
Proof.
  induction a as [|x a IH]; [reflexivity |].
  now rewrite !append_cons, IH.
Qed.

Lemma append_inv_head (a b c : string) : a +:+ b = a +:+ c -> b = c.
Proof.
  induction a as [|x a IH]; rewrite ?append_nil_l, ?append_cons; intros H;
    [exact H |].
  injection H as H. now apply IH.
Qed.

Lemma contains_here (needle post : string) : contains needle (needle +:+ post).
Proof. exists "", post. reflexivity. Qed.

Lemma contains_append_l (needle pre hay : string) :
  contains needle hay -> contains needle (pre +:+ hay).
Proof.
  intros (a & b & ->). exists (pre +:+ a), b. now rewrite append_assoc.
Qed.

Lemma sforall_sfilter (p : ascii -> bool) (s : string) :
  sforall p (sfilter p s) = true.
Proof.
  induction s as [|c s IH]; simpl; [reflexivity |].
  destruct (p c) eqn:E; simpl; [rewrite E |]; exact IH.
Qed.

Lemma sforall_lstrip (p q : ascii -> bool) (s : string) :
  sforall p s = true -> sforall p (lstrip_by q s) = true.
Proof.
  induction s as [|c s IH]; simpl; [reflexivity |].
  intros H. apply andb_prop in H as [Hc Hs].
  destruct (q c); [now apply IH | simpl; now rewrite Hc, Hs].
Qed.

Lemma sforall_rstrip (p q : ascii -> bool) (s : string) :
  sforall p s = true -> sforall p (rstrip_by q s) = true.
Proof.
  induction s as [|c s IH]; simpl; [reflexivity |].
  intros H. apply andb_prop in H as [Hc Hs].
  destruct (is_empty (rstrip_by q s) && q c); simpl; [reflexivity |].
  rewrite Hc. now apply IH.
Qed.

(** What [lstrip] leaves does not start with a stripped character. *)
Lemma first_char_lstrip (p : ascii -> bool) (s : string) (c : ascii) :
  first_char (lstrip_by p s) = Some c -> p c = false.
Proof.
  induction s as [|x s IH]; simpl; [discriminate |].
  destruct (p x) eqn:E; [exact IH |].
  simpl. intros [= <-]. exact E.
Qed.

(** What [rstrip] leaves does not end with a stripped character. *)
Lemma last_char_rstrip (p : ascii -> bool) (s : string) (c : ascii) :
  last_char (rstrip_by p s) = Some c -> p c = false.
Proof.
  induction s as [|x s IH]; simpl; [discriminate |].
  destruct (rstrip_by p s) as [|y r] eqn:Er; simpl.
  - destruct (p x) eqn:E; simpl; [discriminate |]. intros [= <-]. exact E.
  - exact IH.
Qed.

Lemma last_char_lstrip (p : ascii -> bool) (s : string) :
  is_empty (lstrip_by p s) = false ->
  last_char (lstrip_by p s) = last_char s.
Proof.
  induction s as [|x s IH]; simpl; [discriminate |].
  destruct (p x) eqn:E; [| reflexivity].
  intros H. rewrite (IH H).
  destruct s; [discriminate H | reflexivity].
Qed.

Lemma first_char_strip_by (p : ascii -> bool) (s : string) (c : ascii) :
  first_char (strip_by p s) = Some c -> p c = false.
Proof. apply first_char_lstrip. Qed.

Lemma last_char_strip_by (p : ascii -> bool) (s : string) (c : ascii) :
  last_char (strip_by p s) = Some c -> p c = false.
Proof.
  unfold strip_by. intros H.
  destruct (is_empty (lstrip_by p (rstrip_by p s))) eqn:E.
  - destruct (lstrip_by p (rstrip_by p s)); [discriminate H | discriminate E].
  - rewrite (last_char_lstrip _ _ E) in H. now apply last_char_rstrip in H.
Qed.

Lemma sforall_strip_by (p q : ascii -> bool) (s : string) :
  sforall p s = true -> sforall p (strip_by q s) = true.
Proof. intros H. now apply sforall_lstrip, sforall_rstrip. Qed.

(** ** [sanitize_filename] *)

(** The result is the fallback or the stripped text itself. *)
Lemma sanitize_filename_cases (text : string) :
  sanitize_filename text = "feature_plan" \/
  exists t, sanitize_filename text = strip_by is_underscore (sfilter safe_char t) /\
            is_empty (sanitize_filename text) = false.
Proof.
  unfold sanitize_filename.
  set (t := smap _ (strip (lower text))).
  destruct (is_empty (strip_by is_underscore (sfilter safe_char t))) eqn:E;
    [now left | right; now exists t].
Qed.

Lemma sanitize_filename_safe (text : string) :
  sforall safe_char (sanitize_filename text) = true.
Proof.
  destruct (sanitize_filename_cases text) as [-> | (t & -> & _)];
    [reflexivity |].
  apply sforall_strip_by, sforall_sfilter.
Qed.

Lemma sanitize_filename_nonempty (text : string) :
  is_empty (sanitize_filename text) = false.
Proof.
  destruct (sanitize_filename_cases text) as [-> | (t & _ & E)];
    [reflexivity | exact E].
Qed.

Lemma sanitize_filename_first (text : string) (c : ascii) :
  first_char (sanitize_filename text) = Some c -> is_underscore c = false.
Proof.
  destruct (sanitize_filename_cases text) as [-> | (t & -> & _)].
  - simpl. now intros [= <-].
  - apply first_char_strip_by.
Qed.

Lemma sanitize_filename_last (text : string) (c : ascii) :
  last_char (sanitize_filename text) = Some c -> is_underscore c = false.
Proof.
  destruct (sanitize_filename_cases text) as [-> | (t & -> & _)].
  - simpl. now intros [= <-].
  - apply last_char_strip_by.
Qed.

(** C7. [sanitize_filename] maps "My Cool-Feature!" to "my_cool_feature" and
    the empty string to the fallback "feature_plan"; whatever the input, the
    result is not empty, holds only the characters a-z, 0-9 and underscore
    (so capitals are lowered or gone and punctuation is gone), and neither
    starts nor ends with an underscore. *)
Theorem sanitize_filename_examples :
  sanitize_filename "My Cool-Feature!" = "my_cool_feature" /\
  sanitize_filename "" = "feature_plan" /\
  forall text : string,
    is_empty (sanitize_filename text) = false /\
    sforall safe_char (sanitize_filename text) = true /\
    first_char (sanitize_filename text) <> Some underscore /\
    last_char (sanitize_filename text) <> Some underscore.
Proof.
  split; [reflexivity | split; [reflexivity |]].
  intros text. repeat split.
  - apply sanitize_filename_nonempty.
  - apply sanitize_filename_safe.
  - intros H. now apply sanitize_filename_first in H.
  - intros H. now apply sanitize_filename_last in H.
Qed.

(** ** Running the monad *)

Ltac simpl_world :=
  cbn [files console requests chat_history
       set_console set_files set_requests set_chat_history fst snd].

(** Discharges [writable] on a concrete environment and world. *)
Ltac writable_now :=
  split; [vm_compute; discriminate | split; vm_compute; reflexivity].


Lemma bind_ret {A B} (m : M A) (k : A -> M B) w a w' :
  m w = (Ret a, w') -> bind m k w = k a w'.
Proof. unfold bind. now intros ->. Qed.

Lemma bind_raised {A B} (m : M A) (k : A -> M B) w e w' :
  m w = (Raised e, w') -> bind m k w = (Raised e, w').
Proof. unfold bind. now intros ->. Qed.

Lemma bind_exited {A B} (m : M A) (k : A -> M B) w n w' :
  m w = (Exited n, w') -> bind m k w = (Exited n, w').
Proof. unfold bind. now intros ->. Qed.

Lemma try_ret {A} c (m : M A) h w a w' :
  m w = (Ret a, w') -> try_except c m h w = (Ret a, w').
Proof. unfold try_except. now intros ->. Qed.

Lemma try_exited {A} c (m : M A) h w n w' :
  m w = (Exited n, w') -> try_except c m h w = (Exited n, w').
Proof. unfold try_except. now intros ->. Qed.

Lemma try_caught {A} c (m : M A) h w e w' :
  m w = (Raised e, w') -> c e = true -> try_except c m h w = h e w'.
Proof. unfold try_except. now intros -> ->. Qed.

Lemma try_passed {A} c (m : M A) h w e w' :
  m w = (Raised e, w') -> c e = false -> try_except c m h w = (Raised e, w').
Proof. unfold try_except. now intros -> ->. Qed.

Lemma generated_snoc c f h (w : World) (p : string) :
  generated {| console := c; files := f;
               requests := requests w ++ [Generate p];
               chat_history := h |} = S (generated w).
Proof.
  unfold generated. simpl. rewrite List.filter_app, length_app. simpl. lia.
Qed.

Section Runs.
Context (env : Env).

Lemma generate_plan_md_ok h ctx base w P :
  generate_content env (generated w) (SYNTHESIZE_PLAN_PROMPT_format h ctx)
    = Ok {| text := Ok P |} ->
  writable env w (base +:+ ".plan.md") P ->
  generate_plan_md env h ctx base w =
    (Ret tt,
     {| console := console w ++ ["✅ Created: ./" +:+ base +:+ ".plan.md"];
        files := <[base +:+ ".plan.md" := File P]> (files w);
        requests := requests w ++ [Generate (SYNTHESIZE_PLAN_PROMPT_format h ctx)];
        chat_history := chat_history w |}).
Proof.
  intros Hp (Hd & Ho & Hw).
  unfold generate_plan_md, bind, model_generate_content. rewrite Hp.
  unfold open_w. cbn [files set_requests]. rewrite Ho.
  destruct (files w !! (base +:+ ".plan.md")) as [[c|]|] eqn:E;
    try contradiction;
    unfold of_result, ret, f_write, print; cbn;
    rewrite lookup_insert_eq, Hw, insert_insert_eq; reflexivity.
Qed.

Lemma generate_spec_md_empty h ctx base w S :
  generate_content env (generated w) (SYNTHESIZE_SPEC_PROMPT_format h ctx)
    = Ok {| text := Ok S |} ->
  is_empty (strip S) = true ->
  generate_spec_md env h ctx base w =
    (Exited 1%Z,
     {| console := console w ++ [empty_spec_error];
        files := files w;
        requests := requests w ++ [Generate (SYNTHESIZE_SPEC_PROMPT_format h ctx)];
        chat_history := chat_history w |}).
Proof.
  intros Hs Hb.
  unfold generate_spec_md, bind, model_generate_content. rewrite Hs.
  cbn. rewrite Hb. reflexivity.
Qed.

Lemma generate_spec_md_ok h ctx base w S :
  generate_content env (generated w) (SYNTHESIZE_SPEC_PROMPT_format h ctx)
    = Ok {| text := Ok S |} ->
  is_empty (strip S) = false ->
  writable env w (base +:+ ".spec.md") S ->
  generate_spec_md env h ctx base w =
    (Ret tt,
     {| console := console w ++ ["✅ Created: ./" +:+ base +:+ ".spec.md"];
        files := <[base +:+ ".spec.md" := File S]> (files w);
        requests := requests w ++ [Generate (SYNTHESIZE_SPEC_PROMPT_format h ctx)];
        chat_history := chat_history w |}).
Proof.
  intros Hs Hb (Hd & Ho & Hw).
  unfold generate_spec_md, bind, model_generate_content. rewrite Hs.
  cbn. rewrite Hb. unfold open_w. cbn. rewrite Ho.
  destruct (files w !! (base +:+ ".spec.md")) as [[c|]|] eqn:E;
    try contradiction;
    unfold of_result, ret, f_write, print; cbn;
    rewrite lookup_insert_eq, Hw, insert_insert_eq; reflexivity.
Qed.

Lemma generate_agent_instructions_run w :
  (files w !! AGENT_INSTRUCTIONS_FILENAME = None ->
   writable env w AGENT_INSTRUCTIONS_FILENAME AGENT_INSTRUCTIONS_CONTENT) ->
  generate_agent_instructions env w =
    (Ret tt,
     match files w !! AGENT_INSTRUCTIONS_FILENAME with
     | Some _ =>
         {| console := console w ++ [instructions_skipped];
            files := files w;
            requests := requests w; chat_history := chat_history w |}
     | None =>
         {| console := console w ++ [instructions_created];
            files := <[AGENT_INSTRUCTIONS_FILENAME :=
                         File AGENT_INSTRUCTIONS_CONTENT]> (files w);
            requests := requests w; chat_history := chat_history w |}
     end).
Proof.
  intros Ha. unfold generate_agent_instructions, bind, path_exists.
  destruct (files w !! AGENT_INSTRUCTIONS_FILENAME) as [n|] eqn:E.
  - rewrite bool_decide_eq_true_2 by eauto. reflexivity.
  - destruct (Ha eq_refl) as (_ & Ho & Hw).
    rewrite bool_decide_eq_false_2 by (intros [? ?]; discriminate).
    cbn [negb]. unfold open_w. rewrite E, Ho. unfold f_write.
    cbn [files set_files]. rewrite lookup_insert_eq, Hw.
    unfold print. cbn. rewrite insert_insert_eq. reflexivity.
Qed.

(** *** The three paths differ *)

Lemma plan_spec_ne (base : string) : base +:+ ".plan.md" <> base +:+ ".spec.md".
Proof. intros H. apply append_inv_head in H. discriminate H. Qed.

Lemma sanitized_path_ne (feature_name ext : string) :
  sanitize_filename feature_name +:+ ext <> AGENT_INSTRUCTIONS_FILENAME.
Proof.
  pose proof (sanitize_filename_safe feature_name) as Hs.
  pose proof (sanitize_filename_nonempty feature_name) as Hn.
  destruct (sanitize_filename feature_name) as [|c s]; [discriminate Hn |].
  rewrite append_cons. intros [= -> _]. discriminate Hs.
Qed.

(** *** Final synthesis, when both documents are generated *)

Section Synthesis.

Context (sp feature_name ctx : string) (w : World) (simple : list SimpleMsg).
Context (plan_text spec_text : string).

Let base := sanitize_filename feature_name.
Let history_str := format_history_for_prompt simple.
Let plan_prompt := SYNTHESIZE_PLAN_PROMPT_format history_str ctx.
Let spec_prompt := SYNTHESIZE_SPEC_PROMPT_format history_str ctx.

Hypothesis history_ok : simple_history sp (chat_history w) = Ok simple.
Hypothesis plan_reply :
  generate_content env (generated w) plan_prompt = Ok {| text := Ok plan_text |}.
Hypothesis spec_reply :
  generate_content env (S (generated w)) spec_prompt
    = Ok {| text := Ok spec_text |}.
Hypothesis plan_writable : writable env w (base +:+ ".plan.md") plan_text.

Lemma final_synthesis_empty_spec :
  is_empty (strip spec_text) = true ->
  final_synthesis env sp feature_name ctx w =
    (Exited 1%Z,
     {| console := console w ++
          [ nl +:+ "[bold]Generating artifacts...[/bold]";
            "✅ Created: ./" +:+ base +:+ ".plan.md";
            empty_spec_error ];
        files := <[base +:+ ".plan.md" := File plan_text]> (files w);
        requests := requests w ++ [Generate plan_prompt; Generate spec_prompt];
        chat_history := chat_history w |}).
Proof.
  intros Hb. unfold final_synthesis.
  apply try_exited.
  erewrite bind_ret by reflexivity. rewrite history_ok.
  erewrite bind_ret by reflexivity.
  erewrite bind_ret by reflexivity.
  erewrite bind_ret
    by (apply generate_plan_md_ok; [exact plan_reply | exact plan_writable]).
  erewrite bind_exited;
    [| apply generate_spec_md_empty with (S := spec_text);
       [rewrite generated_snoc; exact spec_reply | exact Hb] ].
  simpl_world. now rewrite <- !app_assoc.
Qed.

Lemma final_synthesis_success :
  is_empty (strip spec_text) = false ->
  writable env w (base +:+ ".spec.md") spec_text ->
  (files w !! AGENT_INSTRUCTIONS_FILENAME = None ->
   writable env w AGENT_INSTRUCTIONS_FILENAME AGENT_INSTRUCTIONS_CONTENT) ->
  final_synthesis env sp feature_name ctx w =
    (Ret tt,
     {| console := console w ++
          [ nl +:+ "[bold]Generating artifacts...[/bold]";
            "✅ Created: ./" +:+ base +:+ ".plan.md";
            "✅ Created: ./" +:+ base +:+ ".spec.md";
            match files w !! AGENT_INSTRUCTIONS_FILENAME with
            | Some _ => instructions_skipped
            | None => instructions_created
            end;
            nl +:+ "[bold green]All files generated successfully![/bold green]";
            "Your artifacts are ready for an execution agent." ];
        files :=
          (let written :=
             <[base +:+ ".spec.md" := File spec_text]>
               (<[base +:+ ".plan.md" := File plan_text]> (files w)) in
           match files w !! AGENT_INSTRUCTIONS_FILENAME with
           | Some _ => written
           | None => <[AGENT_INSTRUCTIONS_FILENAME :=
                         File AGENT_INSTRUCTIONS_CONTENT]> written
           end);
        requests := requests w ++ [Generate plan_prompt; Generate spec_prompt];
        chat_history := chat_history w |}).
Proof.
  intros Hb (Hd & Ho & Hw) Ha. unfold final_synthesis.
  apply try_ret.
  erewrite bind_ret by reflexivity. rewrite history_ok.
  erewrite bind_ret by reflexivity.
  erewrite bind_ret by reflexivity.
  erewrite bind_ret
    by (apply generate_plan_md_ok; [exact plan_reply | exact plan_writable]).
  erewrite bind_ret;
    [| apply generate_spec_md_ok;
       [ rewrite generated_snoc; exact spec_reply | exact Hb
       | split; [| split; [exact Ho | exact Hw]];
         cbn [files]; rewrite lookup_insert_ne by apply plan_spec_ne;
         exact Hd ] ].
  erewrite bind_ret;
    [| apply generate_agent_instructions_run; cbn [files];
       rewrite !lookup_insert_ne by apply sanitized_path_ne;
       intros E; destruct (Ha E) as (Hd' & Ho' & Hw');
       split; [| split; [exact Ho' | exact Hw']];
       cbn [files]; rewrite !lookup_insert_ne by apply sanitized_path_ne;
       exact Hd' ].
  simpl_world.
  rewrite !lookup_insert_ne by apply sanitized_path_ne.
  destruct (files w !! AGENT_INSTRUCTIONS_FILENAME);
    unfold bind, print; simpl_world; now rewrite <- !app_assoc.
Qed.

End Synthesis.
End Runs.

(** ** The synthesis stage and the artifact writer *)

(** C2. Once the plan is written: when the spec-generation call returns
    empty or whitespace-only text, the line "Error: The model did not
    generate any content for the spec file." is printed last, the process
    exits with status 1 and the spec file (like the instructions file) is
    left as it was; any other spec text, and any plan text at all, is written
    as it came wherever the files can be written: the blank test on the spec
    is the only check of generated content. *)
Theorem empty_spec_is_fatal (env : Env) (sp feature_name ctx : string)
    (w : World) (simple : list SimpleMsg) (plan_text spec_text : string) :
  let base := sanitize_filename feature_name in
  let history_str := format_history_for_prompt simple in
  let r := final_synthesis env sp feature_name ctx w in
  simple_history sp (chat_history w) = Ok simple ->
  generate_content env (generated w)
    (SYNTHESIZE_PLAN_PROMPT_format history_str ctx) = text_reply plan_text ->
  generate_content env (S (generated w))
    (SYNTHESIZE_SPEC_PROMPT_format history_str ctx) = text_reply spec_text ->
  writable env w (base +:+ ".plan.md") plan_text ->
  (is_empty (strip spec_text) = true ->
     r.1 = Exited 1%Z /\
     exit_status r.1 = 1%Z /\
     last (console r.2) =
       Some (nl +:+ "[bold red]Error:[/bold red] The model did not generate any content for the spec file.") /\
     files r.2 !! (base +:+ ".spec.md") = files w !! (base +:+ ".spec.md") /\
     files r.2 !! AGENT_INSTRUCTIONS_FILENAME
       = files w !! AGENT_INSTRUCTIONS_FILENAME) /\
  (is_empty (strip spec_text) = false ->
   writable env w (base +:+ ".spec.md") spec_text ->
   (files w !! AGENT_INSTRUCTIONS_FILENAME = None ->
    writable env w AGENT_INSTRUCTIONS_FILENAME AGENT_INSTRUCTIONS_CONTENT) ->
     r.1 = Ret tt /\
     exit_status r.1 = 0%Z /\
     files r.2 !! (base +:+ ".plan.md") = Some (File plan_text) /\
     files r.2 !! (base +:+ ".spec.md") = Some (File spec_text)).
Proof.
  intros base history_str r Hh Hp Hs Hd. subst r. split.
  - intros Hb.
    rewrite (final_synthesis_empty_spec env sp feature_name ctx w simple
               plan_text spec_text Hh Hp Hs Hd Hb).
    simpl_world. repeat split.
    + now rewrite last_app.
    + apply lookup_insert_ne, plan_spec_ne.
    + apply lookup_insert_ne, sanitized_path_ne.
  - intros Hb Hd' Ha.
    rewrite (final_synthesis_success env sp feature_name ctx w simple
               plan_text spec_text Hh Hp Hs Hd Hb Hd' Ha).
    simpl_world. repeat split.
    + destruct (files w !! AGENT_INSTRUCTIONS_FILENAME);
        rewrite ?(lookup_insert_ne _ AGENT_INSTRUCTIONS_FILENAME)
          by (apply not_eq_sym, sanitized_path_ne);
        (rewrite lookup_insert_ne by apply not_eq_sym, plan_spec_ne);
        apply lookup_insert_eq.
    + destruct (files w !! AGENT_INSTRUCTIONS_FILENAME);
        rewrite ?(lookup_insert_ne _ AGENT_INSTRUCTIONS_FILENAME)
          by (apply not_eq_sym, sanitized_path_ne);
        apply lookup_insert_eq.
Qed.

Lemma test_simple_history_ok (fs : gmap string Node) :
  simple_history (SYSTEM_PROMPT_format "{}") (chat_history (test_session fs))
    = Ok test_simple_history.
Proof. vm_compute. reflexivity. Qed.

Lemma empty_spec_is_fatal_witness :
  let r := final_synthesis (test_env "   ") (SYSTEM_PROMPT_format "{}")
             "test_feature_name" "{}" (test_session old_files) in
  is_empty (strip "   ") = true /\
  r.1 = Exited 1%Z /\
  last (console r.2) =
    Some (nl +:+ "[bold red]Error:[/bold red] The model did not generate any content for the spec file.") /\
  files r.2 !! "test_feature_name.spec.md" = Some (File "old spec").
Proof.
  intros r.
  destruct (empty_spec_is_fatal (test_env "   ") (SYSTEM_PROMPT_format "{}")
              "test_feature_name" "{}" (test_session old_files)
              test_simple_history "# Test Plan" "   "
              (test_simple_history_ok old_files) eq_refl eq_refl
              ltac:(writable_now)) as [H _].
  destruct (H eq_refl) as (H1 & _ & H3 & H4 & _).
  split; [reflexivity | split; [exact H1 | split; [exact H3 |]]].
  etransitivity; [exact H4 | vm_compute; reflexivity].
Defined.

(** C3. When both documents are generated and the files can be written, the
    writer puts the plan text in [<base>.plan.md] and the spec text in
    [<base>.spec.md] whatever those files held before ([base] being the
    sanitized feature name), then looks at [AGENT_INSTRUCTIONS.md]: an
    existing entry is left as it is and reported by the line "Found:
    ./AGENT_INSTRUCTIONS.md (already exists, skipping)", a missing one
    receives the static document and is reported by "Created:
    ./AGENT_INSTRUCTIONS.md (Executor instructions)".  No other path changes,
    and the run ends normally. *)
Theorem artifact_writer_files (env : Env) (sp feature_name ctx : string)
    (w : World) (simple : list SimpleMsg) (plan_text spec_text : string) :
  let base := sanitize_filename feature_name in
  let history_str := format_history_for_prompt simple in
  let r := final_synthesis env sp feature_name ctx w in
  simple_history sp (chat_history w) = Ok simple ->
  generate_content env (generated w)
    (SYNTHESIZE_PLAN_PROMPT_format history_str ctx) = text_reply plan_text ->
  generate_content env (S (generated w))
    (SYNTHESIZE_SPEC_PROMPT_format history_str ctx) = text_reply spec_text ->
  is_empty (strip spec_text) = false ->
  writable env w (base +:+ ".plan.md") plan_text ->
  writable env w (base +:+ ".spec.md") spec_text ->
  (files w !! AGENT_INSTRUCTIONS_FILENAME = None ->
   writable env w AGENT_INSTRUCTIONS_FILENAME AGENT_INSTRUCTIONS_CONTENT) ->
  r.1 = Ret tt /\
  files r.2 !! (base +:+ ".plan.md") = Some (File plan_text) /\
  files r.2 !! (base +:+ ".spec.md") = Some (File spec_text) /\
  files r.2 !! "AGENT_INSTRUCTIONS.md" =
    match files w !! "AGENT_INSTRUCTIONS.md" with
    | Some old => Some old
    | None => Some (File AGENT_INSTRUCTIONS_CONTENT)
    end /\
  console r.2 = console w ++
    [ nl +:+ "[bold]Generating artifacts...[/bold]";
      "✅ Created: ./" +:+ base +:+ ".plan.md";
      "✅ Created: ./" +:+ base +:+ ".spec.md";
      match files w !! "AGENT_INSTRUCTIONS.md" with
      | Some _ => "ℹ️ Found:   ./AGENT_INSTRUCTIONS.md (already exists, skipping)"
      | None => "✅ Created: ./AGENT_INSTRUCTIONS.md (Executor instructions)"
      end;
      nl +:+ "[bold green]All files generated successfully![/bold green]";
      "Your artifacts are ready for an execution agent." ] /\
  forall path : string,
    path <> base +:+ ".plan.md" -> path <> base +:+ ".spec.md" ->
    path <> "AGENT_INSTRUCTIONS.md" ->
    files r.2 !! path = files w !! path.
Proof.
  intros base history_str r Hh Hp Hs Hb Hd Hd' Ha. subst r.
  rewrite (final_synthesis_success env sp feature_name ctx w simple
             plan_text spec_text Hh Hp Hs Hd Hb Hd' Ha).
  simpl_world.
  pose proof (sanitized_path_ne feature_name ".plan.md") as Hpa.
  pose proof (sanitized_path_ne feature_name ".spec.md") as Hsa.
  pose proof (plan_spec_ne base) as Hps.
  fold base in Hpa, Hsa.
  change "AGENT_INSTRUCTIONS.md" with AGENT_INSTRUCTIONS_FILENAME.
  destruct (files w !! AGENT_INSTRUCTIONS_FILENAME) as [old|] eqn:E;
    repeat split; try (intros path H1 H2 H3);
    repeat first
      [ rewrite lookup_insert_eq
      | rewrite lookup_insert_ne
          by first [assumption | apply not_eq_sym; assumption] ];
    first [reflexivity | assumption].
Qed.

Lemma artifact_writer_files_witness :
  let r := final_synthesis (test_env "# Test Spec") (SYSTEM_PROMPT_format "{}")
             "test_feature_name" "{}" (test_session old_files) in
  is_empty (strip "# Test Spec") = false /\
  r.1 = Ret tt /\
  files r.2 !! "test_feature_name.plan.md" = Some (File "# Test Plan") /\
  files r.2 !! "test_feature_name.spec.md" = Some (File "# Test Spec") /\
  files r.2 !! "AGENT_INSTRUCTIONS.md" = Some (File "kept as it is") /\
  last (removelast (removelast (console r.2))) =
    Some "ℹ️ Found:   ./AGENT_INSTRUCTIONS.md (already exists, skipping)".
Proof.
  intros r.
  destruct (artifact_writer_files (test_env "# Test Spec")
              (SYSTEM_PROMPT_format "{}") "test_feature_name" "{}"
              (test_session old_files) test_simple_history
              "# Test Plan" "# Test Spec"
              (test_simple_history_ok old_files) eq_refl eq_refl eq_refl
              ltac:(writable_now) ltac:(writable_now)
              ltac:(intros E; vm_compute in E; discriminate E))
    as (H1 & H2 & H3 & H4 & H5 & _).
  split; [reflexivity |].
  split; [exact H1 |]. split; [exact H2 |]. split; [exact H3 |].
  split; [etransitivity; [exact H4 | vm_compute; reflexivity] |].
  fold r in H5. rewrite H5. vm_compute. reflexivity.
Defined.

(** C10. When the run exits with status 1 because the spec text is empty or
    whitespace-only, the plan has already been written: the disk differs from
    what it was by [<base>.plan.md], which holds the plan text, and the last
    line printed is "Error: The model did not generate any content for the
    spec file." *)
Theorem empty_spec_leaves_plan (env : Env) (sp feature_name ctx : string)
    (w : World) (simple : list SimpleMsg) (plan_text spec_text : string) :
  let base := sanitize_filename feature_name in
  let history_str := format_history_for_prompt simple in
  let r := final_synthesis env sp feature_name ctx w in
  simple_history sp (chat_history w) = Ok simple ->
  generate_content env (generated w)
    (SYNTHESIZE_PLAN_PROMPT_format history_str ctx) = text_reply plan_text ->
  generate_content env (S (generated w))
    (SYNTHESIZE_SPEC_PROMPT_format history_str ctx) = text_reply spec_text ->
  writable env w (base +:+ ".plan.md") plan_text ->
  is_empty (strip spec_text) = true ->
  exit_status r.1 = 1%Z /\
  last (console r.2) =
    Some (nl +:+ "[bold red]Error:[/bold red] The model did not generate any content for the spec file.") /\
  files r.2 = <[base +:+ ".plan.md" := File plan_text]> (files w) /\
  files r.2 !! (base +:+ ".plan.md") = Some (File plan_text).
Proof.
  intros base history_str r Hh Hp Hs Hd Hb. subst r.
  rewrite (final_synthesis_empty_spec env sp feature_name ctx w simple
             plan_text spec_text Hh Hp Hs Hd Hb).
  simpl_world. repeat split.
  - now rewrite last_app.
  - apply lookup_insert_eq.
Qed.

Lemma empty_spec_leaves_plan_witness :
  let r := final_synthesis (test_env "") (SYSTEM_PROMPT_format "{}")
             "test_feature_name" "{}" (test_session no_files) in
  is_empty (strip "") = true /\
  exit_status r.1 = 1%Z /\
  files r.2 !! "test_feature_name.plan.md" = Some (File "# Test Plan").
Proof.
  intros r.
  destruct (empty_spec_leaves_plan (test_env "") (SYSTEM_PROMPT_format "{}")
              "test_feature_name" "{}" (test_session no_files)
              test_simple_history "# Test Plan" ""
              (test_simple_history_ok no_files) eq_refl eq_refl
              ltac:(writable_now) eq_refl)
    as (H1 & _ & _ & H4).
  split; [reflexivity | split; [exact H1 | exact H4]].
Defined.

(** ** Relations every step of the program respects *)

Section Invariance.

Context (env : Env) (R : World -> World -> Prop) (allowed : string -> Prop).

Hypothesis R_refl : forall w, R w w.
Hypothesis R_trans : forall a b c, R a b -> R b c -> R a c.
Hypothesis R_console : forall w more, R w (set_console (console w ++ more) w).
Hypothesis R_requests : forall w more, R w (set_requests (requests w ++ more) w).
Hypothesis R_chat : forall w h, R w (set_chat_history h w).
Hypothesis R_file :
  forall w path node, allowed path -> R w (set_files (<[path := node]> (files w)) w).

Lemma respects_ret {A} (a : A) : respects R (ret a).
Proof. intros w. apply R_refl. Qed.

Lemma respects_raise {A} (e : exn) : respects R (@raise A e).
Proof. intros w. apply R_refl. Qed.

Lemma respects_sys_exit {A} (n : Z) : respects R (@sys_exit A n).
Proof. intros w. apply R_refl. Qed.

Lemma respects_of_result {A} (r : result A) : respects R (of_result r).
Proof. destruct r; [apply respects_ret | apply respects_raise]. Qed.

Lemma respects_bind {A B} (m : M A) (k : A -> M B) :
  respects R m -> (forall a, respects R (k a)) -> respects R (bind m k).
Proof.
  intros Hm Hk w. unfold bind. specialize (Hm w).
  destruct (m w) as [[a|e|n] w']; [| exact Hm | exact Hm].
  eapply R_trans; [exact Hm | apply Hk].
Qed.

Lemma respects_try_except {A} c (m : M A) (h : exn -> M A) :
  respects R m -> (forall e, respects R (h e)) -> respects R (try_except c m h).
Proof.
  intros Hm Hh w. unfold try_except. specialize (Hm w).
  destruct (m w) as [[a|e|n] w']; [exact Hm | | exact Hm].
  destruct (c e); [| exact Hm].
  eapply R_trans; [exact Hm | apply Hh].
Qed.

Lemma respects_get_chat_history : respects R get_chat_history.
Proof. intros w. apply R_refl. Qed.

Lemma respects_path_exists (path : string) : respects R (path_exists path).
Proof. intros w. apply R_refl. Qed.

Lemma respects_read_file (path : string) : respects R (read_file path).
Proof.
  intros w. unfold read_file.
  destruct (files w !! path) as [[c|]|]; apply R_refl.
Qed.

Lemma respects_start_chat (h : list Content) : respects R (start_chat h).
Proof. intros w. apply R_chat. Qed.

Lemma respects_model_generate_content (prompt : string) :
  respects R (model_generate_content env prompt).
Proof.
  intros w. unfold model_generate_content.
  destruct (generate_content env (generated w) prompt); apply R_requests.
Qed.

Lemma respects_chat_send_message (message : string) :
  respects R (chat_send_message env message).
Proof.
  intros w. unfold chat_send_message.
  destruct (send_message env (chat_history w) message); [| apply R_requests].
  eapply R_trans; [apply R_requests | apply R_chat].
Qed.

Lemma respects_open_w (path : string) :
  allowed path -> respects R (open_w env path).
Proof.
  intros Ha w. unfold open_w.
  destruct (files w !! path) as [[c|]|], (open_error env path) as [msg|];
    first [apply R_refl | now apply R_file].
Qed.

Lemma respects_f_write (path s : string) :
  allowed path -> respects R (f_write env path s).
Proof.
  intros Ha w. unfold f_write.
  destruct (files w !! path) as [[c|]|],
    (write_error env path s) as [[msg kept]|];
    first [apply R_refl | now apply R_file].
Qed.

Lemma respects_print (s : string) : respects R (print s).
Proof. intros w. apply R_console. Qed.

Ltac respects_step :=
  first
    [ apply respects_bind; [| intros ?]
    | apply respects_try_except; [| intros ?]
    | apply respects_print
    | apply respects_ret
    | apply respects_raise
    | apply respects_sys_exit
    | apply respects_of_result
    | apply respects_get_chat_history
    | apply respects_path_exists
    | apply respects_read_file
    | apply respects_start_chat
    | apply respects_model_generate_content
    | apply respects_chat_send_message
    | apply respects_open_w; assumption
    | apply respects_f_write; assumption
    | match goal with
      | |- respects _ (if ?b then _ else _) => destruct b
      end ].

Lemma respects_generate_feature_name (initial_idea : string) :
  respects R (generate_feature_name env initial_idea).
Proof. unfold generate_feature_name. cbv zeta. repeat respects_step. Qed.

Lemma respects_name_feature (initial_idea : string) :
  respects R (name_feature env initial_idea).
Proof.
  unfold name_feature.
  apply respects_try_except; [| intros e; repeat respects_step].
  apply respects_bind; [apply respects_generate_feature_name |].
  intros name. repeat respects_step.
Qed.

Lemma respects_load_api_key : respects R (load_api_key env).
Proof. unfold load_api_key. repeat respects_step. Qed.

Lemma respects_get_initial_idea : respects R (get_initial_idea env).
Proof. unfold get_initial_idea. cbv zeta. repeat respects_step. Qed.

Lemma respects_load_context : respects R (load_context env).
Proof. unfold load_context. cbv zeta. repeat respects_step. Qed.

Lemma respects_set_up_chat (initial_idea context_json : string) :
  respects R (set_up_chat env initial_idea context_json).
Proof. unfold set_up_chat. cbv zeta. repeat respects_step. Qed.

Lemma respects_chat_loop (script : list Input) :
  respects R (chat_loop env script).
Proof.
  induction script as [|[s|] rest IH]; cbn [chat_loop];
    [apply respects_raise | | apply respects_raise].
  cbv zeta. repeat respects_step; exact IH.
Qed.

Lemma respects_interactive_chat_loop (script : list Input) :
  respects R (interactive_chat_loop env script).
Proof.
  unfold interactive_chat_loop.
  apply respects_try_except; [apply respects_chat_loop |].
  intros e. repeat respects_step.
Qed.

Lemma respects_generate_plan_md (history_str context_json base : string) :
  allowed (base +:+ ".plan.md") ->
  respects R (generate_plan_md env history_str context_json base).
Proof. intros Ha. unfold generate_plan_md. cbv zeta. repeat respects_step. Qed.

Lemma respects_generate_spec_md (history_str context_json base : string) :
  allowed (base +:+ ".spec.md") ->
  respects R (generate_spec_md env history_str context_json base).
Proof. intros Ha. unfold generate_spec_md. cbv zeta. repeat respects_step. Qed.

Lemma respects_generate_agent_instructions :
  allowed AGENT_INSTRUCTIONS_FILENAME ->
  respects R (generate_agent_instructions env).
Proof. intros Ha. unfold generate_agent_instructions. repeat respects_step. Qed.

Section Outputs.

Context (feature_name : string).
Hypothesis plan_allowed : allowed (sanitize_filename feature_name +:+ ".plan.md").
Hypothesis spec_allowed : allowed (sanitize_filename feature_name +:+ ".spec.md").
Hypothesis instructions_allowed : allowed AGENT_INSTRUCTIONS_FILENAME.

Lemma respects_final_synthesis (system_prompt context_json : string) :
  respects R (final_synthesis env system_prompt feature_name context_json).
Proof.
  unfold final_synthesis.
  apply respects_try_except; [| intros e; repeat respects_step].
  apply respects_bind; [apply respects_get_chat_history | intros history].
  apply respects_bind; [apply respects_of_result | intros simple].
  cbv zeta.
  apply respects_bind; [apply respects_print | intros _].
  apply respects_bind; [now apply respects_generate_plan_md | intros _].
  apply respects_bind; [now apply respects_generate_spec_md | intros _].
  apply respects_bind; [now apply respects_generate_agent_instructions |].
  intros _. repeat respects_step.
Qed.

Lemma respects_plan_feature (initial_idea : string) :
  respects R (plan_feature env initial_idea feature_name).
Proof.
  unfold plan_feature.
  apply respects_bind; [apply respects_load_context | intros c].
  cbv zeta.
  apply respects_bind; [apply respects_print | intros _].
  apply respects_bind; [apply respects_set_up_chat | intros system_prompt].
  apply respects_bind; [apply respects_interactive_chat_loop | intros _].
  apply respects_final_synthesis.
Qed.

End Outputs.

End Invariance.

(** *** The three relations of the statements *)

Lemma same_files_but_refl (paths : list string) (w : World) :
  same_files_but paths w w.
Proof. intros path _. reflexivity. Qed.

Lemma same_files_but_trans (paths : list string) (a b c : World) :
  same_files_but paths a b -> same_files_but paths b c ->
  same_files_but paths a c.
Proof. intros H1 H2 path Hp. now rewrite H2, H1. Qed.

Lemma same_files_but_write (paths : list string) (w : World) (path : string)
    (node : Node) :
  In path paths ->
  same_files_but paths w (set_files (<[path := node]> (files w)) w).
Proof.
  intros Hin q Hq. simpl_world. apply lookup_insert_ne.
  intros ->. now apply Hq.
Qed.

Lemma same_files_but_nothing (w w' : World) :
  same_files_but [] w w' -> files w' = files w.
Proof. intros H. apply map_eq. intros path. apply H. intros []. Qed.

Lemma continues_refl (w : World) : continues w w.
Proof. split; exists []; now rewrite app_nil_r. Qed.

Lemma continues_trans (a b c : World) :
  continues a b -> continues b c -> continues a c.
Proof.
  intros [[l1 H1] [r1 G1]] [[l2 H2] [r2 G2]]. split.
  - exists (l1 ++ l2). now rewrite H2, H1, app_assoc.
  - exists (r1 ++ r2). now rewrite G2, G1, app_assoc.
Qed.

Lemma only_prints_refl (w : World) : only_prints w w.
Proof. now repeat split. Qed.

Lemma only_prints_trans (a b c : World) :
  only_prints a b -> only_prints b c -> only_prints a c.
Proof.
  intros (H1 & H2 & H3) (G1 & G2 & G3).
  repeat split; [now rewrite G1 | now rewrite G2 | now rewrite G3].
Qed.

(** A run of [plan_feature] changes no file but the plan, the spec and the
    instructions. *)
Lemma plan_feature_writes (env : Env) (initial_idea feature_name : string) :
  respects
    (same_files_but
       [ sanitize_filename feature_name +:+ ".plan.md";
         sanitize_filename feature_name +:+ ".spec.md";
         AGENT_INSTRUCTIONS_FILENAME ])
    (plan_feature env initial_idea feature_name).
Proof.
  set (paths := [ _ ; _ ; _ ]).
  refine (respects_plan_feature env (same_files_but paths)
            (fun path => In path paths) _ _ _ _ _ _ feature_name _ _ _
            initial_idea).
  - apply same_files_but_refl.
  - apply same_files_but_trans.
  - intros w more path _. reflexivity.
  - intros w more path _. reflexivity.
  - intros w h path _. reflexivity.
  - intros w path node. apply same_files_but_write.
  - simpl. tauto.
  - simpl. tauto.
  - simpl. tauto.
Qed.

(** A run of [plan_feature] only adds to the console and to the request
    log. *)
Lemma plan_feature_continues (env : Env) (initial_idea feature_name : string) :
  respects continues (plan_feature env initial_idea feature_name).
Proof.
  refine (respects_plan_feature env continues (fun _ => True)
            _ _ _ _ _ _ feature_name I I I initial_idea).
  - apply continues_refl.
  - apply continues_trans.
  - intros w more. split; [now exists more | exists []; now rewrite app_nil_r].
  - intros w more. split; [exists []; now rewrite app_nil_r | now exists more].
  - intros w h. split; exists []; now rewrite app_nil_r.
  - intros w path node _. split; exists []; now rewrite app_nil_r.
Qed.

(** Loading the context touches nothing but the console. *)
Lemma load_context_only_prints (env : Env) :
  respects only_prints (load_context env).
Proof.
  refine (respects_load_context env only_prints _ _ _).
  - apply only_prints_refl.
  - apply only_prints_trans.
  - intros w more. now repeat split.
Qed.

(** Naming the feature writes no file and leaves the chat alone. *)
Lemma name_feature_keeps (env : Env) (initial_idea : string) :
  respects (fun w w' => files w' = files w /\ chat_history w' = chat_history w)
    (name_feature env initial_idea).
Proof.
  refine (respects_name_feature env _ _ _ _ _ initial_idea).
  - now intros w.
  - intros a b c [H1 H2] [G1 G2]. split; [now rewrite G1 | now rewrite G2].
  - now intros w more.
  - now intros w more.
Qed.

(** ** The start of [main] *)

(** C8. Whenever the credential variable is absent, [main] prints the
    credential-missing message and exits with status 1; the request log is
    what it was, so no call to the generative API is made, and no file is
    touched. *)
Theorem missing_credential_exits (env : Env) (w : World) :
  api_key env = None ->
  let r := main env w in
  r.1 = Exited 1%Z /\
  exit_status r.1 = 1%Z /\
  console r.2 = console w ++
    [ welcome; credential_missing;
      "Please create a `.env` file and add your API key.";
      "Example: `GOOGLE_API_KEY=" +:+ dq +:+ "your_api_key_here" +:+ dq +:+ "`" ] /\
  requests r.2 = requests w /\
  files r.2 = files w.
Proof.
  intros Hkey r. subst r.
  unfold main, load_api_key. rewrite Hkey.
  unfold bind, print, sys_exit, truthy. simpl_world.
  repeat split. now rewrite <- !app_assoc.
Qed.

Lemma missing_credential_exits_witness :
  let r := main no_key_env (initial_world no_files) in
  api_key no_key_env = None /\
  exit_status r.1 = 1%Z /\
  requests r.2 = [].
Proof.
  intros r.
  destruct (missing_credential_exits no_key_env (initial_world no_files) eq_refl)
    as (_ & H2 & _ & H4 & _).
  split; [reflexivity | split; [exact H2 | exact H4]].
Defined.

Lemma generate_feature_name_raised (env : Env) (initial_idea : string)
    (w w1 : World) (e : exn) :
  generate_feature_name env initial_idea w = (Raised e, w1) ->
  w1 = set_requests (requests w ++ [Generate (feature_name_prompt initial_idea)]) w.
Proof.
  unfold generate_feature_name, bind, model_generate_content. cbv zeta.
  destruct (generate_content env (generated w) (feature_name_prompt initial_idea))
    as [[[t|e']]|e']; cbn; now intros [= _ <-].
Qed.

(** C9. When the feature-name call raises an exception, [main] does not
    stop there: it prints "Error generating feature name:" followed by the
    text of the exception and carries on with the steps that follow, the raw
    initial idea standing for the feature name; the only files the run can
    then change are those named after the sanitized idea, and the
    instructions file. *)
Theorem feature_name_failure_falls_back (env : Env) (w w1 : World) (e : exn) :
  let idea := strip (join " " (argv env)) in
  let r := main env w in
  let shown :=
    [ "[bold cyan]Welcome to the Feature Planner CLI[/bold cyan]";
      "[bold red]Error generating feature name:[/bold red] " +:+ exn_str e;
      "[bold]Planning feature:[/bold] " +:+ idea +:+ nl ] in
  truthy (api_key env) = true ->
  is_empty idea = false ->
  generate_feature_name env idea (set_console (console w ++ [welcome]) w)
    = (Raised e, w1) ->
  is_Exception e = true ->
  r = plan_feature env idea idea
        {| console := console w ++ shown;
           files := files w;
           requests := requests w ++ [Generate (feature_name_prompt idea)];
           chat_history := chat_history w |} /\
  (exists more, console r.2 = console w ++ shown ++ more) /\
  (forall path,
     files r.2 !! path <> files w !! path ->
     In path [ sanitize_filename idea +:+ ".plan.md";
               sanitize_filename idea +:+ ".spec.md";
               AGENT_INSTRUCTIONS_FILENAME ]).
Proof.
  intros idea r shown Hkey Hidea Hname He.
  assert (Hshown : shown = [welcome; feature_name_error e; planning_notice idea])
    by reflexivity.
  clearbody shown. subst shown.
  assert (Hr : r = plan_feature env idea idea
             {| console := console w ++
                  [welcome; feature_name_error e; planning_notice idea];
                files := files w;
                requests := requests w ++ [Generate (feature_name_prompt idea)];
                chat_history := chat_history w |}).
  { subst r. unfold main.
    erewrite bind_ret by reflexivity.
    erewrite bind_ret by (unfold load_api_key; rewrite Hkey; reflexivity).
    erewrite bind_ret
      by (unfold get_initial_idea; cbv zeta; fold idea; rewrite Hidea;
          reflexivity).
    pose proof (generate_feature_name_raised _ _ _ _ _ Hname) as ->.
    erewrite bind_ret; cycle 1.
    { unfold name_feature. erewrite try_caught; [| | exact He].
      - reflexivity.
      - erewrite bind_raised by exact Hname. reflexivity. }
    unfold bind at 1, print. simpl_world.
    now rewrite <- !app_assoc. }
  split; [exact Hr |]. split.
  - rewrite Hr.
    destruct (plan_feature_continues env idea idea
                {| console := console w ++
                     [welcome; feature_name_error e; planning_notice idea];
                   files := files w;
                   requests := requests w ++ [Generate (feature_name_prompt idea)];
                   chat_history := chat_history w |}) as [[more Hm] _].
    exists more. rewrite Hm. simpl_world. now rewrite <- app_assoc.
  - intros path Hpath.
    destruct (decide (In path [ sanitize_filename idea +:+ ".plan.md";
                                sanitize_filename idea +:+ ".spec.md";
                                AGENT_INSTRUCTIONS_FILENAME ])) as [Hin | Hout];
      [exact Hin | exfalso].
    apply Hpath. rewrite Hr.
    now rewrite (plan_feature_writes env idea idea _ path Hout).
Qed.

Lemma feature_name_failure_falls_back_witness :
  let r := main unnamed_env (initial_world no_files) in
  truthy (api_key unnamed_env) = true /\
  is_Exception (Error "503 Service Unavailable") = true /\
  (exists more,
     console r.2 =
       [ "[bold cyan]Welcome to the Feature Planner CLI[/bold cyan]";
         "[bold red]Error generating feature name:[/bold red] 503 Service Unavailable";
         "[bold]Planning feature:[/bold] Dark Mode!" +:+ nl ] ++ more) /\
  (forall path,
     files r.2 !! path <> None ->
     In path ["dark_mode.plan.md"; "dark_mode.spec.md"; "AGENT_INSTRUCTIONS.md"]).
Proof.
  intros r.
  destruct (feature_name_failure_falls_back unnamed_env
              (initial_world no_files)
              (set_requests [Generate (feature_name_prompt "Dark Mode!")]
                 (set_console [welcome] (initial_world no_files)))
              (Error "503 Service Unavailable")
              eq_refl eq_refl eq_refl eq_refl) as (_ & H2 & H3).
  split; [reflexivity | split; [reflexivity | split]].
  - exact H2.
  - intros path Hp. apply (H3 path). exact Hp.
Defined.

(** ** The context loader *)

Lemma get_object (members : list (string * JSON)) (key : string)
    (dflt : JSON) :
  get (JObj members) key dflt = Ok (default dflt (assoc key members)).
Proof. reflexivity. Qed.





(** ** The conversation session *)

Section Session.

Context (env : Env).

Lemma set_up_chat_ok (initial_idea context_json reply : string) (w : World) :
  let system_prompt := SYSTEM_PROMPT_format context_json in
  send_message env (seed_history system_prompt) (first_prompt initial_idea)
    = Ok reply ->
  set_up_chat env initial_idea context_json w =
    (Ret system_prompt,
     {| console := console w ++ [agent_says reply];
        files := files w;
        requests := requests w ++
          [Send (seed_history system_prompt) (first_prompt initial_idea)];
        chat_history := seed_history system_prompt ++
          [user_turn (first_prompt initial_idea); model_turn reply] |}).
Proof.
  intros system_prompt Hreply.
  unfold set_up_chat, try_except, bind, start_chat, chat_send_message.
  cbv zeta. simpl_world. fold system_prompt. rewrite Hreply. reflexivity.
Qed.

Lemma set_up_chat_raised (initial_idea context_json : string) (e : exn)
    (w : World) :
  let system_prompt := SYSTEM_PROMPT_format context_json in
  send_message env (seed_history system_prompt) (first_prompt initial_idea)
    = Raise e ->
  set_up_chat env initial_idea context_json w =
    (if is_Exception e then Exited 1%Z else Raised e,
     {| console :=
          if is_Exception e then console w ++ [chat_error e] else console w;
        files := files w;
        requests := requests w ++
          [Send (seed_history system_prompt) (first_prompt initial_idea)];
        chat_history := seed_history system_prompt |}).
Proof.
  intros system_prompt Hreply.
  unfold set_up_chat, try_except, bind, start_chat, chat_send_message.
  cbv zeta. simpl_world. fold system_prompt. rewrite Hreply.
  destruct (is_Exception e); reflexivity.
Qed.

(** One turn of the loop, by cases on the line read. *)
Lemma interactive_chat_loop_line (s : string) (rest : list Input) (w : World) :
  interactive_chat_loop env (Line s :: rest) w =
    if is_termination (strip s) then
      (Ret tt, set_console (console w ++ [synthesize_notice]) w)
    else if is_empty (strip s) then interactive_chat_loop env rest w
    else
      let sent := set_requests
                    (requests w ++ [Send (chat_history w) (strip s)]) w in
      match send_message env (chat_history w) (strip s) with
      | Ok reply =>
          interactive_chat_loop env rest
            {| console := console w ++ [agent_says reply];
               files := files w;
               requests := requests sent;
               chat_history := chat_history w ++
                 [user_turn (strip s); model_turn reply] |}
      | Raise e =>
          if is_interrupt e then
            (Ret tt, set_console (console sent ++ [session_ended_notice]) sent)
          else (Raised e, sent)
      end.
Proof.
  unfold interactive_chat_loop, try_except. cbn [chat_loop]. cbv zeta.
  destruct (is_termination (strip s)); [reflexivity |].
  destruct (is_empty (strip s)); [reflexivity |].
  unfold bind at 1, chat_send_message.
  destruct (send_message env (chat_history w) (strip s)) as [reply|e];
    [reflexivity |].
  destruct (is_interrupt e); reflexivity.
Qed.

Lemma interactive_chat_loop_stop (script : list Input) (w : World) :
  match script with [] | Interrupt :: _ => True | Line _ :: _ => False end ->
  interactive_chat_loop env script w =
    (Ret tt, set_console (console w ++ [session_ended_notice]) w).
Proof. destruct script as [|[s|] rest]; intros H; [| destruct H |]; reflexivity. Qed.

End Session.

Lemma continues_console (w : World) (more : list string) :
  continues w (set_console (console w ++ more) w).
Proof. split; [now exists more | exists []; now rewrite app_nil_r]. Qed.

Lemma continues_requests (w : World) (more : list Request) :
  continues w (set_requests (requests w ++ more) w).
Proof. split; [exists []; now rewrite app_nil_r | now exists more]. Qed.

Lemma continues_chat (w : World) (h : list Content) :
  continues w (set_chat_history h w).
Proof. split; exists []; now rewrite app_nil_r. Qed.

Lemma continues_file (w : World) (path : string) (node : Node) :
  True -> continues w (set_files (<[path := node]> (files w)) w).
Proof. intros _. split; exists []; now rewrite app_nil_r. Qed.

(** The loop and the synthesis after it only add to the console and to the
    request log. *)
Lemma session_tail_continues (env : Env) (script : list Input)
    (system_prompt feature_name context_json : string) :
  respects continues
    (bind (interactive_chat_loop env script)
       (fun _ => final_synthesis env system_prompt feature_name context_json)).
Proof.
  refine (respects_bind continues continues_trans _ _ _ _).
  - exact (respects_interactive_chat_loop env continues continues_refl
             continues_trans continues_console continues_requests
             continues_chat script).
  - intros _.
    exact (respects_final_synthesis env continues (fun _ => True)
             continues_refl continues_trans continues_console
             continues_requests continues_file feature_name I I I
             system_prompt context_json).
Qed.

(** C5. Initialization starts the chat on exactly two turns, the system
    prompt in the user role and the fixed acknowledgment in the model role,
    and sends one message, the first prompt, which carries the caller's idea;
    on a reply the history holds the two seed turns, that user turn and the
    reply, and the reply is shown.  The system prompt is the fixed
    instructions followed by the context between two rules, so it carries
    the context it is given.  Within [plan_feature] that context is the
    loader's payload, and this message is the first request made. *)
Lemma SYSTEM_PROMPT_head_parts :
  exists before,
    SYSTEM_PROMPT_head =
      before +:+ "**Context Injection (if provided):**" +:+ nl +:+
      "This is a " +:+ dq +:+ "brownfield" +:+ dq +:+
      " project. The user has provided context. You MUST adhere" +:+ nl +:+
      "to these constraints." +:+ nl +:+ "---" +:+ nl.
Proof.
  exists (String.substring 0 (String.length SYSTEM_PROMPT_head - 142)
            SYSTEM_PROMPT_head).
  vm_compute. reflexivity.
Qed.

Theorem chat_is_primed (env : Env) (initial_idea context_json : string)
    (w : World) :
  let system_prompt := SYSTEM_PROMPT_format context_json in
  let seed :=
    [ user_turn system_prompt;
      model_turn "OK, I am the 'Product Architect' agent. Let's get started. What is the high-level goal or problem you're trying to solve with this feature?" ] in
  let r := set_up_chat env initial_idea context_json w in
  requests r.2 = requests w ++ [Send seed (first_prompt initial_idea)] /\
  first_prompt initial_idea =
    "My initial idea is: " +:+ dq +:+ initial_idea +:+ dq +:+
    ". Let's start from there." /\
  contains initial_idea (first_prompt initial_idea) /\
  contains context_json system_prompt /\
  (exists instructions,
     contains "**Context Injection (if provided):**" instructions /\
     forall context : string,
       SYSTEM_PROMPT_format context =
         instructions +:+ "---" +:+ nl +:+ context +:+ nl +:+ "---" +:+ nl) /\
  (forall reply,
     send_message env seed (first_prompt initial_idea) = Ok reply ->
     r.1 = Ret system_prompt /\
     chat_history r.2 =
       seed ++ [user_turn (first_prompt initial_idea); model_turn reply] /\
     console r.2 = console w ++ ["**Agent:** " +:+ reply]) /\
  (forall feature_name loaded context_msg w1,
     load_context env w = (Ret (loaded, context_msg), w1) ->
     exists more,
       requests (plan_feature env initial_idea feature_name w).2 =
         requests w ++
         [Send [user_turn (SYSTEM_PROMPT_format loaded);
                model_turn seed_acknowledgment]
               (first_prompt initial_idea)] ++ more).
Proof.
  intros system_prompt seed r.
  change seed with (seed_history system_prompt) in *. clear seed.
  split; [| split; [reflexivity |]]; [| split; [| split; [| split; [| split]]]].
  - subst r.
    set (seed := seed_history system_prompt).
    destruct (send_message env seed (first_prompt initial_idea)) as [reply|e]
      eqn:Hreply.
    + now rewrite (set_up_chat_ok env initial_idea context_json reply w Hreply).
    + now rewrite (set_up_chat_raised env initial_idea context_json e w Hreply).
  - unfold first_prompt. rewrite <- !append_assoc. rewrite !append_assoc.
    do 2 apply contains_append_l. apply contains_here.
  - subst system_prompt. unfold SYSTEM_PROMPT_format.
    apply contains_append_l, contains_here.
  - destruct SYSTEM_PROMPT_head_parts as (before & Hhead).
    exists (before +:+ "**Context Injection (if provided):**" +:+ nl +:+
            "This is a " +:+ dq +:+ "brownfield" +:+ dq +:+
            " project. The user has provided context. You MUST adhere" +:+ nl +:+
            "to these constraints." +:+ nl).
    split; [apply contains_append_l, contains_here |].
    intros context. unfold SYSTEM_PROMPT_format. rewrite Hhead.
    change SYSTEM_PROMPT_tail with (nl +:+ "---" +:+ nl).
    now rewrite !append_assoc.
  - intros reply Hreply. subst r.
    now rewrite (set_up_chat_ok env initial_idea context_json reply w Hreply).
  - intros feature_name loaded context_msg w1 Hload.
    destruct (load_context_only_prints env w) as (_ & Hreq & _).
    rewrite Hload in Hreq. cbn [snd] in Hreq.
    unfold plan_feature.
    erewrite bind_ret by exact Hload. cbv zeta. cbn [fst snd].
    erewrite bind_ret by reflexivity.
    set (w2 := set_console _ w1).
    destruct (send_message env
                [user_turn (SYSTEM_PROMPT_format loaded);
                 model_turn seed_acknowledgment]
                (first_prompt initial_idea)) as [reply|e] eqn:Hreply.
    + erewrite bind_ret
        by exact (set_up_chat_ok env initial_idea loaded reply w2 Hreply).
      match goal with
      | |- context [bind (interactive_chat_loop env ?s) ?k ?w0] =>
          destruct (session_tail_continues env s (SYSTEM_PROMPT_format loaded)
                      feature_name loaded w0) as [_ [more Hmore]]
      end.
      exists more. rewrite Hmore. subst w2. simpl_world.
      now rewrite Hreq, <- app_assoc.
    + pose proof (set_up_chat_raised env initial_idea loaded e w2 Hreply) as Hs.
      exists []. destruct (is_Exception e).
      * erewrite bind_exited by exact Hs. subst w2. simpl_world.
        now rewrite Hreq.
      * erewrite bind_raised by exact Hs. subst w2. simpl_world.
        now rewrite Hreq.
Qed.

Lemma chat_is_primed_witness :
  let r := set_up_chat (test_env "# Test Spec") "test feature" "{}"
             (initial_world no_files) in
  send_message (test_env "# Test Spec")
    [user_turn (SYSTEM_PROMPT_format "{}"); model_turn seed_acknowledgment]
    (first_prompt "test feature") = Ok "Agent response" /\
  length (chat_history r.2) = 4%nat /\
  console r.2 = ["**Agent:** Agent response"] /\
  exists more,
    requests (plan_feature (test_env "# Test Spec") "test feature"
                "test_feature_name" (initial_world no_files)).2 =
      [Send [user_turn (SYSTEM_PROMPT_format "{}");
             model_turn seed_acknowledgment]
            (first_prompt "test feature")] ++ more.
Proof.
  intros r.
  destruct (chat_is_primed (test_env "# Test Spec") "test feature" "{}"
              (initial_world no_files))
    as (_ & _ & _ & _ & _ & Hreply & Hplan).
  destruct (Hreply "Agent response" eq_refl) as (_ & Hh & Hc).
  split; [reflexivity |].
  split; [subst r; now rewrite Hh |].
  split; [exact Hc |].
  exact (Hplan "test_feature_name" "{}" "Starting a new greenfield plan."
           (initial_world no_files) eq_refl).
Defined.

(** *** The input loop *)

Lemma same_but_console_refl {A} (a : outcome A * World) : same_but_console a a.
Proof. now repeat split. Qed.

Lemma same_but_console_print {A} (o : outcome A) (w : World)
    (shown shown' : list string) :
  same_but_console (o, set_console shown w) (o, set_console shown' w).
Proof. now repeat split. Qed.

(** However the script goes on after a common beginning, a termination
    keyword, an interrupt and the end of input leave the loop in the same
    way. *)
Lemma loop_ends_alike (env : Env) (before : list Input) (s : string)
    (rest rest' : list Input) (w : World) :
  is_termination (strip s) = true ->
  same_but_console (interactive_chat_loop env (before ++ Line s :: rest) w)
                   (interactive_chat_loop env (before ++ Interrupt :: rest') w) /\
  same_but_console (interactive_chat_loop env (before ++ Line s :: rest) w)
                   (interactive_chat_loop env before w).
Proof.
  intros Hs. revert w.
  induction before as [|[x|] before IH]; intros w; cbn [app].
  - rewrite interactive_chat_loop_line, Hs.
    rewrite !interactive_chat_loop_stop by exact I.
    split; apply same_but_console_print.
  - rewrite !(interactive_chat_loop_line env x).
    destruct (is_termination (strip x));
      [split; apply same_but_console_refl |].
    destruct (is_empty (strip x)); [apply IH |].
    cbv zeta.
    destruct (send_message env (chat_history w) (strip x)) as [reply|e];
      [apply IH | split; apply same_but_console_refl].
  - rewrite !interactive_chat_loop_stop by exact I.
    split; apply same_but_console_refl.
Qed.

Lemma blank_is_not_a_keyword (s : string) :
  is_empty s = true -> is_termination s = false.
Proof. destruct s; [reflexivity | discriminate]. Qed.

(** C4. In the input loop: (1) a line whose trimmed, lower-cased form is
    one of done, save, finish, exit, quit, q ends the loop normally with no
    request made and the history as it was, so the word is not sent as a
    turn; (2) a line that is empty once trimmed is skipped, as if it had not
    been typed; (3) an interrupt and the end of input end the loop normally
    too; (4) after any common beginning of the session, keyword, interrupt and
    end of input leave the same outcome, files, request log and history, the
    notice printed being the only difference; (5) the spec's examples are
    keywords. *)
Theorem input_loop_ends (env : Env) (w : World) :
  (forall s rest,
     is_termination (strip s) = true ->
     interactive_chat_loop env (Line s :: rest) w
       = (Ret tt, set_console (console w ++ [synthesize_notice]) w)) /\
  (forall s rest,
     is_empty (strip s) = true ->
     interactive_chat_loop env (Line s :: rest) w
       = interactive_chat_loop env rest w) /\
  (forall rest,
     interactive_chat_loop env (Interrupt :: rest) w
       = (Ret tt, set_console (console w ++ [session_ended_notice]) w)) /\
  interactive_chat_loop env [] w
    = (Ret tt, set_console (console w ++ [session_ended_notice]) w) /\
  (forall before s rest rest',
     is_termination (strip s) = true ->
     same_but_console (interactive_chat_loop env (before ++ Line s :: rest) w)
                      (interactive_chat_loop env (before ++ Interrupt :: rest') w) /\
     same_but_console (interactive_chat_loop env (before ++ Line s :: rest) w)
                      (interactive_chat_loop env before w)) /\
  Forall (fun s => is_termination (strip s) = true)
    ["done"; "EXIT"; "Quit"; " q "; "save"; "Finish"; "exit"; "quit"; "Q"].
Proof.
  split; [| split; [| split; [| split; [| split]]]].
  - intros s rest Hs. now rewrite interactive_chat_loop_line, Hs.
  - intros s rest Hs.
    now rewrite interactive_chat_loop_line, blank_is_not_a_keyword, Hs.
  - intros rest. now apply interactive_chat_loop_stop.
  - now apply interactive_chat_loop_stop.
  - intros before s rest rest' Hs. now apply loop_ends_alike.
  - repeat constructor.
Qed.

Lemma input_loop_ends_witness :
  let env := talk_env [Line "hello"; Line "   "; Line " Quit "; Line "ignored"] in
  let w := test_session no_files in
  is_termination (strip " Quit ") = true /\
  is_empty (strip "   ") = true /\
  interactive_chat_loop env [Line " Quit "; Line "ignored"] w
    = (Ret tt, set_console [synthesize_notice] w) /\
  interactive_chat_loop env [Line "   "; Interrupt] w
    = interactive_chat_loop env [Interrupt] w /\
  same_but_console
    (interactive_chat_loop env (stdin env) w)
    (interactive_chat_loop env [Line "hello"; Line "   "] w).
Proof.
  intros env w.
  destruct (input_loop_ends env w) as (Hkey & Hblank & _ & _ & Halike & _).
  split; [reflexivity | split; [reflexivity |]].
  split; [exact (Hkey " Quit " [Line "ignored"] eq_refl) |].
  split; [exact (Hblank "   " [Interrupt] eq_refl) |].
  exact (proj2 (Halike [Line "hello"; Line "   "] " Quit " [Line "ignored"] []
                  eq_refl)).
Defined.

(** ** The history handed to the synthesis stage *)

Lemma system_prompt_first_char (context_json : string) :
  first_char (SYSTEM_PROMPT_format context_json) = Some (ascii_of_N 10).
Proof.
  assert (H : exists rest, SYSTEM_PROMPT_head = String (ascii_of_N 10) rest)
    by (vm_compute; eexists; reflexivity).
  destruct H as [rest H]. unfold SYSTEM_PROMPT_format.
  now rewrite H, append_cons.
Qed.

Lemma first_char_ne (a b : string) : first_char a <> first_char b -> a <> b.
Proof. intros H ->. now apply H. Qed.

Lemma acknowledgment_is_not_the_prompt (context_json : string) :
  seed_acknowledgment <> SYSTEM_PROMPT_format context_json.
Proof.
  apply first_char_ne. rewrite system_prompt_first_char. discriminate.
Qed.

Lemma first_prompt_is_not_the_prompt (initial_idea context_json : string) :
  first_prompt initial_idea <> SYSTEM_PROMPT_format context_json.
Proof.
  apply first_char_ne. rewrite system_prompt_first_char. discriminate.
Qed.

(** What the user typed, once stripped, starts with no white space, while
    the system prompt starts with a newline. *)
Lemma stripped_is_not_the_prompt (s context_json : string) :
  strip s <> SYSTEM_PROMPT_format context_json.
Proof.
  apply first_char_ne. rewrite system_prompt_first_char.
  intros H. apply first_char_strip_by in H. discriminate H.
Qed.

(** The history of a session: the two seed turns, then real turns. *)
Lemma loop_keeps_session (env : Env) (context_json : string)
    (script : list Input) (w : World) (turns : list Content) :
  let system_prompt := SYSTEM_PROMPT_format context_json in
  chat_history w = seed_history system_prompt ++ turns ->
  Forall (real_turn system_prompt) turns ->
  exists turns',
    chat_history (interactive_chat_loop env script w).2
      = seed_history system_prompt ++ turns' /\
    Forall (real_turn system_prompt) turns'.
Proof.
  intros system_prompt. revert w turns.
  induction script as [|[s|] rest IH]; intros w turns Hh Hreal.
  - rewrite interactive_chat_loop_stop by exact I. now exists turns.
  - rewrite interactive_chat_loop_line.
    destruct (is_termination (strip s)); [now exists turns |].
    destruct (is_empty (strip s)) eqn:Hempty; [now apply (IH w turns) |].
    cbv zeta.
    destruct (send_message env (chat_history w) (strip s)) as [reply|e].
    + apply (IH _ (turns ++ [user_turn (strip s); model_turn reply])).
      * simpl_world. now rewrite Hh, <- app_assoc.
      * apply Forall_app. split; [exact Hreal |].
        repeat constructor.
        -- exists (strip s). right. split; [reflexivity |].
           apply stripped_is_not_the_prompt.
        -- exists reply. now left.
    + destruct (is_interrupt e); now exists turns.
  - rewrite interactive_chat_loop_stop by exact I. now exists turns.
Qed.

Lemma session_history (env : Env) (initial_idea context_json : string)
    (script : list Input) (w : World) :
  let system_prompt := SYSTEM_PROMPT_format context_json in
  let r := bind (set_up_chat env initial_idea context_json)
             (fun _ => interactive_chat_loop env script) w in
  exists turns,
    chat_history r.2 = seed_history system_prompt ++ turns /\
    Forall (real_turn system_prompt) turns.
Proof.
  intros system_prompt r. subst r.
  destruct (send_message env (seed_history system_prompt)
              (first_prompt initial_idea)) as [reply|e] eqn:Hreply.
  - erewrite bind_ret
      by exact (set_up_chat_ok env initial_idea context_json reply w Hreply).
    eapply loop_keeps_session; [reflexivity |].
    repeat constructor.
    + exists (first_prompt initial_idea). right. split; [reflexivity |].
      apply first_prompt_is_not_the_prompt.
    + exists reply. now left.
  - pose proof (set_up_chat_raised env initial_idea context_json e w Hreply)
      as Hs.
    exists []. split; [| constructor].
    destruct (is_Exception e);
      [erewrite bind_exited by exact Hs | erewrite bind_raised by exact Hs];
      simpl_world; now rewrite app_nil_r.
Qed.

Lemma real_turn_cases (system_prompt : string) (c : Content) :
  real_turn system_prompt c ->
  parts c = [turn_text c] /\
  (role c = "user" /\ turn_text c <> system_prompt \/ role c = "model").
Proof.
  intros [t [-> | [-> Hne]]]; split; try reflexivity; [now right | now left].
Qed.

(** On real turns the loop of step 6 is a filter: it drops the turns that
    repeat the system prompt and keeps the others in order. *)
Lemma simple_history_real (system_prompt : string) (turns : list Content) :
  Forall (real_turn system_prompt) turns ->
  simple_history system_prompt turns
    = Ok (map simple_of
            (List.filter (fun c => negb (echoes system_prompt c)) turns)).
Proof.
  induction 1 as [|c turns Hc _ IH]; [reflexivity |].
  apply real_turn_cases in Hc as [Hparts _].
  cbn [simple_history List.filter]. rewrite Hparts, IH. unfold echoes.
  destruct (decide (turn_text c = system_prompt)) as [Heq | Hne].
  - now rewrite bool_decide_eq_true_2.
  - now rewrite bool_decide_eq_false_2.
Qed.

Lemma simple_history_session (context_json : string) (turns : list Content) :
  let system_prompt := SYSTEM_PROMPT_format context_json in
  Forall (real_turn system_prompt) turns ->
  simple_history system_prompt (seed_history system_prompt ++ turns)
    = Ok (map simple_of
            (model_turn seed_acknowledgment ::
             List.filter (fun c => negb (echoes system_prompt c)) turns)).
Proof.
  intros system_prompt Hreal.
  unfold seed_history. cbn [app simple_history parts].
  rewrite (simple_history_real system_prompt turns Hreal).
  destruct (decide (system_prompt = system_prompt)) as [_ | Hne];
    [| now destruct Hne].
  destruct (decide (seed_acknowledgment = system_prompt)) as [Heq | _];
    [| reflexivity].
  now apply acknowledgment_is_not_the_prompt in Heq.
Qed.

Lemma render_line_turn (system_prompt : string) (c : Content) :
  c = model_turn seed_acknowledgment \/ real_turn system_prompt c ->
  render_line (simple_of c) = history_line c.
Proof.
  intros [-> | [t [-> | [-> _]]]]; reflexivity.
Qed.

Lemma format_history_turns (system_prompt : string) (kept : list Content) :
  Forall (fun c => c = model_turn seed_acknowledgment \/
                   real_turn system_prompt c) kept ->
  format_history_for_prompt (map simple_of kept)
    = join nl (map history_line kept).
Proof.
  intros H. unfold format_history_for_prompt. f_equal.
  rewrite map_map. apply map_ext_Forall.
  eapply Forall_impl; [exact H |].
  intros c Hc. exact (render_line_turn system_prompt c Hc).
Qed.

(** What a computation leaves continues what its first step left. *)
Lemma bind_continues {A B} (m : M A) (k : A -> M B) (w w1 : World)
    (o : outcome A) :
  m w = (o, w1) -> (forall a, respects continues (k a)) ->
  continues w1 (bind m k w).2.
Proof.
  intros Hm Hk. unfold bind. rewrite Hm.
  destruct o as [a|e|n]; [apply Hk | apply continues_refl..].
Qed.

(** The first request of the synthesis is the plan prompt, built on the
    rendering of the filtered history. *)
Lemma final_synthesis_plan_request (env : Env)
    (system_prompt feature_name context_json : string) (w : World)
    (simple : list SimpleMsg) :
  simple_history system_prompt (chat_history w) = Ok simple ->
  exists more,
    requests (final_synthesis env system_prompt feature_name context_json w).2
      = requests w ++
        [Generate (SYNTHESIZE_PLAN_PROMPT_format
                     (format_history_for_prompt simple) context_json)] ++ more.
Proof.
  intros Hs.
  set (prompt := SYNTHESIZE_PLAN_PROMPT_format _ _).
  set (w0 := set_console
               (console w ++ [nl +:+ "[bold]Generating artifacts...[/bold]"]) w).
  destruct (model_generate_content env prompt w0) as [o w1] eqn:Hg.
  assert (Hw1 : requests w1 = requests w ++ [Generate prompt]).
  { revert Hg. unfold model_generate_content.
    destruct (generate_content env (generated w0) prompt);
      now intros [= _ <-]. }
  assert (Hafter : forall (k : Response -> M unit) (f r : M unit)
                          (h : exn -> M unit),
            (forall a, respects continues (k a)) ->
            (forall e, respects continues (h e)) ->
            respects continues f -> respects continues r ->
            continues w1
              (try_except is_Exception
                 (bind (bind (model_generate_content env prompt) k)
                    (fun _ => bind f (fun _ => r))) h w0).2).
  { intros k f r h Hk Hh Hf Hr. unfold try_except.
    destruct (bind (bind (model_generate_content env prompt) k)
                (fun _ => bind f (fun _ => r)) w0) as [o2 w2] eqn:Hb.
    assert (H12 : continues w1 w2).
    { destruct (bind (model_generate_content env prompt) k w0)
        as [o3 w3] eqn:Hb3.
      apply continues_trans with w3.
      - replace w3 with (bind (model_generate_content env prompt) k w0).2
          by now rewrite Hb3.
        now apply (bind_continues _ _ w0 w1 o).
      - replace w2 with
          (bind (bind (model_generate_content env prompt) k)
             (fun _ => bind f (fun _ => r)) w0).2 by now rewrite Hb.
        apply (bind_continues _ _ w0 w3 o3 Hb3). intros _.
        exact (respects_bind continues continues_trans _ _ Hf (fun _ => Hr)). }
    destruct o2 as [a|e|n]; [exact H12 | | exact H12].
    destruct (is_Exception e); [| exact H12].
    eapply continues_trans; [exact H12 | apply Hh]. }
  assert (Hstart :
    final_synthesis env system_prompt feature_name context_json w =
    try_except is_Exception
      (bind (bind (model_generate_content env prompt)
               (fun plan_response =>
                  let plan_md_file :=
                    sanitize_filename feature_name +:+ ".plan.md" in
                  bind (open_w env plan_md_file) (fun _ =>
                  bind (of_result (text plan_response)) (fun plan_text =>
                  bind (f_write env plan_md_file plan_text) (fun _ =>
                  print ("✅ Created: ./" +:+ plan_md_file))))))
         (fun _ =>
            bind (generate_spec_md env (format_history_for_prompt simple)
                    context_json (sanitize_filename feature_name))
              (fun _ =>
                 bind (generate_agent_instructions env) (fun _ =>
                 bind (print (nl +:+ "[bold green]All files generated successfully![/bold green]"))
                   (fun _ =>
                      print "Your artifacts are ready for an execution agent.")))))
      (fun e => bind (print (synthesis_error e)) (fun _ => sys_exit 1)) w0).
  { unfold final_synthesis, try_except.
    erewrite bind_ret by reflexivity. rewrite Hs.
    erewrite bind_ret by reflexivity.
    erewrite bind_ret by reflexivity.
    reflexivity. }
  rewrite Hstart.
  match goal with
  | |- context [try_except is_Exception
                  (bind (bind _ ?k) (fun _ => bind ?f (fun _ => ?r))) ?h w0] =>
      destruct (Hafter k f r h) as [_ [more Hmore]]
  end.
  - intros plan_response. cbv zeta.
    refine (respects_bind continues continues_trans _ _ _ _);
      [ exact (respects_open_w env continues (fun _ => True) continues_refl
                 continues_file _ I) | intros _ ].
    refine (respects_bind continues continues_trans _ _ _ _);
      [ exact (respects_of_result continues continues_refl _) | intros t ].
    refine (respects_bind continues continues_trans _ _ _ _);
      [ exact (respects_f_write env continues (fun _ => True) continues_refl
                 continues_file _ _ I) | intros _ ].
    exact (respects_print continues continues_console _).
  - intros e.
    refine (respects_bind continues continues_trans _ _ _ _);
      [ exact (respects_print continues continues_console _) | intros _ ].
    exact (respects_sys_exit continues continues_refl _).
  - exact (respects_generate_spec_md env continues (fun _ => True)
             continues_refl continues_trans continues_console
             continues_requests continues_file _ _ _ I).
  - refine (respects_bind continues continues_trans _ _ _ _);
      [ exact (respects_generate_agent_instructions env continues
                 (fun _ => True) continues_refl continues_trans
                 continues_console continues_file I) | intros _ ].
    refine (respects_bind continues continues_trans _ _ _ _);
      [ exact (respects_print continues continues_console _) | intros _ ].
    exact (respects_print continues continues_console _).
  - exists more. now rewrite Hmore, Hw1, <- app_assoc.
Qed.

(** C1 (amended). For the history a session accumulates, step 6 drops the
    seed system-prompt turn and every model reply whose text is the system
    prompt word for word, and nothing else: the seed acknowledgment, every
    user turn and every other model reply are kept, in order, and rendered as
    the newline-joined lines [[User]: text] and [[Model]: text]. *)
Theorem history_transformation (env : Env) (initial_idea context_json : string)
    (script : list Input) (w : World) :
  let system_prompt := SYSTEM_PROMPT_format context_json in
  let r := bind (set_up_chat env initial_idea context_json)
             (fun _ => interactive_chat_loop env script) w in
  exists turns,
    chat_history r.2 =
      user_turn system_prompt :: model_turn seed_acknowledgment :: turns /\
    Forall (real_turn system_prompt) turns /\
    let kept :=
      model_turn seed_acknowledgment ::
      List.filter (fun c => negb (echoes system_prompt c)) turns in
    simple_history system_prompt (chat_history r.2) = Ok (map simple_of kept) /\
    format_history_for_prompt (map simple_of kept)
      = join nl (map history_line kept) /\
    (forall t, In (user_turn t) turns -> In (user_turn t) kept) /\
    (forall t, In (model_turn t) turns -> t <> system_prompt ->
               In (model_turn t) kept) /\
    (forall feature_name, exists more,
       requests (final_synthesis env system_prompt feature_name
                   context_json r.2).2
         = requests r.2 ++
           [Generate (SYNTHESIZE_PLAN_PROMPT_format
                        (join nl (map history_line kept)) context_json)]
           ++ more).
Proof.
  intros system_prompt r.
  destruct (session_history env initial_idea context_json script w)
    as (turns & Hh & Hreal).
  fold system_prompt in Hh, Hreal. fold r in Hh.
  exists turns. split; [exact Hh | split; [exact Hreal |]].
  intros kept.
  assert (Hsimple : simple_history system_prompt (chat_history r.2)
                    = Ok (map simple_of kept))
    by (rewrite Hh; now apply simple_history_session).
  assert (Hformat : format_history_for_prompt (map simple_of kept)
                    = join nl (map history_line kept)).
  { apply (format_history_turns system_prompt). subst kept.
    constructor; [now left |].
    apply List.Forall_forall. intros c Hc.
    apply List.filter_In in Hc as [Hc _]. right.
    now apply (proj1 (List.Forall_forall _ _) Hreal). }
  split; [exact Hsimple | split; [exact Hformat | split; [| split]]];
    cycle 2.
  - intros feature_name. rewrite <- Hformat.
    now apply final_synthesis_plan_request.
  - intros t Hin. right. apply List.filter_In. split; [exact Hin |].
    apply (proj1 (List.Forall_forall _ _) Hreal) in Hin.
    destruct Hin as [t' [Heq | [Heq Hne]]]; [discriminate Heq |].
    injection Heq as ->. unfold echoes. now rewrite bool_decide_eq_false_2.
  - intros t Hin Hne. right. apply List.filter_In. split; [exact Hin |].
    unfold echoes. now rewrite bool_decide_eq_false_2.
Qed.

(** C1 as the spec words it, that only the seed system-prompt turn is
    dropped and every real turn is kept, fails when the model repeats the
    system prompt: here the history holds four turns and the reply, a real
    turn, is dropped with the seed. *)
Lemma echoed_prompt_is_dropped :
  let system_prompt := SYSTEM_PROMPT_format "{}" in
  let r := bind (set_up_chat echo_env "test feature" "{}")
             (fun _ => interactive_chat_loop echo_env (stdin echo_env))
             (initial_world no_files) in
  r.1 = Ret tt /\
  chat_history r.2 =
    [ user_turn system_prompt; model_turn seed_acknowledgment;
      user_turn (first_prompt "test feature"); model_turn system_prompt ] /\
  simple_history system_prompt (chat_history r.2) =
    Ok (map simple_of
          [ model_turn seed_acknowledgment;
            user_turn (first_prompt "test feature") ]) /\
  simple_history system_prompt (chat_history r.2) <>
    Ok (map simple_of (tl (chat_history r.2))).
Proof.
  intros system_prompt r.
  assert (Hr : r.1 = Ret tt /\
               chat_history r.2 =
                 [ user_turn system_prompt; model_turn seed_acknowledgment;
                   user_turn (first_prompt "test feature");
                   model_turn system_prompt ])
    by (split; reflexivity).
  destruct Hr as [Hr1 Hr2].
  assert (Hs : simple_history system_prompt (chat_history r.2) =
               Ok (map simple_of
                     [ model_turn seed_acknowledgment;
                       user_turn (first_prompt "test feature") ])).
  { rewrite Hr2. vm_compute. reflexivity. }
  split; [exact Hr1 | split; [exact Hr2 | split; [exact Hs |]]].
  rewrite Hs, Hr2. cbn [tl map]. intros [= H].
Qed.

(** ** Whole runs *)

(** The run of the repository's tests: a name, one keyword at the prompt, a
    plan and a spec; three files are written and the status is 0. *)
Example main_replays_the_tests :
  let r := main (test_env "# Test Spec") (initial_world no_files) in
  exit_status r.1 = 0%Z /\
  files r.2 !! "test_feature_name.plan.md" = Some (File "# Test Plan") /\
  files r.2 !! "test_feature_name.spec.md" = Some (File "# Test Spec") /\
  files r.2 !! "AGENT_INSTRUCTIONS.md" = Some (File AGENT_INSTRUCTIONS_CONTENT) /\
  size (files r.2) = 3%nat /\
  length (requests r.2) = 4%nat /\
  take 2 (requests r.2) = requests (test_session no_files) /\
  chat_history r.2 = chat_history (test_session no_files).
Proof. vm_compute. repeat split; reflexivity. Qed.

(** With the model that repeats its instructions, the plan prompt [main]
    sends renders two turns of the four in the history. *)
Example main_with_an_echoing_model :
  let r := main echo_env (initial_world no_files) in
  length (chat_history r.2) = 4%nat /\
  requests r.2 !! 2%nat =
    Some (Generate
            (SYNTHESIZE_PLAN_PROMPT_format
               (join nl [ "[Model]: " +:+ seed_acknowledgment;
                          "[User]: " +:+ first_prompt "test feature" ])
               "{}")).
Proof. vm_compute. split; reflexivity. Qed.

(** * Further properties *)

(** ** More on strings and [sanitize_filename] *)

Lemma safe_char_facts (c : ascii) :
  safe_char c = true ->
  lower_char c = c /\ isspace c = false /\ space_or_hyphen c = false.
Proof.
  destruct c as [[] [] [] [] [] [] [] []]; intros H;
    first [discriminate H | repeat split; reflexivity].
Qed.

Lemma clean_char_facts (c : ascii) :
  clean_char c = true ->
  lower_char c = c /\ safe_char (separator_to_underscore c) = true.
Proof.
  destruct c as [[] [] [] [] [] [] [] []]; intros H;
    first [discriminate H | split; reflexivity].
Qed.

Lemma alnum_char_facts (c : ascii) :
  alnum_char c = true ->
  isspace c = false /\ is_underscore c = false /\
  separator_to_underscore c = c /\ clean_char c = true.
Proof.
  destruct c as [[] [] [] [] [] [] [] []]; intros H;
    first [discriminate H | repeat split; reflexivity].
Qed.

Lemma smap_id (f : ascii -> ascii) (p : ascii -> bool) (s : string) :
  (forall c, p c = true -> f c = c) -> sforall p s = true -> smap f s = s.
Proof.
  intros Hf. induction s as [|c s IH]; simpl; [reflexivity |].
  intros H. apply andb_prop in H as [Hc Hs]. now rewrite (Hf c Hc), IH.
Qed.

Lemma sfilter_id (p : ascii -> bool) (s : string) :
  sforall p s = true -> sfilter p s = s.
Proof.
  induction s as [|c s IH]; simpl; [reflexivity |].
  intros H. apply andb_prop in H as [Hc Hs]. now rewrite Hc, IH.
Qed.

Lemma sforall_smap (f : ascii -> ascii) (p q : ascii -> bool) (s : string) :
  (forall c, p c = true -> q (f c) = true) ->
  sforall p s = true -> sforall q (smap f s) = true.
Proof.
  intros Hf. induction s as [|c s IH]; simpl; [reflexivity |].
  intros H. apply andb_prop in H as [Hc Hs]. now rewrite (Hf c Hc), IH.
Qed.

Lemma sforall_first (p : ascii -> bool) (s : string) (c : ascii) :
  sforall p s = true -> first_char s = Some c -> p c = true.
Proof.
  destruct s as [|x s]; simpl; [discriminate |].
  intros H [= <-]. now apply andb_prop in H as [Hc _].
Qed.

Lemma sforall_last (p : ascii -> bool) (s : string) (c : ascii) :
  sforall p s = true -> last_char s = Some c -> p c = true.
Proof.
  induction s as [|x s IH]; [discriminate |].
  intros H. cbn [sforall] in H. apply andb_prop in H as [Hx Hs].
  destruct s as [|y s]; [now intros [= <-] | exact (IH Hs)].
Qed.

Lemma first_char_smap (f : ascii -> ascii) (s : string) :
  first_char (smap f s) = f <$> first_char s.
Proof. destruct s; reflexivity. Qed.

Lemma last_char_smap (f : ascii -> ascii) (s : string) :
  last_char (smap f s) = f <$> last_char s.
Proof.
  induction s as [|x s IH]; [reflexivity |].
  destruct s as [|y s]; [reflexivity | exact IH].
Qed.

Lemma lstrip_by_id (p : ascii -> bool) (s : string) :
  (forall c, first_char s = Some c -> p c = false) -> lstrip_by p s = s.
Proof.
  destruct s as [|x s]; [reflexivity |].
  intros H. simpl. now rewrite (H x eq_refl).
Qed.

Lemma rstrip_by_id (p : ascii -> bool) (s : string) :
  (forall c, last_char s = Some c -> p c = false) -> rstrip_by p s = s.
Proof.
  induction s as [|x s IH]; [reflexivity |].
  intros H. cbn [rstrip_by].
  destruct s as [|y s].
  - simpl. now rewrite (H x eq_refl).
  - rewrite IH by exact H. reflexivity.
Qed.

(** Stripping changes nothing when neither end is in the class. *)
Lemma strip_by_id (p : ascii -> bool) (s : string) :
  (forall c, first_char s = Some c -> p c = false) ->
  (forall c, last_char s = Some c -> p c = false) ->
  strip_by p s = s.
Proof.
  intros Hf Hl. unfold strip_by. rewrite rstrip_by_id by exact Hl.
  now apply lstrip_by_id.
Qed.

Lemma strip_by_idempotent (p : ascii -> bool) (s : string) :
  strip_by p (strip_by p s) = strip_by p s.
Proof.
  apply strip_by_id; intros c H.
  - now apply first_char_strip_by in H.
  - now apply last_char_strip_by in H.
Qed.

Lemma is_empty_first_char (s : string) :
  is_empty s = false -> exists c, first_char s = Some c.
Proof. destruct s as [|c s]; [discriminate | now exists c]. Qed.

(** A text that is already a safe name is left as it is. *)
Lemma sanitize_filename_fixed (t : string) :
  sforall safe_char t = true ->
  is_empty t = false ->
  (forall c, first_char t = Some c -> is_underscore c = false) ->
  (forall c, last_char t = Some c -> is_underscore c = false) ->
  sanitize_filename t = t.
Proof.
  intros Hsafe Hne Hfirst Hlast. unfold sanitize_filename, lower, strip.
  rewrite (smap_id lower_char safe_char t)
    by (first [exact Hsafe | intros c Hc; now apply safe_char_facts]).
  rewrite (strip_by_id isspace t); cycle 1.
  { intros c Hc. now apply safe_char_facts, (sforall_first _ t). }
  { intros c Hc. now apply safe_char_facts, (sforall_last _ t). }
  rewrite (smap_id _ safe_char t); [| | exact Hsafe]; cycle 1.
  { intros c Hc. apply safe_char_facts in Hc as (_ & _ & ->). reflexivity. }
  rewrite (sfilter_id safe_char t Hsafe).
  rewrite (strip_by_id is_underscore t Hfirst Hlast).
  now rewrite Hne.
Qed.

(** X1. [sanitize_filename] is idempotent: a name that came out of it goes
    through it unchanged, so a derived base name can be sanitized again
    safely. *)
Theorem sanitize_filename_idempotent (text : string) :
  sanitize_filename (sanitize_filename text) = sanitize_filename text.
Proof.
  apply sanitize_filename_fixed.
  - apply sanitize_filename_safe.
  - apply sanitize_filename_nonempty.
  - apply sanitize_filename_first.
  - apply sanitize_filename_last.
Qed.

Lemma length_smap (f : ascii -> ascii) (s : string) :
  String.length (smap f s) = String.length s.
Proof. induction s as [|c s IH]; simpl; [reflexivity | now rewrite IH]. Qed.

(** X2. On a text made of lower-case letters, digits, underscores, white
    space and hyphens that starts and ends with a letter or digit,
    [sanitize_filename] only replaces each white-space character and each
    hyphen by one underscore: the length is kept, and a run of separators
    becomes a run of underscores of the same length (runs are not
    collapsed). *)
Theorem sanitize_filename_keeps_runs (text : string) :
  sforall clean_char text = true ->
  starts_with alnum_char text = true ->
  ends_with alnum_char text = true ->
  sanitize_filename text = smap separator_to_underscore text /\
  String.length (sanitize_filename text) = String.length text.
Proof.
  intros Hclean Hstart Hend.
  assert (Hresult : sanitize_filename text = smap separator_to_underscore text).
  { unfold sanitize_filename, lower, strip.
    rewrite (smap_id lower_char clean_char text)
      by (first [exact Hclean | intros c Hc; now apply clean_char_facts]).
    rewrite (strip_by_id isspace text); cycle 1.
    { intros c Hc. unfold starts_with in Hstart. rewrite Hc in Hstart.
      now apply alnum_char_facts. }
    { intros c Hc. unfold ends_with in Hend. rewrite Hc in Hend.
      now apply alnum_char_facts. }
    change (fun c : ascii => if space_or_hyphen c then underscore else c)
      with separator_to_underscore.
    rewrite sfilter_id; cycle 1.
    { apply (sforall_smap _ clean_char); [| exact Hclean].
      intros c Hc. now apply clean_char_facts. }
    rewrite strip_by_id; cycle 1.
    { intros c. rewrite first_char_smap. unfold starts_with in Hstart.
      destruct (first_char text) as [x|]; [| discriminate].
      apply alnum_char_facts in Hstart as (_ & Hu & Hsep & _).
      cbn. intros [= <-]. now rewrite Hsep. }
    { intros c. rewrite last_char_smap. unfold ends_with in Hend.
      destruct (last_char text) as [x|]; [| discriminate].
      apply alnum_char_facts in Hend as (_ & Hu & Hsep & _).
      cbn. intros [= <-]. now rewrite Hsep. }
    unfold starts_with in Hstart.
    destruct text as [|x text]; [discriminate Hstart | reflexivity]. }
  split; [exact Hresult |].
  rewrite Hresult. apply length_smap.
Qed.

Lemma sanitize_filename_keeps_runs_witness :
  sforall clean_char "dark  mode - v2" = true /\
  sanitize_filename "dark  mode - v2" = "dark__mode___v2" /\
  String.length (sanitize_filename "dark  mode - v2") = 15%nat.
Proof.
  destruct (sanitize_filename_keeps_runs "dark  mode - v2"
              eq_refl eq_refl eq_refl) as [H1 H2].
  split; [reflexivity | split; [exact H1 | exact H2]].
Defined.

(** ** More on the start of [main] and on the context loader *)

(** X3. With the credential set, a command line that is empty or holds only
    white space makes [main] print the missing-idea message and exit with
    status 1; no API call is made, no file is touched and no chat is
    started. *)
Theorem missing_idea_exits (env : Env) (w : World) :
  truthy (api_key env) = true ->
  is_empty (strip (join " " (argv env))) = true ->
  let r := main env w in
  r.1 = Exited 1%Z /\
  console r.2 = console w ++
    [ welcome;
      "[bold red]Error:[/bold red] Please provide an initial feature idea.";
      "Example: `plan " +:+ dq +:+ "Build a new settings page" +:+ dq +:+ "`" ] /\
  requests r.2 = requests w /\
  files r.2 = files w /\
  chat_history r.2 = chat_history w.
Proof.
  intros Hkey Hidea r. subst r. unfold main.
  erewrite bind_ret by reflexivity.
  erewrite bind_ret by (unfold load_api_key; rewrite Hkey; reflexivity).
  erewrite bind_exited; cycle 1.
  { unfold get_initial_idea. cbv zeta. rewrite Hidea. reflexivity. }
  simpl_world. repeat split. now rewrite <- !app_assoc.
Qed.

Lemma missing_idea_exits_witness :
  let r := main no_idea_env (initial_world no_files) in
  is_empty (strip (join " " (argv no_idea_env))) = true /\
  r.1 = Exited 1%Z /\
  requests r.2 = [].
Proof.
  intros r.
  destruct (missing_idea_exits no_idea_env (initial_world no_files)
              eq_refl eq_refl) as (H1 & _ & H3 & _).
  split; [reflexivity | split; [exact H1 | exact H3]].
Defined.

Lemma get_misshapen (v bad : JSON) :
  misshapen v = Some bad ->
  get v "product" (JObj []) = Raise (no_get bad) \/
  (exists product,
     get v "product" (JObj []) = Ok product /\
     (get product "name" (JStr "this project") = Raise (no_get bad) \/
      exists product_name engineering,
        get product "name" (JStr "this project") = Ok product_name /\
        get v "engineering" (JObj []) = Ok engineering /\
        get engineering "stack" (JStr "defined") = Raise (no_get bad))).
Proof.
  destruct v as [| | | | | |members]; try (intros [= <-]; now left).
  unfold misshapen. intros H. right.
  rewrite get_object.
  destruct (assoc "product" members) as [product|] eqn:Hp; cbn [default].
  - exists product. split; [reflexivity |].
    destruct product as [| | | | | |inner];
      try (injection H as <-; now left).
    right. rewrite !get_object. eexists _, _.
    split; [reflexivity | split; [reflexivity |]].
    destruct (assoc "engineering" members) as [[| | | | | |inner']|];
      first [discriminate H | now injection H as <-].
  - exists (JObj []). split; [reflexivity |].
    right. rewrite !get_object. eexists _, _.
    split; [reflexivity | split; [reflexivity |]].
    destruct (assoc "engineering" members) as [[| | | | | |inner']|];
      first [discriminate H | now injection H as <-].
Qed.

(** X4. A context file that parses but has the wrong shape is treated like
    one that does not parse: when the top level is not an object, or the
    [product] or [engineering] member is present and not an object (null
    included), the loader prints the attribute error of the offending value
    and returns the empty payload with an empty message; the defaults do not
    apply. *)
Theorem load_context_rejects_misshapen (env : Env) (w : World)
    (content : string) (v bad : JSON) :
  files w !! context_file = Some (File content) ->
  json_load env content = Ok v ->
  misshapen v = Some bad ->
  load_context env w
    = (Ret ("{}", ""),
       set_console (console w ++ [context_error (no_get bad)]) w).
Proof.
  intros Hfile Hload Hbad. unfold load_context.
  erewrite bind_ret
    by (unfold path_exists; rewrite Hfile, bool_decide_eq_true_2 by eauto;
        reflexivity).
  cbv beta iota.
  erewrite try_caught; [reflexivity | | reflexivity].
  erewrite bind_ret by (unfold read_file; rewrite Hfile; reflexivity).
  rewrite Hload. erewrite bind_ret by reflexivity. cbv zeta.
  destruct (get_misshapen v bad Hbad)
    as [H1 | (product & H1 & [H2 | (name & engineering & H2 & H3 & H4)])].
  - rewrite H1. reflexivity.
  - rewrite H1. erewrite bind_ret by reflexivity. rewrite H2. reflexivity.
  - rewrite H1. erewrite bind_ret by reflexivity.
    rewrite H2. erewrite bind_ret by reflexivity.
    rewrite H3. erewrite bind_ret by reflexivity.
    rewrite H4. reflexivity.
Qed.

Lemma load_context_rejects_misshapen_witness :
  misshapen (JArr [JInt 1; JInt 2]) = Some (JArr [JInt 1; JInt 2]) /\
  load_context list_context_env (initial_world list_files)
    = (Ret ("{}", ""),
       set_console
         [ "[bold red]Error:[/bold red] Found 'project.context.json' but couldn't read it: 'list' object has no attribute 'get'" ]
         (initial_world list_files)).
Proof.
  split; [reflexivity |].
  exact (load_context_rejects_misshapen list_context_env
           (initial_world list_files) "[1, 2]" (JArr [JInt 1; JInt 2])
           (JArr [JInt 1; JInt 2]) ltac:(vm_compute; reflexivity)
           eq_refl eq_refl).
Defined.

(** X5. The context loader never stops the program and never writes: it
    returns a payload and a message with the world untouched, or it turns an
    ordinary exception met while reading, parsing or inspecting the file into
    the fallback (empty payload, empty message) after printing one error
    line; only an exception that [except Exception] does not catch goes
    through.  It never calls [sys.exit], makes no API call and changes no
    file. *)
Theorem load_context_never_aborts (env : Env) (w : World) :
  let r := load_context env w in
  (exists payload context_msg, r = (Ret (payload, context_msg), w)) \/
  (exists e, is_Exception e = true /\
             r = (Ret ("{}", ""),
                  set_console (console w ++ [context_error e]) w)) \/
  (exists e, is_Exception e = false /\ r = (Raised e, w)).
Proof.
  intros r. subst r. unfold load_context.
  erewrite bind_ret by reflexivity.
  destruct (bool_decide (is_Some (files w !! context_file)));
    [| left; now eexists _, _].
  match goal with
  | |- context [try_except is_Exception ?body ?h w] =>
      assert (Hbody : (exists x, body w = (Ret x, w)) \/
                      (exists e, body w = (Raised e, w)))
  end.
  { unfold bind, read_file.
    destruct (files w !! context_file) as [[content|]|];
      [| right; now eexists | right; now eexists].
    destruct (json_load env content) as [v|e]; [| right; now eexists].
    cbn [of_result ret]. cbv zeta.
    destruct (get v "product" (JObj [])) as [product|e];
      [| right; now eexists].
    cbn [of_result ret].
    destruct (get product "name" (JStr "this project")) as [name|e];
      [| right; now eexists].
    cbn [of_result ret].
    destruct (get v "engineering" (JObj [])) as [engineering|e];
      [| right; now eexists].
    cbn [of_result ret].
    destruct (get engineering "stack" (JStr "defined")) as [stack|e];
      [| right; now eexists].
    left. now eexists. }
  destruct Hbody as [[[payload context_msg] Hb] | [e Hb]].
  - left. exists payload, context_msg. now apply try_ret.
  - destruct (is_Exception e) eqn:He.
    + right. left. exists e. split; [exact He |].
      erewrite try_caught; [reflexivity | exact Hb | exact He].
    + right. right. exists e. split; [exact He |].
      now apply try_passed.
Qed.

(** X6. Naming the feature makes exactly one API call, the naming prompt,
    which quotes the idea, and touches neither files nor chat.  When the call
    returns text, the name is that text stripped, so it neither starts nor
    ends with white space, and it is shown; the step never calls
    [sys.exit], and no ordinary exception leaves it. *)
Theorem name_feature_run (env : Env) (initial_idea : string) (w : World) :
  let prompt := feature_name_prompt initial_idea in
  let r := name_feature env initial_idea w in
  requests r.2 = requests w ++ [Generate prompt] /\
  files r.2 = files w /\
  chat_history r.2 = chat_history w /\
  contains initial_idea prompt /\
  (forall t,
     generate_content env (generated w) prompt = text_reply t ->
     r.1 = Ret (strip t) /\
     starts_with isspace (strip t) = false /\
     ends_with isspace (strip t) = false /\
     console r.2 = console w ++
       ["[bold]Generated Feature Name:[/bold] " +:+ strip t +:+ nl]) /\
  match r.1 with
  | Ret _ => True
  | Raised e => is_Exception e = false
  | Exited _ => False
  end.
Proof.
  intros prompt r.
  assert (Hstrip : forall t, starts_with isspace (strip t) = false /\
                             ends_with isspace (strip t) = false).
  { intros t. unfold starts_with, ends_with. split.
    - destruct (first_char (strip t)) as [c|] eqn:Hc; [| reflexivity].
      now apply first_char_strip_by in Hc.
    - destruct (last_char (strip t)) as [c|] eqn:Hc; [| reflexivity].
      now apply last_char_strip_by in Hc. }
  assert (Hquote : contains initial_idea prompt).
  { unfold prompt, feature_name_prompt.
    do 5 apply contains_append_l. apply contains_here. }
  subst r. unfold name_feature, try_except, generate_feature_name, bind,
    model_generate_content. cbv zeta. fold prompt.
  destruct (generate_content env (generated w) prompt) as [[[t|e]]|e] eqn:Hg.
  - cbn. do 4 (split; [first [reflexivity | exact Hquote] |]).
    split; [| exact I].
    intros t' [= <-]. repeat split; apply Hstrip.
  - cbn. destruct (is_Exception e) eqn:He; cbn;
      do 4 (split; [first [reflexivity | exact Hquote] |]);
      (split; [intros t' [=] | first [exact I | exact He]]).
  - cbn. destruct (is_Exception e) eqn:He; cbn;
      do 4 (split; [first [reflexivity | exact Hquote] |]);
      (split; [intros t' [=] | first [exact I | exact He]]).
Qed.

Lemma name_feature_run_witness :
  let r := name_feature (test_env "# Test Spec") "test feature"
             (initial_world no_files) in
  generate_content (test_env "# Test Spec") O
    (feature_name_prompt "test feature") = text_reply "test_feature_name" /\
  r.1 = Ret "test_feature_name" /\
  requests r.2 = [Generate (feature_name_prompt "test feature")].
Proof.
  intros r.
  destruct (name_feature_run (test_env "# Test Spec") "test feature"
              (initial_world no_files)) as (H1 & _ & _ & _ & Hreply & _).
  destruct (Hreply "test_feature_name" eq_refl) as (H2 & _).
  split; [reflexivity | split; [exact H2 | exact H1]].
Defined.

(** ** More on the synthesis stage *)

Section SynthesisFailures.

Context (env : Env) (sp feature_name ctx : string) (w : World)
        (simple : list SimpleMsg).

Let base := sanitize_filename feature_name.
Let history_str := format_history_for_prompt simple.
Let plan_prompt := SYNTHESIZE_PLAN_PROMPT_format history_str ctx.
Let spec_prompt := SYNTHESIZE_SPEC_PROMPT_format history_str ctx.
Let started : World :=
  set_console (console w ++ [nl +:+ "[bold]Generating artifacts...[/bold]"]) w.

Hypothesis history_ok : simple_history sp (chat_history w) = Ok simple.

(** The synthesis, once the history is rendered. *)
Lemma final_synthesis_started :
  final_synthesis env sp feature_name ctx w =
    try_except is_Exception
      (bind (generate_plan_md env history_str ctx base) (fun _ =>
       bind (generate_spec_md env history_str ctx base) (fun _ =>
       bind (generate_agent_instructions env) (fun _ =>
       bind (print (nl +:+ "[bold green]All files generated successfully![/bold green]"))
         (fun _ => print "Your artifacts are ready for an execution agent.")))))
      (fun e => bind (print (synthesis_error e)) (fun _ => sys_exit 1))
      started.
Proof.
  unfold final_synthesis, try_except.
  erewrite bind_ret by reflexivity. rewrite history_ok.
  erewrite bind_ret by reflexivity.
  erewrite bind_ret by reflexivity.
  reflexivity.
Qed.

(** An ordinary exception in the plan step ends the synthesis. *)
Lemma final_synthesis_plan_raised (e : exn) (w1 : World) :
  generate_plan_md env history_str ctx base started = (Raised e, w1) ->
  is_Exception e = true ->
  final_synthesis env sp feature_name ctx w =
    (Exited 1%Z, set_console (console w1 ++ [synthesis_error e]) w1).
Proof.
  intros Hplan He. rewrite final_synthesis_started.
  erewrite try_caught; [reflexivity | | exact He].
  now erewrite bind_raised by exact Hplan.
Qed.

(** An ordinary exception in the spec step ends the synthesis. *)
Lemma final_synthesis_spec_raised (e : exn) (w1 w2 : World) :
  generate_plan_md env history_str ctx base started = (Ret tt, w1) ->
  generate_spec_md env history_str ctx base w1 = (Raised e, w2) ->
  is_Exception e = true ->
  final_synthesis env sp feature_name ctx w =
    (Exited 1%Z, set_console (console w2 ++ [synthesis_error e]) w2).
Proof.
  intros Hplan Hspec He. rewrite final_synthesis_started.
  erewrite try_caught; [reflexivity | | exact He].
  erewrite bind_ret by exact Hplan.
  now erewrite bind_raised by exact Hspec.
Qed.

End SynthesisFailures.

Lemma generate_plan_md_raised (env : Env) (h ctx base : string) (w : World)
    (e : exn) :
  generate_content env (generated w) (SYNTHESIZE_PLAN_PROMPT_format h ctx)
    = Raise e ->
  generate_plan_md env h ctx base w =
    (Raised e,
     set_requests
       (requests w ++ [Generate (SYNTHESIZE_PLAN_PROMPT_format h ctx)]) w).
Proof.
  intros Hp. unfold generate_plan_md, bind, model_generate_content.
  now rewrite Hp.
Qed.

Lemma generate_plan_md_directory (env : Env) (h ctx base : string) (w : World)
    (response : Response) :
  generate_content env (generated w) (SYNTHESIZE_PLAN_PROMPT_format h ctx)
    = Ok response ->
  files w !! (base +:+ ".plan.md") = Some Dir ->
  generate_plan_md env h ctx base w =
    (Raised (is_a_directory (base +:+ ".plan.md")),
     set_requests
       (requests w ++ [Generate (SYNTHESIZE_PLAN_PROMPT_format h ctx)]) w).
Proof.
  intros Hp Hd. unfold generate_plan_md, bind, model_generate_content.
  rewrite Hp. unfold open_w. simpl_world. now rewrite Hd.
Qed.

Lemma generate_plan_md_textless (env : Env) (h ctx base : string) (w : World)
    (e : exn) :
  generate_content env (generated w) (SYNTHESIZE_PLAN_PROMPT_format h ctx)
    = Ok {| text := Raise e |} ->
  files w !! (base +:+ ".plan.md") <> Some Dir ->
  open_error env (base +:+ ".plan.md") = None ->
  generate_plan_md env h ctx base w =
    (Raised e,
     {| console := console w;
        files := <[base +:+ ".plan.md" := File ""]> (files w);
        requests := requests w ++
          [Generate (SYNTHESIZE_PLAN_PROMPT_format h ctx)];
        chat_history := chat_history w |}).
Proof.
  intros Hp Hd Ho. unfold generate_plan_md, bind, model_generate_content.
  rewrite Hp. unfold open_w. simpl_world. rewrite Ho.
  destruct (files w !! (base +:+ ".plan.md")) as [[c|]|];
    first [contradiction | reflexivity].
Qed.

Lemma generate_spec_md_raised (env : Env) (h ctx base : string) (w : World)
    (e : exn) :
  generate_content env (generated w) (SYNTHESIZE_SPEC_PROMPT_format h ctx)
    = Raise e \/
  generate_content env (generated w) (SYNTHESIZE_SPEC_PROMPT_format h ctx)
    = Ok {| text := Raise e |} \/
  (exists spec_text,
     generate_content env (generated w) (SYNTHESIZE_SPEC_PROMPT_format h ctx)
       = text_reply spec_text /\
     is_empty (strip spec_text) = false /\
     files w !! (base +:+ ".spec.md") = Some Dir /\
     e = is_a_directory (base +:+ ".spec.md")) \/
  (exists spec_text msg,
     generate_content env (generated w) (SYNTHESIZE_SPEC_PROMPT_format h ctx)
       = text_reply spec_text /\
     is_empty (strip spec_text) = false /\
     files w !! (base +:+ ".spec.md") <> Some Dir /\
     open_error env (base +:+ ".spec.md") = Some msg /\
     e = Error msg) ->
  generate_spec_md env h ctx base w =
    (Raised e,
     set_requests
       (requests w ++ [Generate (SYNTHESIZE_SPEC_PROMPT_format h ctx)]) w).
Proof.
  unfold generate_spec_md, bind, model_generate_content.
  intros [Hs | [Hs | [(spec_text & Hs & Hb & Hd & ->)
                      | (spec_text & msg & Hs & Hb & Hd & Ho & ->)]]];
    rewrite Hs; [reflexivity | reflexivity | |].
  - cbn. rewrite Hb. unfold ret, open_w. simpl_world. now rewrite Hd.
  - cbn. rewrite Hb. unfold ret, open_w. simpl_world. rewrite Ho.
    destruct (files w !! (base +:+ ".spec.md")) as [[c|]|];
      first [contradiction | reflexivity].
Qed.

(** X7. When the plan call raises an ordinary exception, or the plan path
    is a directory, the synthesis prints the error and exits with status 1
    having changed no file; the spec call is not made. *)
Theorem plan_failure_writes_nothing (env : Env) (sp feature_name ctx : string)
    (w : World) (simple : list SimpleMsg) (e : exn) :
  let base := sanitize_filename feature_name in
  let plan_prompt :=
    SYNTHESIZE_PLAN_PROMPT_format (format_history_for_prompt simple) ctx in
  simple_history sp (chat_history w) = Ok simple ->
  (generate_content env (generated w) plan_prompt = Raise e \/
   exists response,
     generate_content env (generated w) plan_prompt = Ok response /\
     files w !! (base +:+ ".plan.md") = Some Dir /\
     e = is_a_directory (base +:+ ".plan.md")) ->
  is_Exception e = true ->
  final_synthesis env sp feature_name ctx w =
    (Exited 1%Z,
     {| console := console w ++
          [nl +:+ "[bold]Generating artifacts...[/bold]"; synthesis_error e];
        files := files w;
        requests := requests w ++ [Generate plan_prompt];
        chat_history := chat_history w |}).
Proof.
  intros base plan_prompt Hh Hfail He.
  erewrite final_synthesis_plan_raised; [| exact Hh | | exact He]; cycle 1.
  { destruct Hfail as [Hp | (response & Hp & Hd & ->)].
    - now apply generate_plan_md_raised.
    - now apply generate_plan_md_directory with (response := response). }
  simpl_world. now rewrite <- app_assoc.
Qed.

Lemma plan_failure_writes_nothing_witness :
  let r := final_synthesis failing_env (SYSTEM_PROMPT_format "{}")
             "test_feature_name" "{}" (test_session old_files) in
  is_Exception (Error "429 Resource exhausted") = true /\
  r.1 = Exited 1%Z /\
  files r.2 = old_files /\
  last (console r.2) =
    Some (nl +:+ "[bold red]Error during synthesis:[/bold red] 429 Resource exhausted").
Proof.
  intros r. subst r.
  rewrite (plan_failure_writes_nothing failing_env (SYSTEM_PROMPT_format "{}")
             "test_feature_name" "{}" (test_session old_files)
             test_simple_history (Error "429 Resource exhausted")
             (test_simple_history_ok old_files) (or_introl eq_refl) eq_refl).
  repeat split.
Defined.

(** X8. When the plan response carries no text, the plan file has already
    been opened for writing: where the operating system opens it, the
    synthesis prints "Error during synthesis:" with the exception's text,
    exits with status 1 and leaves [<base>.plan.md] empty, whatever it held
    before. *)
Theorem textless_plan_empties_the_file (env : Env)
    (sp feature_name ctx : string) (w : World) (simple : list SimpleMsg)
    (e : exn) :
  let base := sanitize_filename feature_name in
  let plan_prompt :=
    SYNTHESIZE_PLAN_PROMPT_format (format_history_for_prompt simple) ctx in
  let r := final_synthesis env sp feature_name ctx w in
  simple_history sp (chat_history w) = Ok simple ->
  generate_content env (generated w) plan_prompt = Ok {| text := Raise e |} ->
  files w !! (base +:+ ".plan.md") <> Some Dir ->
  open_error env (base +:+ ".plan.md") = None ->
  is_Exception e = true ->
  r.1 = Exited 1%Z /\
  files r.2 = <[base +:+ ".plan.md" := File ""]> (files w) /\
  files r.2 !! (base +:+ ".plan.md") = Some (File "") /\
  last (console r.2) =
    Some (nl +:+ "[bold red]Error during synthesis:[/bold red] " +:+ exn_str e) /\
  requests r.2 = requests w ++ [Generate plan_prompt].
Proof.
  intros base plan_prompt r Hh Hp Hd Ho He. subst r.
  erewrite final_synthesis_plan_raised; [| exact Hh | | exact He]; cycle 1.
  { apply generate_plan_md_textless; [exact Hp | exact Hd | exact Ho]. }
  simpl_world. repeat split.
  - apply lookup_insert_eq.
  - now rewrite last_app.
Qed.

Lemma textless_plan_empties_the_file_witness :
  let r := final_synthesis textless_env (SYSTEM_PROMPT_format "{}")
             "test_feature_name" "{}" (test_session old_files) in
  old_files !! "test_feature_name.plan.md" = Some (File "old plan") /\
  r.1 = Exited 1%Z /\
  files r.2 !! "test_feature_name.plan.md" = Some (File "") /\
  last (console r.2) =
    Some (nl +:+ "[bold red]Error during synthesis:[/bold red] The response has no text part").
Proof.
  intros r.
  destruct (textless_plan_empties_the_file textless_env
              (SYSTEM_PROMPT_format "{}") "test_feature_name" "{}"
              (test_session old_files) test_simple_history
              (Error "The response has no text part")
              (test_simple_history_ok old_files) eq_refl
              ltac:(vm_compute; discriminate) eq_refl eq_refl)
    as (H1 & _ & H3 & H4 & _).
  split; [vm_compute; reflexivity |].
  split; [exact H1 | split; [exact H3 | exact H4]].
Defined.

(** X9. Once the plan is written, an ordinary exception in the spec step
    (the call raises, the response carries no text, the spec path is a
    directory, or the operating system refuses to open it) makes the
    synthesis print "Error during synthesis:" with the exception's text and
    exit with status 1 with the plan in place; the spec path and the
    instructions file are as they were. *)
Theorem spec_failure_leaves_plan (env : Env) (sp feature_name ctx : string)
    (w : World) (simple : list SimpleMsg) (plan_text : string) (e : exn) :
  let base := sanitize_filename feature_name in
  let history_str := format_history_for_prompt simple in
  let plan_prompt := SYNTHESIZE_PLAN_PROMPT_format history_str ctx in
  let spec_prompt := SYNTHESIZE_SPEC_PROMPT_format history_str ctx in
  let r := final_synthesis env sp feature_name ctx w in
  simple_history sp (chat_history w) = Ok simple ->
  generate_content env (generated w) plan_prompt = text_reply plan_text ->
  writable env w (base +:+ ".plan.md") plan_text ->
  (generate_content env (S (generated w)) spec_prompt = Raise e \/
   generate_content env (S (generated w)) spec_prompt
     = Ok {| text := Raise e |} \/
   (exists spec_text,
     generate_content env (S (generated w)) spec_prompt
       = text_reply spec_text /\
     is_empty (strip spec_text) = false /\
     files w !! (base +:+ ".spec.md") = Some Dir /\
     e = is_a_directory (base +:+ ".spec.md")) \/
   (exists spec_text msg,
     generate_content env (S (generated w)) spec_prompt
       = text_reply spec_text /\
     is_empty (strip spec_text) = false /\
     files w !! (base +:+ ".spec.md") <> Some Dir /\
     open_error env (base +:+ ".spec.md") = Some msg /\
     e = Error msg)) ->
  is_Exception e = true ->
  r.1 = Exited 1%Z /\
  files r.2 = <[base +:+ ".plan.md" := File plan_text]> (files w) /\
  files r.2 !! (base +:+ ".spec.md") = files w !! (base +:+ ".spec.md") /\
  files r.2 !! AGENT_INSTRUCTIONS_FILENAME
    = files w !! AGENT_INSTRUCTIONS_FILENAME /\
  last (console r.2) =
    Some (nl +:+ "[bold red]Error during synthesis:[/bold red] " +:+ exn_str e) /\
  requests r.2 = requests w ++ [Generate plan_prompt; Generate spec_prompt].
Proof.
  intros base history_str plan_prompt spec_prompt r Hh Hp Hd Hfail He.
  subst r.
  erewrite final_synthesis_spec_raised; [| exact Hh | | | exact He]; cycle 1.
  { apply generate_plan_md_ok; [exact Hp | exact Hd]. }
  { apply generate_spec_md_raised. rewrite generated_snoc. simpl_world.
    destruct Hfail as [Hs | [Hs | [(spec_text & Hs & Hb & Hdir & ->)
                                  | (spec_text & msg & Hs & Hb & Hdir & Ho & ->)]]];
      [now left | right; now left | right; right; left | right; right; right].
    - exists spec_text. repeat split; try assumption.
      rewrite lookup_insert_ne by apply plan_spec_ne. exact Hdir.
    - exists spec_text, msg.
      split; [exact Hs | split; [exact Hb | split; [| now split]]].
      rewrite lookup_insert_ne by apply plan_spec_ne. exact Hdir. }
  simpl_world. repeat split.
  - apply lookup_insert_ne, plan_spec_ne.
  - apply lookup_insert_ne, sanitized_path_ne.
  - now rewrite last_app.
  - now rewrite <- app_assoc.
Qed.

Lemma spec_failure_leaves_plan_witness :
  let r := final_synthesis spec_failing_env (SYSTEM_PROMPT_format "{}")
             "test_feature_name" "{}" (test_session no_files) in
  is_Exception (Error "429 Resource exhausted") = true /\
  r.1 = Exited 1%Z /\
  files r.2 = <[ "test_feature_name.plan.md" := File "# Test Plan" ]> no_files /\
  last (console r.2) =
    Some (nl +:+ "[bold red]Error during synthesis:[/bold red] 429 Resource exhausted").
Proof.
  intros r.
  destruct (spec_failure_leaves_plan spec_failing_env
              (SYSTEM_PROMPT_format "{}") "test_feature_name" "{}"
              (test_session no_files) test_simple_history "# Test Plan"
              (Error "429 Resource exhausted")
              (test_simple_history_ok no_files) eq_refl
              ltac:(writable_now) (or_introl eq_refl) eq_refl)
    as (H1 & H2 & _ & _ & H5 & _).
  split; [reflexivity | split; [exact H1 | split; [exact H2 | exact H5]]].
Defined.

(** *** Reading a normal return backwards *)

Lemma bind_ret_inv {A B} (m : M A) (k : A -> M B) (w w' : World) (b : B) :
  bind m k w = (Ret b, w') ->
  exists a w1, m w = (Ret a, w1) /\ k a w1 = (Ret b, w').
Proof.
  unfold bind. destruct (m w) as [[a|e|n] w1]; intros H;
    [now exists a, w1 | discriminate H | discriminate H].
Qed.

Lemma try_ret_inv {A} c (m : M A) (h : exn -> M A) (w w' : World) (a : A) :
  try_except c m h w = (Ret a, w') ->
  (forall e w0, (h e w0).1 <> Ret a) ->
  m w = (Ret a, w').
Proof.
  unfold try_except. destruct (m w) as [[x|e|n] w1]; intros H Hh;
    [exact H | | discriminate H].
  destruct (c e); [| discriminate H].
  exfalso. apply (Hh e w1). now rewrite H.
Qed.

Lemma of_result_ret_inv {A} (r : result A) (w w' : World) (a : A) :
  of_result r w = (Ret a, w') -> r = Ok a /\ w' = w.
Proof. destruct r as [x|e]; intros [= <- <-]; now split. Qed.

Lemma print_ret_inv (s : string) (w w' : World) :
  print s w = (Ret tt, w') -> w' = set_console (console w ++ [s]) w.
Proof. now intros [= <-]. Qed.

Lemma open_w_ret_inv (env : Env) (path : string) (w w' : World) :
  open_w env path w = (Ret tt, w') ->
  files w !! path <> Some Dir /\
  open_error env path = None /\
  w' = set_files (<[path := File ""]> (files w)) w.
Proof.
  unfold open_w.
  destruct (files w !! path) as [[c|]|], (open_error env path) as [msg|];
    intros [= <-]; (split; [| split]); first [discriminate | reflexivity].
Qed.

Lemma f_write_ret_inv (env : Env) (path s c : string) (w w' : World) :
  f_write env path s w = (Ret tt, w') ->
  files w !! path = Some (File c) ->
  write_error env path s = None.
Proof.
  unfold f_write. intros H Hc. rewrite Hc in H.
  destruct (write_error env path s) as [[msg kept]|];
    [discriminate H | reflexivity].
Qed.

Lemma model_generate_content_ret_inv (env : Env) (prompt : string)
    (w w' : World) (response : Response) :
  model_generate_content env prompt w = (Ret response, w') ->
  generate_content env (generated w) prompt = Ok response /\
  w' = set_requests (requests w ++ [Generate prompt]) w.
Proof.
  unfold model_generate_content.
  destruct (generate_content env (generated w) prompt) as [r|e];
    intros [= <- <-]; now split.
Qed.

Lemma generate_plan_md_ret_inv (env : Env) (h ctx base : string)
    (w w' : World) :
  generate_plan_md env h ctx base w = (Ret tt, w') ->
  exists plan_text,
    generate_content env (generated w) (SYNTHESIZE_PLAN_PROMPT_format h ctx)
      = text_reply plan_text /\
    writable env w (base +:+ ".plan.md") plan_text /\
    generate_plan_md env h ctx base w =
      (Ret tt,
       {| console := console w ++ ["✅ Created: ./" +:+ base +:+ ".plan.md"];
          files := <[base +:+ ".plan.md" := File plan_text]> (files w);
          requests := requests w ++
            [Generate (SYNTHESIZE_PLAN_PROMPT_format h ctx)];
          chat_history := chat_history w |}).
Proof.
  intros H. pose proof H as H0. unfold generate_plan_md in H0.
  apply bind_ret_inv in H0 as ([response] & w1 & Hg & H0).
  apply model_generate_content_ret_inv in Hg as [Hg ->].
  apply bind_ret_inv in H0 as ([] & w2 & Ho & H0).
  apply open_w_ret_inv in Ho as (Hd & Ho & ->).
  apply bind_ret_inv in H0 as (plan_text & w3 & Ht & H0).
  apply of_result_ret_inv in Ht as [Ht ->]. cbn [text] in Ht. subst response.
  apply bind_ret_inv in H0 as ([] & w4 & Hw & _).
  apply f_write_ret_inv with (c := "") in Hw;
    [| cbn [files set_files set_requests]; apply lookup_insert_eq].
  cbn [files set_requests] in Hd.
  assert (Hable : writable env w (base +:+ ".plan.md") plan_text)
    by (split; [exact Hd | split; [exact Ho | exact Hw]]).
  exists plan_text. split; [exact Hg | split; [exact Hable |]].
  now apply generate_plan_md_ok.
Qed.

Lemma generate_spec_md_ret_inv (env : Env) (h ctx base : string)
    (w w' : World) :
  generate_spec_md env h ctx base w = (Ret tt, w') ->
  exists spec_text,
    generate_content env (generated w) (SYNTHESIZE_SPEC_PROMPT_format h ctx)
      = text_reply spec_text /\
    is_empty (strip spec_text) = false /\
    writable env w (base +:+ ".spec.md") spec_text /\
    generate_spec_md env h ctx base w =
      (Ret tt,
       {| console := console w ++ ["✅ Created: ./" +:+ base +:+ ".spec.md"];
          files := <[base +:+ ".spec.md" := File spec_text]> (files w);
          requests := requests w ++
            [Generate (SYNTHESIZE_SPEC_PROMPT_format h ctx)];
          chat_history := chat_history w |}).
Proof.
  intros H. pose proof H as H0. unfold generate_spec_md in H0.
  apply bind_ret_inv in H0 as ([response] & w1 & Hg & H0).
  apply model_generate_content_ret_inv in Hg as [Hg ->].
  apply bind_ret_inv in H0 as (spec_text & w2 & Ht & H0).
  apply of_result_ret_inv in Ht as [Ht ->]. cbn [text] in Ht. subst response.
  apply bind_ret_inv in H0 as ([] & w3 & Hb & H0).
  destruct (is_empty (strip spec_text)) eqn:Hblank; [discriminate Hb |].
  injection Hb as <-.
  apply bind_ret_inv in H0 as ([] & w4 & Ho & H0).
  apply open_w_ret_inv in Ho as (Hd & Ho & ->).
  cbn [files set_requests] in Hd.
  apply bind_ret_inv in H0 as (spec_text' & w5 & Ht & H0).
  apply of_result_ret_inv in Ht as [[= <-] ->].
  apply bind_ret_inv in H0 as ([] & w6 & Hw & _).
  apply f_write_ret_inv with (c := "") in Hw;
    [| cbn [files set_files set_requests]; apply lookup_insert_eq].
  assert (Hable : writable env w (base +:+ ".spec.md") spec_text)
    by (split; [exact Hd | split; [exact Ho | exact Hw]]).
  exists spec_text. split; [exact Hg | split; [exact Hblank |]].
  split; [exact Hable |].
  now apply generate_spec_md_ok.
Qed.

Lemma generate_agent_instructions_ret_inv (env : Env) (w w' : World) :
  generate_agent_instructions env w = (Ret tt, w') ->
  files w !! AGENT_INSTRUCTIONS_FILENAME = None ->
  writable env w AGENT_INSTRUCTIONS_FILENAME AGENT_INSTRUCTIONS_CONTENT.
Proof.
  intros H E. unfold generate_agent_instructions in H.
  apply bind_ret_inv in H as (found & w1 & [= <- <-] & H).
  rewrite E in H.
  rewrite bool_decide_eq_false_2 in H by (intros [? ?]; discriminate).
  cbn [negb] in H.
  apply bind_ret_inv in H as ([] & w2 & Ho & H).
  apply open_w_ret_inv in Ho as (Hd & Ho & ->).
  apply bind_ret_inv in H as ([] & w3 & Hw & _).
  apply f_write_ret_inv with (c := "") in Hw;
    [| cbn [files set_files]; apply lookup_insert_eq].
  split; [exact Hd | split; [exact Ho | exact Hw]].
Qed.

(** X10. A normal return of the synthesis means the whole job was done: the
    history was rendered, both calls returned text, the spec text was not
    blank, and on return [<base>.plan.md] and [<base>.spec.md] hold those two
    texts and [AGENT_INSTRUCTIONS.md] exists; the last line printed is the
    closing one. *)
Theorem synthesis_return_means_files (env : Env)
    (sp feature_name ctx : string) (w w' : World) :
  final_synthesis env sp feature_name ctx w = (Ret tt, w') ->
  let base := sanitize_filename feature_name in
  exists simple plan_text spec_text,
    simple_history sp (chat_history w) = Ok simple /\
    generate_content env (generated w)
      (SYNTHESIZE_PLAN_PROMPT_format (format_history_for_prompt simple) ctx)
      = text_reply plan_text /\
    generate_content env (S (generated w))
      (SYNTHESIZE_SPEC_PROMPT_format (format_history_for_prompt simple) ctx)
      = text_reply spec_text /\
    is_empty (strip spec_text) = false /\
    files w' !! (base +:+ ".plan.md") = Some (File plan_text) /\
    files w' !! (base +:+ ".spec.md") = Some (File spec_text) /\
    is_Some (files w' !! AGENT_INSTRUCTIONS_FILENAME) /\
    last (console w') = Some "Your artifacts are ready for an execution agent.".
Proof.
  intros H base. pose proof H as H0. unfold final_synthesis in H0.
  apply try_ret_inv in H0; [| intros e w0; cbn; discriminate].
  apply bind_ret_inv in H0 as (history & w1 & [= <- <-] & H0).
  apply bind_ret_inv in H0 as (simple & w1 & Hs & H0).
  apply of_result_ret_inv in Hs as [Hs ->]. cbv zeta in H0.
  apply bind_ret_inv in H0 as ([] & w2 & Hw2 & H0).
  apply print_ret_inv in Hw2 as ->.
  apply bind_ret_inv in H0 as ([] & w3 & Hplan & H0).
  destruct (generate_plan_md_ret_inv _ _ _ _ _ _ Hplan)
    as (plan_text & Hp & Hd & Hplan').
  rewrite Hplan' in Hplan. injection Hplan as <-.
  apply bind_ret_inv in H0 as ([] & w4 & Hspec & H0).
  destruct (generate_spec_md_ret_inv _ _ _ _ _ _ Hspec)
    as (spec_text & Hsp & Hblank & (Hd' & Ho' & Hw') & Hspec').
  rewrite Hspec' in Hspec. injection Hspec as <-.
  rewrite generated_snoc in Hsp. cbn [files] in Hd'.
  rewrite lookup_insert_ne in Hd' by apply plan_spec_ne.
  apply bind_ret_inv in H0 as ([] & w5 & Hagent & _).
  pose proof (generate_agent_instructions_ret_inv _ _ _ Hagent) as Ha.
  cbn [files] in Ha.
  rewrite !lookup_insert_ne in Ha by apply sanitized_path_ne.
  assert (Ha' : files w !! AGENT_INSTRUCTIONS_FILENAME = None ->
                writable env w AGENT_INSTRUCTIONS_FILENAME
                  AGENT_INSTRUCTIONS_CONTENT).
  { intros E. destruct (Ha E) as (_ & Ho'' & Hw'').
    split; [rewrite E; discriminate | split; [exact Ho'' | exact Hw'']]. }
  exists simple, plan_text, spec_text.
  split; [exact Hs | split; [exact Hp | split; [exact Hsp |]]].
  split; [exact Hblank |].
  rewrite (final_synthesis_success env sp feature_name ctx w simple
             plan_text spec_text Hs Hp Hsp Hd Hblank
             (conj Hd' (conj Ho' Hw')) Ha') in H.
  injection H as <-. simpl_world.
  pose proof (sanitized_path_ne feature_name ".plan.md") as Hpa.
  pose proof (sanitized_path_ne feature_name ".spec.md") as Hsa.
  pose proof (plan_spec_ne base) as Hps.
  fold base in Hpa, Hsa.
  destruct (files w !! AGENT_INSTRUCTIONS_FILENAME) as [old|] eqn:E;
    (split; [| split; [| split]]);
    repeat first
      [ rewrite lookup_insert_eq
      | rewrite lookup_insert_ne
          by first [assumption | apply not_eq_sym; assumption] ];
    first [reflexivity | now rewrite E | now eexists
          | now rewrite last_app ].
Qed.

Lemma synthesis_return_means_files_witness :
  let w := test_session no_files in
  let r := final_synthesis (test_env "# Test Spec") (SYSTEM_PROMPT_format "{}")
             "test_feature_name" "{}" w in
  r = (Ret tt, r.2) /\
  is_Some (files r.2 !! AGENT_INSTRUCTIONS_FILENAME) /\
  exists plan_text, files r.2 !! "test_feature_name.plan.md"
                    = Some (File plan_text).
Proof.
  intros w r.
  assert (Hr : r = (Ret tt, r.2)) by (vm_compute; reflexivity).
  destruct (synthesis_return_means_files (test_env "# Test Spec")
              (SYSTEM_PROMPT_format "{}") "test_feature_name" "{}" w r.2 Hr)
    as (simple & plan_text & spec_text & _ & _ & _ & _ & H5 & _ & H7 & _).
  split; [exact Hr | split; [exact H7 |]].
  exists plan_text. exact H5.
Defined.

(** ** More on the input loop *)

Lemma strip_idempotent (s : string) : strip (strip s) = strip s.
Proof. apply strip_by_idempotent. Qed.

(** X11. Whatever is typed, the loop makes at most one API call per line
    read, every call is a chat message, and every message sent is the line
    stripped, not empty and not a termination keyword. *)
Theorem loop_sends_only_real_messages (env : Env) (script : list Input)
    (w : World) :
  let r := interactive_chat_loop env script w in
  exists more,
    requests r.2 = requests w ++ more /\
    (length more <= length script)%nat /\
    Forall (fun request =>
              exists history message,
                request = Send history message /\ sendable message) more.
Proof.
  cbv zeta. revert w.
  induction script as [|[s|] rest IH]; intros w.
  - rewrite interactive_chat_loop_stop by exact I.
    exists []. simpl_world. now rewrite app_nil_r.
  - rewrite interactive_chat_loop_line.
    destruct (is_termination (strip s)) eqn:Hkey.
    { exists []. simpl_world. rewrite app_nil_r. repeat split.
      - cbn. lia.
      - constructor. }
    destruct (is_empty (strip s)) eqn:Hempty.
    { destruct (IH w) as (more & Hreq & Hlen & Hall).
      exists more. repeat split; [exact Hreq | cbn; lia | exact Hall]. }
    assert (Hsend : sendable (strip s))
      by (split; [apply strip_idempotent | now split]).
    cbv zeta.
    destruct (send_message env (chat_history w) (strip s)) as [reply|e].
    + match goal with
      | |- context [interactive_chat_loop env rest ?w0] =>
          destruct (IH w0) as (more & Hreq & Hlen & Hall)
      end.
      exists (Send (chat_history w) (strip s) :: more).
      rewrite Hreq. simpl_world. rewrite <- app_assoc.
      repeat split; [cbn; lia |].
      constructor; [now eexists _, _ | exact Hall].
    + exists [Send (chat_history w) (strip s)].
      destruct (is_interrupt e); simpl_world;
        (repeat split; [cbn; lia |]);
        (constructor; [now eexists _, _ | constructor]).
  - rewrite interactive_chat_loop_stop by exact I.
    exists []. simpl_world. rewrite app_nil_r. repeat split.
    + cbn. lia.
    + constructor.
Qed.

(** X12. The loop extends the history by whole exchanges only: a user turn
    with a sendable message followed by the model's reply to it, at most one
    exchange per line read.  A message whose send fails leaves no turn
    behind. *)
Theorem loop_history_grows_by_exchanges (env : Env) (script : list Input)
    (w : World) :
  let r := interactive_chat_loop env script w in
  exists said : list (string * string),
    chat_history r.2 = chat_history w ++ concat (map exchange said) /\
    (length said <= length script)%nat /\
    Forall (fun p => sendable p.1) said.
Proof.
  cbv zeta. revert w.
  induction script as [|[s|] rest IH]; intros w.
  - rewrite interactive_chat_loop_stop by exact I.
    exists []. simpl_world. cbn. now rewrite app_nil_r.
  - rewrite interactive_chat_loop_line.
    destruct (is_termination (strip s)) eqn:Hkey.
    { exists []. simpl_world. cbn. rewrite app_nil_r. repeat split.
      - lia.
      - constructor. }
    destruct (is_empty (strip s)) eqn:Hempty.
    { destruct (IH w) as (said & Hh & Hlen & Hall).
      exists said. repeat split; [exact Hh | cbn; lia | exact Hall]. }
    assert (Hsend : sendable (strip s))
      by (split; [apply strip_idempotent | now split]).
    cbv zeta.
    destruct (send_message env (chat_history w) (strip s)) as [reply|e].
    + match goal with
      | |- context [interactive_chat_loop env rest ?w0] =>
          destruct (IH w0) as (said & Hh & Hlen & Hall)
      end.
      exists ((strip s, reply) :: said).
      rewrite Hh. simpl_world. cbn [map concat exchange fst snd].
      rewrite <- app_assoc.
      repeat split; [cbn; lia |].
      constructor; [exact Hsend | exact Hall].
    + exists [].
      destruct (is_interrupt e); simpl_world; cbn; rewrite app_nil_r;
        (repeat split; [lia | constructor]).
  - rewrite interactive_chat_loop_stop by exact I.
    exists []. simpl_world. cbn. rewrite app_nil_r. repeat split.
    + lia.
    + constructor.
Qed.

Lemma loop_outcome (env : Env) (script : list Input) (w : World) :
  let r := interactive_chat_loop env script w in
  files r.2 = files w /\
  match r.1 with
  | Ret _ => True
  | Exited _ => False
  | Raised e =>
      is_interrupt e = false /\
      exists history message, send_message env history message = Raise e
  end.
Proof.
  cbv zeta. revert w.
  induction script as [|[s|] rest IH]; intros w.
  - rewrite interactive_chat_loop_stop by exact I. now split.
  - rewrite interactive_chat_loop_line.
    destruct (is_termination (strip s)); [now split |].
    destruct (is_empty (strip s)); [exact (IH w) |].
    cbv zeta.
    destruct (send_message env (chat_history w) (strip s)) as [reply|e]
      eqn:Hsend.
    + match goal with
      | |- context [interactive_chat_loop env rest ?w0] =>
          exact (IH w0)
      end.
    + destruct (is_interrupt e) eqn:He;
        (split; [reflexivity |]); [exact I |].
      split; [exact He | now exists (chat_history w), (strip s)].
  - rewrite interactive_chat_loop_stop by exact I. now split.
Qed.

(** X13. The loop never calls [sys.exit] and never touches a file.  When it
    ends with an exception, that exception is an ordinary one raised by a
    send (interrupts and end of input are handled), and it is not caught:
    the synthesis that was to follow does not run, so the session ends with
    that exception and no artifact written. *)
Theorem loop_failure_is_not_caught (env : Env) (script : list Input)
    (w : World) (system_prompt feature_name context_json : string) :
  let r := interactive_chat_loop env script w in
  let after := bind (interactive_chat_loop env script)
                 (fun _ => final_synthesis env system_prompt feature_name
                             context_json) w in
  files r.2 = files w /\
  match r.1 with
  | Ret _ => True
  | Exited _ => False
  | Raised e =>
      is_interrupt e = false /\
      (exists history message, send_message env history message = Raise e) /\
      after = (Raised e, r.2) /\
      files after.2 = files w
  end.
Proof.
  intros r after. subst after.
  destruct (loop_outcome env script w) as [Hfiles Hout]. fold r in Hfiles, Hout.
  split; [exact Hfiles |]. unfold bind. fold r.
  destruct r as [[[]|e|n] w1]; cbn [fst snd] in *; [exact I | | exact Hout].
  destruct Hout as [He Hsend]. now repeat split.
Qed.

Lemma loop_failure_is_not_caught_witness :
  let w := test_session old_files in
  let r := interactive_chat_loop dropping_env (stdin dropping_env) w in
  r.1 = Raised (Error "500 Internal error") /\
  files r.2 = old_files /\
  bind (interactive_chat_loop dropping_env (stdin dropping_env))
    (fun _ => final_synthesis dropping_env (SYSTEM_PROMPT_format "{}")
                "test_feature_name" "{}") w
    = (Raised (Error "500 Internal error"), r.2).
Proof.
  intros w r.
  assert (Hr : r.1 = Raised (Error "500 Internal error"))
    by (vm_compute; reflexivity).
  destruct (loop_failure_is_not_caught dropping_env (stdin dropping_env) w
              (SYSTEM_PROMPT_format "{}") "test_feature_name" "{}")
    as [Hfiles Hout].
  fold r in Hfiles, Hout. rewrite Hr in Hout.
  destruct Hout as (_ & _ & Hafter & _).
  split; [exact Hr | split; [exact Hfiles | exact Hafter]].
Defined.

(** ** Whole-program properties *)



Section MainInvariance.

Context (env : Env) (R : World -> World -> Prop).

Hypothesis R_refl : forall w, R w w.
Hypothesis R_trans : forall a b c, R a b -> R b c -> R a c.
Hypothesis R_console : forall w more, R w (set_console (console w ++ more) w).
Hypothesis R_requests : forall w more, R w (set_requests (requests w ++ more) w).
Hypothesis R_plan_feature :
  forall initial_idea feature_name,
    respects R (plan_feature env initial_idea feature_name).

(** What every step before and every run of [plan_feature] respects, [main]
    respects. *)
Lemma respects_main : respects R (main env).
Proof.
  unfold main.
  refine (respects_bind R R_trans _ _ (respects_print R R_console _) _).
  intros _.
  refine (respects_bind R R_trans _ _
            (respects_load_api_key env R R_refl R_trans R_console) _).
  intros _.
  refine (respects_bind R R_trans _ _
            (respects_get_initial_idea env R R_refl R_trans R_console) _).
  intros initial_idea.
  refine (respects_bind R R_trans _ _
            (respects_name_feature env R R_refl R_trans R_console R_requests
               initial_idea) _).
  intros feature_name.
  refine (respects_bind R R_trans _ _ (respects_print R R_console _) _).
  intros _. apply R_plan_feature.
Qed.

End MainInvariance.

Lemma keeps_files_same (w w' : World) :
  files w' = files w -> keeps_files w w'.
Proof. intros H path. now rewrite H. Qed.

Lemma keeps_files_refl (w : World) : keeps_files w w.
Proof. now apply keeps_files_same. Qed.

Lemma keeps_files_trans (a b c : World) :
  keeps_files a b -> keeps_files b c -> keeps_files a c.
Proof. intros H1 H2 path H. now apply H2, H1. Qed.

Lemma keeps_files_write (w : World) (path : string) (node : Node) :
  True -> keeps_files w (set_files (<[path := node]> (files w)) w).
Proof.
  intros _ q Hq. simpl_world.
  destruct (decide (path = q)) as [-> | Hne].
  - rewrite lookup_insert_eq. now eexists.
  - now rewrite lookup_insert_ne.
Qed.

(** X15. No run of [main] removes a file: every path that exists before
    the run exists after it, however the run ends. *)
Theorem main_deletes_nothing (env : Env) (w : World) (path : string) :
  is_Some (files w !! path) -> is_Some (files (main env w).2 !! path).
Proof.
  revert path. change (keeps_files w (main env w).2).
  refine (respects_main env keeps_files keeps_files_refl keeps_files_trans
            _ _ _ w).
  - intros w0 more. now apply keeps_files_same.
  - intros w0 more. now apply keeps_files_same.
  - intros initial_idea feature_name.
    refine (respects_plan_feature env keeps_files (fun _ => True)
              keeps_files_refl keeps_files_trans _ _ _ keeps_files_write
              feature_name I I I initial_idea).
    + intros w0 more. now apply keeps_files_same.
    + intros w0 more. now apply keeps_files_same.
    + intros w0 h. now apply keeps_files_same.
Qed.

Lemma main_deletes_nothing_witness :
  is_Some (old_files !! "test_feature_name.spec.md") /\
  is_Some (files (main failing_env (initial_world old_files)).2
             !! "test_feature_name.spec.md").
Proof.
  assert (H : is_Some (old_files !! "test_feature_name.spec.md"))
    by (vm_compute; now eexists).
  split; [exact H |].
  exact (main_deletes_nothing failing_env (initial_world old_files)
           "test_feature_name.spec.md" H).
Defined.

Lemma keeps_instructions_same (w w' : World) :
  files w' = files w -> keeps_instructions w w'.
Proof. intros H node. now rewrite H. Qed.

Lemma keeps_instructions_refl (w : World) : keeps_instructions w w.
Proof. now apply keeps_instructions_same. Qed.

Lemma keeps_instructions_trans (a b c : World) :
  keeps_instructions a b -> keeps_instructions b c -> keeps_instructions a c.
Proof. intros H1 H2 node H. now apply H2, H1. Qed.

Lemma keeps_instructions_write (w : World) (path : string) (node : Node) :
  path <> AGENT_INSTRUCTIONS_FILENAME ->
  keeps_instructions w (set_files (<[path := node]> (files w)) w).
Proof. intros Hne old Hold. simpl_world. now rewrite lookup_insert_ne. Qed.

Lemma generate_agent_instructions_keeps (env : Env) :
  respects keeps_instructions (generate_agent_instructions env).
Proof.
  intros w old Hold.
  rewrite generate_agent_instructions_run
    by (rewrite Hold; discriminate).
  cbn [snd]. rewrite Hold. exact Hold.
Qed.

Lemma final_synthesis_keeps_instructions (env : Env)
    (system_prompt feature_name context_json : string) :
  respects keeps_instructions
    (final_synthesis env system_prompt feature_name context_json).
Proof.
  assert (Hconsole : forall w more,
            keeps_instructions w (set_console (console w ++ more) w))
    by (intros w more; now apply keeps_instructions_same).
  assert (Hrequests : forall w more,
            keeps_instructions w (set_requests (requests w ++ more) w))
    by (intros w more; now apply keeps_instructions_same).
  pose (allowed := fun path : string => path <> AGENT_INSTRUCTIONS_FILENAME).
  unfold final_synthesis.
  refine (respects_try_except keeps_instructions keeps_instructions_trans
            _ _ _ _ _).
  - refine (respects_bind _ keeps_instructions_trans _ _
              (respects_get_chat_history _ keeps_instructions_refl) _).
    intros history.
    refine (respects_bind _ keeps_instructions_trans _ _
              (respects_of_result _ keeps_instructions_refl _) _).
    intros simple. cbv zeta.
    refine (respects_bind _ keeps_instructions_trans _ _
              (respects_print _ Hconsole _) _).
    intros _.
    refine (respects_bind _ keeps_instructions_trans _ _
              (respects_generate_plan_md env keeps_instructions allowed
                 keeps_instructions_refl keeps_instructions_trans Hconsole
                 Hrequests keeps_instructions_write _ _ _
                 (sanitized_path_ne feature_name ".plan.md")) _).
    intros _.
    refine (respects_bind _ keeps_instructions_trans _ _
              (respects_generate_spec_md env keeps_instructions allowed
                 keeps_instructions_refl keeps_instructions_trans Hconsole
                 Hrequests keeps_instructions_write _ _ _
                 (sanitized_path_ne feature_name ".spec.md")) _).
    intros _.
    refine (respects_bind _ keeps_instructions_trans _ _
              (generate_agent_instructions_keeps env) _).
    intros _.
    refine (respects_bind _ keeps_instructions_trans _ _
              (respects_print _ Hconsole _) _).
    intros _. exact (respects_print _ Hconsole _).
  - intros e.
    refine (respects_bind _ keeps_instructions_trans _ _
              (respects_print _ Hconsole _) _).
    intros _. exact (respects_sys_exit _ keeps_instructions_refl _).
Qed.

(** X16. No run of [main] overwrites or removes an [AGENT_INSTRUCTIONS.md]
    that is already there: whatever it holds before the run, file or
    directory, it holds after it, however the run ends. *)
Theorem main_keeps_instructions (env : Env) (w : World) (node : Node) :
  files w !! AGENT_INSTRUCTIONS_FILENAME = Some node ->
  files (main env w).2 !! AGENT_INSTRUCTIONS_FILENAME = Some node.
Proof.
  revert node. change (keeps_instructions w (main env w).2).
  refine (respects_main env keeps_instructions keeps_instructions_refl
            keeps_instructions_trans _ _ _ w).
  - intros w0 more. now apply keeps_instructions_same.
  - intros w0 more. now apply keeps_instructions_same.
  - intros initial_idea feature_name. unfold plan_feature.
    refine (respects_bind _ keeps_instructions_trans _ _ _ _).
    { refine (respects_load_context env keeps_instructions
                keeps_instructions_refl keeps_instructions_trans _).
      intros w0 more. now apply keeps_instructions_same. }
    intros c. cbv zeta.
    refine (respects_bind _ keeps_instructions_trans _ _ _ _).
    { refine (respects_print keeps_instructions _ _).
      intros w0 more. now apply keeps_instructions_same. }
    intros _.
    refine (respects_bind _ keeps_instructions_trans _ _ _ _).
    { refine (respects_set_up_chat env keeps_instructions
                keeps_instructions_refl keeps_instructions_trans _ _ _ _ _);
        intros w0 x; now apply keeps_instructions_same. }
    intros system_prompt.
    refine (respects_bind _ keeps_instructions_trans _ _ _ _).
    { refine (respects_interactive_chat_loop env keeps_instructions
                keeps_instructions_refl keeps_instructions_trans _ _ _ _);
        intros w0 x; now apply keeps_instructions_same. }
    intros _. apply final_synthesis_keeps_instructions.
Qed.

Lemma main_keeps_instructions_witness :
  old_files !! AGENT_INSTRUCTIONS_FILENAME = Some (File "kept as it is") /\
  files (main (test_env "# Test Spec") (initial_world old_files)).2
    !! AGENT_INSTRUCTIONS_FILENAME = Some (File "kept as it is").
Proof.
  assert (H : old_files !! AGENT_INSTRUCTIONS_FILENAME
              = Some (File "kept as it is")) by (vm_compute; reflexivity).
  split; [exact H |].
  exact (main_keeps_instructions (test_env "# Test Spec")
           (initial_world old_files) (File "kept as it is") H).
Defined.

Lemma sforall_append (p : ascii -> bool) (a b : string) :
  sforall p (a +:+ b) = sforall p a && sforall p b.
Proof.
  induction a as [|c a IH]; [reflexivity |].
  rewrite append_cons. cbn [sforall]. now rewrite IH, andb_assoc.
Qed.

Lemma sforall_impl (p q : ascii -> bool) (s : string) :
  (forall c, p c = true -> q c = true) ->
  sforall p s = true -> sforall q s = true.
Proof.
  intros Hpq. induction s as [|c s IH]; [reflexivity |].
  cbn [sforall]. intros H. apply andb_prop in H as [Hc Hs].
  now rewrite (Hpq c Hc), IH.
Qed.

Lemma safe_char_not_slash (c : ascii) :
  safe_char c = true -> negb (code c =? 47) = true.
Proof.
  destruct c as [[] [] [] [] [] [] [] []]; intros H;
    first [discriminate H | reflexivity].
Qed.

(** The names derived from a feature name hold no slash. *)
Lemma output_names_are_plain (feature_name : string) :
  Forall (fun path => plain_name path = true)
    [ sanitize_filename feature_name +:+ ".plan.md";
      sanitize_filename feature_name +:+ ".spec.md";
      AGENT_INSTRUCTIONS_FILENAME ].
Proof.
  assert (H : plain_name (sanitize_filename feature_name) = true).
  { apply (sforall_impl safe_char); [apply safe_char_not_slash |].
    apply sanitize_filename_safe. }
  unfold plain_name in *.
  repeat constructor; rewrite ?sforall_append, ?H; reflexivity.
Qed.

(** X17. Whatever the environment, a run of [main] changes at most three
    paths: for some feature name (the model's answer or the idea), they are
    the plan and the spec named after its sanitized form and the instructions
    file.  None of these names holds a slash, so whatever name the model
    proposes the run writes in the working directory only. *)
Theorem main_writes_three_plain_names (env : Env) (w : World) :
  exists feature_name,
    let paths := [ sanitize_filename feature_name +:+ ".plan.md";
                   sanitize_filename feature_name +:+ ".spec.md";
                   AGENT_INSTRUCTIONS_FILENAME ] in
    (forall path,
       files (main env w).2 !! path <> files w !! path -> In path paths) /\
    Forall (fun path => plain_name path = true) paths.
Proof.
  assert (Hsame : forall w',
            files w' = files w ->
            forall path, files w' !! path <> files w !! path ->
                         In path [ sanitize_filename "" +:+ ".plan.md";
                                   sanitize_filename "" +:+ ".spec.md";
                                   AGENT_INSTRUCTIONS_FILENAME ]).
  { intros w' Hw' path Hpath. exfalso. apply Hpath. now rewrite Hw'. }
  unfold main. erewrite bind_ret by reflexivity.
  unfold load_api_key.
  destruct (truthy (api_key env));
    [| exists ""; split; [now apply Hsame | apply output_names_are_plain]].
  erewrite bind_ret by reflexivity.
  unfold get_initial_idea. cbv zeta.
  destruct (is_empty (strip (join " " (argv env))));
    [exists ""; split; [now apply Hsame | apply output_names_are_plain] |].
  erewrite bind_ret by reflexivity.
  set (idea := strip (join " " (argv env))).
  set (w0 := set_console (console w ++ [welcome]) w).
  destruct (name_feature_keeps env idea w0) as [Hfiles _].
  destruct (name_feature env idea w0) as [[feature_name|e|n] w1] eqn:Hname;
    cbn [snd] in Hfiles.
  - erewrite bind_ret by exact Hname.
    erewrite bind_ret by reflexivity.
    exists feature_name. split; [| apply output_names_are_plain].
    intros path Hpath.
    match goal with
    | |- In path ?paths =>
        destruct (decide (In path paths)) as [Hin | Hout];
          [exact Hin | exfalso]
    end.
    apply Hpath.
    rewrite (plan_feature_writes env idea feature_name _ path Hout).
    simpl_world. now rewrite Hfiles.
  - erewrite bind_raised by exact Hname.
    exists ""; split; [now apply Hsame | apply output_names_are_plain].
  - erewrite bind_exited by exact Hname.
    exists ""; split; [now apply Hsame | apply output_names_are_plain].
Qed.

(** *** The exit status *)

Section ExitStatus.

Context (env : Env).

Lemma exits_one_bind {A B} (m : M A) (k : A -> M B) :
  exits_one m -> (forall a, exits_one (k a)) -> exits_one (bind m k).
Proof.
  intros Hm Hk w n w'. unfold bind.
  destruct (m w) as [[a|e|x] w1] eqn:E; intros H.
  - exact (Hk a w1 n w' H).
  - discriminate H.
  - injection H as -> ->. exact (Hm w n w' E).
Qed.

Lemma exits_one_try_except {A} c (m : M A) (h : exn -> M A) :
  exits_one m -> (forall e, exits_one (h e)) -> exits_one (try_except c m h).
Proof.
  intros Hm Hh w n w'. unfold try_except.
  destruct (m w) as [[a|e|x] w1] eqn:E; intros H.
  - discriminate H.
  - destruct (c e); [exact (Hh e w1 n w' H) | discriminate H].
  - injection H as -> ->. exact (Hm w n w' E).
Qed.

Lemma exits_one_sys_exit {A} : exits_one (@sys_exit A 1).
Proof. now intros w n w' [= <- _]. Qed.

Lemma exits_one_ret {A} (a : A) : exits_one (ret a).
Proof. intros w n w' H. discriminate H. Qed.

Lemma exits_one_raise {A} (e : exn) : exits_one (@raise A e).
Proof. intros w n w' H. discriminate H. Qed.

Lemma exits_one_of_result {A} (r : result A) : exits_one (of_result r).
Proof. destruct r; [apply exits_one_ret | apply exits_one_raise]. Qed.

Lemma exits_one_print (s : string) : exits_one (print s).
Proof. intros w n w' H. discriminate H. Qed.

Lemma exits_one_get_chat_history : exits_one get_chat_history.
Proof. intros w n w' H. discriminate H. Qed.

Lemma exits_one_start_chat (h : list Content) : exits_one (start_chat h).
Proof. intros w n w' H. discriminate H. Qed.

Lemma exits_one_path_exists (path : string) : exits_one (path_exists path).
Proof. intros w n w' H. discriminate H. Qed.

Lemma exits_one_read_file (path : string) : exits_one (read_file path).
Proof.
  intros w n w'. unfold read_file.
  destruct (files w !! path) as [[c|]|]; intros H; discriminate H.
Qed.

Lemma exits_one_open_w (path : string) : exits_one (open_w env path).
Proof.
  intros w n w'. unfold open_w.
  destruct (files w !! path) as [[c|]|], (open_error env path) as [msg|];
    intros H; discriminate H.
Qed.

Lemma exits_one_f_write (path s : string) : exits_one (f_write env path s).
Proof.
  intros w n w'. unfold f_write.
  destruct (files w !! path) as [[c|]|],
    (write_error env path s) as [[msg kept]|]; intros H; discriminate H.
Qed.

Lemma exits_one_model_generate_content (prompt : string) :
  exits_one (model_generate_content env prompt).
Proof.
  intros w n w'. unfold model_generate_content.
  destruct (generate_content env (generated w) prompt); intros H;
    discriminate H.
Qed.

Lemma exits_one_chat_send_message (message : string) :
  exits_one (chat_send_message env message).
Proof.
  intros w n w'. unfold chat_send_message.
  destruct (send_message env (chat_history w) message); intros H;
    discriminate H.
Qed.

Ltac exits_step :=
  first
    [ apply exits_one_bind; [| intros ?]
    | apply exits_one_try_except; [| intros ?]
    | apply exits_one_sys_exit
    | apply exits_one_print
    | apply exits_one_ret
    | apply exits_one_raise
    | apply exits_one_of_result
    | apply exits_one_get_chat_history
    | apply exits_one_start_chat
    | apply exits_one_path_exists
    | apply exits_one_read_file
    | apply exits_one_open_w
    | apply exits_one_f_write
    | apply exits_one_model_generate_content
    | apply exits_one_chat_send_message
    | match goal with
      | |- exits_one (if ?b then _ else _) => destruct b
      end ].

Lemma exits_one_chat_loop (script : list Input) :
  exits_one (chat_loop env script).
Proof.
  induction script as [|[s|] rest IH]; cbn [chat_loop];
    [apply exits_one_raise | | apply exits_one_raise].
  cbv zeta. repeat exits_step; exact IH.
Qed.

Lemma exits_one_final_synthesis
    (system_prompt feature_name context_json : string) :
  exits_one (final_synthesis env system_prompt feature_name context_json).
Proof.
  unfold final_synthesis, generate_plan_md, generate_spec_md,
    generate_agent_instructions.
  cbv zeta. repeat exits_step.
Qed.

Lemma exits_one_plan_feature (initial_idea feature_name : string) :
  exits_one (plan_feature env initial_idea feature_name).
Proof.
  unfold plan_feature, load_context, set_up_chat, interactive_chat_loop.
  cbv zeta.
  repeat first [apply exits_one_chat_loop | apply exits_one_final_synthesis
               | exits_step].
Qed.

Lemma exits_one_main : exits_one (main env).
Proof.
  unfold main, load_api_key, get_initial_idea, name_feature,
    generate_feature_name.
  cbv zeta. repeat first [apply exits_one_plan_feature | exits_step].
Qed.

End ExitStatus.

(** X18. Every [sys.exit] of the program carries status 1.  The process
    ends with status 0 exactly when [main] returns; it ends with status 0 or
    1 unless a [KeyboardInterrupt] reaches the top, which is the one case
    where it dies by SIGINT instead. *)
Theorem main_exit_status (env : Env) (w : World) :
  let r := main env w in
  (forall n, r.1 = Exited n -> n = 1%Z) /\
  (exit_status r.1 = 0%Z <-> r.1 = Ret tt) /\
  (r.1 <> Raised KeyboardInterrupt ->
   exit_status r.1 = 0%Z \/ exit_status r.1 = 1%Z) /\
  (exit_status r.1 = 130%Z <-> r.1 = Raised KeyboardInterrupt).
Proof.
  intros r.
  assert (Hexit : forall n, r.1 = Exited n -> n = 1%Z).
  { intros n Hn. apply (exits_one_main env w n r.2).
    subst r. destruct (main env w) as [o w']. cbn in Hn. now subst o. }
  split; [exact Hexit | split; [| split]].
  - destruct r.1 as [[]|[msg| |]|n] eqn:E; cbn; split; intros H;
      try reflexivity; try discriminate H.
    rewrite (Hexit n eq_refl) in H. discriminate H.
  - intros Hk.
    destruct r.1 as [[]|[msg| |]|n] eqn:E; cbn;
      [now left | now right | now right | now contradiction Hk |].
    right. now apply Hexit.
  - destruct r.1 as [[]|[msg| |]|n] eqn:E; cbn; split; intros H;
      try reflexivity; try discriminate H.
    rewrite (Hexit n eq_refl) in H. discriminate H.
Qed.

Lemma main_exit_status_witness :
  let r := main interrupted_env (initial_world no_files) in
  r.1 = Raised KeyboardInterrupt /\
  exit_status r.1 = 130%Z /\
  let r' := main no_key_env (initial_world no_files) in
  r'.1 <> Raised KeyboardInterrupt /\
  (exit_status r'.1 = 0%Z \/ exit_status r'.1 = 1%Z).
Proof.
  intros r.
  assert (Hr : r.1 = Raised KeyboardInterrupt) by (vm_compute; reflexivity).
  split; [exact Hr |].
  split; [exact (proj2 (proj2 (proj2 (proj2 (main_exit_status interrupted_env
                   (initial_world no_files))))) Hr) |].
  intros r'.
  assert (Hr' : r'.1 <> Raised KeyboardInterrupt)
    by (vm_compute; discriminate).
  split; [exact Hr' |].
  exact (proj1 (proj2 (proj2 (main_exit_status no_key_env
           (initial_world no_files)))) Hr').
Defined.

(** *** The number of API calls *)

Section Budget.

Context (env : Env).

Lemma spends_weaken {A} (n n' : nat) (m : M A) :
  (n <= n')%nat -> spends n m -> spends n' m.
Proof.
  intros Hle Hm w. destruct (Hm w) as (more & Hreq & Hlen).
  exists more. split; [exact Hreq | lia].
Qed.

Lemma spends_bind {A B} (n1 n2 : nat) (m : M A) (k : A -> M B) :
  spends n1 m -> (forall a, spends n2 (k a)) ->
  spends (n1 + n2) (bind m k).
Proof.
  intros Hm Hk w. unfold bind.
  destruct (Hm w) as (more1 & Hreq1 & Hlen1).
  destruct (m w) as [[a|e|x] w1]; cbn [snd] in Hreq1;
    [| exists more1; split; [exact Hreq1 | lia]..].
  destruct (Hk a w1) as (more2 & Hreq2 & Hlen2).
  exists (more1 ++ more2). rewrite Hreq2, Hreq1, app_assoc, length_app.
  split; [reflexivity | lia].
Qed.

Lemma spends_try_except {A} (n1 n2 : nat) c (m : M A) (h : exn -> M A) :
  spends n1 m -> (forall e, spends n2 (h e)) ->
  spends (n1 + n2) (try_except c m h).
Proof.
  intros Hm Hh w. unfold try_except.
  destruct (Hm w) as (more1 & Hreq1 & Hlen1).
  destruct (m w) as [[a|e|x] w1]; cbn [snd] in Hreq1;
    [exists more1; split; [exact Hreq1 | lia] | |
     exists more1; split; [exact Hreq1 | lia]].
  destruct (c e); [| exists more1; split; [exact Hreq1 | lia]].
  destruct (Hh e w1) as (more2 & Hreq2 & Hlen2).
  exists (more1 ++ more2). rewrite Hreq2, Hreq1, app_assoc, length_app.
  split; [reflexivity | lia].
Qed.

(** A step that leaves the request log as it is costs nothing. *)
Lemma spends_nothing {A} (m : M A) :
  (forall w, requests (m w).2 = requests w) -> spends 0 m.
Proof.
  intros H w. exists []. rewrite H, app_nil_r. split; [reflexivity | cbn; lia].
Qed.

Lemma spends_bind_free {A B} (n : nat) (m : M A) (k : A -> M B) :
  spends 0 m -> (forall a, spends n (k a)) -> spends n (bind m k).
Proof. intros Hm Hk. exact (spends_bind 0 n m k Hm Hk). Qed.

Lemma spends_bind_then {A B} (n : nat) (m : M A) (k : A -> M B) :
  spends n m -> (forall a, spends 0 (k a)) -> spends n (bind m k).
Proof.
  intros Hm Hk. apply (spends_weaken (n + 0)); [lia |].
  exact (spends_bind n 0 m k Hm Hk).
Qed.

Lemma spends_print (s : string) : spends 0 (print s).
Proof. now apply spends_nothing. Qed.

Lemma spends_ret {A} (a : A) : spends 0 (ret a).
Proof. now apply spends_nothing. Qed.

Lemma spends_raise {A} (e : exn) : spends 0 (@raise A e).
Proof. now apply spends_nothing. Qed.

Lemma spends_sys_exit {A} (n : Z) : spends 0 (@sys_exit A n).
Proof. now apply spends_nothing. Qed.

Lemma spends_of_result {A} (r : result A) : spends 0 (of_result r).
Proof. destruct r; [apply spends_ret | apply spends_raise]. Qed.

Lemma spends_get_chat_history : spends 0 get_chat_history.
Proof. now apply spends_nothing. Qed.

Lemma spends_start_chat (h : list Content) : spends 0 (start_chat h).
Proof. now apply spends_nothing. Qed.

Lemma spends_path_exists (path : string) : spends 0 (path_exists path).
Proof. now apply spends_nothing. Qed.

Lemma spends_read_file (path : string) : spends 0 (read_file path).
Proof.
  apply spends_nothing. intros w. unfold read_file.
  now destruct (files w !! path) as [[c|]|].
Qed.

Lemma spends_open_w (path : string) : spends 0 (open_w env path).
Proof.
  apply spends_nothing. intros w. unfold open_w.
  now destruct (files w !! path) as [[c|]|],
    (open_error env path) as [msg|].
Qed.

Lemma spends_f_write (path s : string) : spends 0 (f_write env path s).
Proof.
  apply spends_nothing. intros w. unfold f_write.
  now destruct (files w !! path) as [[c|]|],
    (write_error env path s) as [[msg kept]|].
Qed.

Lemma spends_model_generate_content (prompt : string) :
  spends 1 (model_generate_content env prompt).
Proof.
  intros w. exists [Generate prompt]. unfold model_generate_content.
  destruct (generate_content env (generated w) prompt);
    (split; [reflexivity | cbn; lia]).
Qed.

Lemma spends_chat_send_message (message : string) :
  spends 1 (chat_send_message env message).
Proof.
  intros w. exists [Send (chat_history w) message]. unfold chat_send_message.
  destruct (send_message env (chat_history w) message);
    (split; [reflexivity | cbn; lia]).
Qed.

(** Steps that make no call. *)
Ltac free :=
  repeat first
    [ apply spends_bind_free; [| intros ?]
    | apply spends_print
    | apply spends_ret
    | apply spends_raise
    | apply spends_sys_exit
    | apply spends_of_result
    | apply spends_get_chat_history
    | apply spends_start_chat
    | apply spends_path_exists
    | apply spends_read_file
    | apply spends_open_w
    | apply spends_f_write
    | match goal with
      | |- spends 0 (if ?b then _ else _) => destruct b
      end ].

Lemma spends_name_feature (initial_idea : string) :
  spends 1 (name_feature env initial_idea).
Proof.
  unfold name_feature, generate_feature_name. cbv zeta.
  apply (spends_weaken (1 + 0)); [lia |].
  apply spends_try_except; [| intros e; free].
  apply spends_bind_then; [| intros name; free].
  apply spends_bind_then; [apply spends_model_generate_content |].
  intros response. free.
Qed.

Lemma spends_load_context : spends 0 (load_context env).
Proof.
  unfold load_context.
  apply spends_bind_free; [free | intros found].
  destruct found; [| free].
  apply (spends_try_except 0 0); [free | intros e; free].
Qed.

Lemma spends_set_up_chat (initial_idea context_json : string) :
  spends 1 (set_up_chat env initial_idea context_json).
Proof.
  unfold set_up_chat. cbv zeta.
  apply (spends_weaken (1 + 0)); [lia |].
  apply spends_try_except; [| intros e; free].
  apply spends_bind_free; [free | intros _].
  apply spends_bind_then; [apply spends_chat_send_message |].
  intros response. free.
Qed.

Lemma spends_chat_loop (script : list Input) :
  spends (length script) (chat_loop env script).
Proof.
  induction script as [|[s|] rest IH]; cbn [chat_loop length];
    [free | | apply (spends_weaken 0); [lia | free]].
  cbv zeta.
  destruct (is_termination (strip s));
    [apply (spends_weaken 0); [lia | free] |].
  destruct (is_empty (strip s));
    [apply (spends_weaken (length rest)); [lia | exact IH] |].
  apply (spends_bind 1 (length rest));
    [apply spends_chat_send_message | intros response].
  apply spends_bind_free; [free | intros _; exact IH].
Qed.

Lemma spends_interactive_chat_loop (script : list Input) :
  spends (length script) (interactive_chat_loop env script).
Proof.
  unfold interactive_chat_loop.
  apply (spends_weaken (length script + 0)); [lia |].
  apply spends_try_except; [apply spends_chat_loop | intros e; free].
Qed.

Lemma spends_final_synthesis
    (system_prompt feature_name context_json : string) :
  spends 2 (final_synthesis env system_prompt feature_name context_json).
Proof.
  unfold final_synthesis.
  apply (spends_weaken (2 + 0)); [lia |].
  apply spends_try_except; [| intros e; free].
  apply spends_bind_free; [free | intros history].
  apply spends_bind_free; [free | intros simple]. cbv zeta.
  apply spends_bind_free; [free | intros _].
  apply (spends_bind 1 1).
  { unfold generate_plan_md. cbv zeta.
    apply spends_bind_then; [apply spends_model_generate_content |].
    intros response. free. }
  intros _. apply spends_bind_then; [| intros _; free].
  unfold generate_spec_md. cbv zeta.
  apply spends_bind_then; [apply spends_model_generate_content |].
  intros response. free.
Qed.

Lemma spends_main : spends (4 + length (stdin env)) (main env).
Proof.
  unfold main.
  apply spends_bind_free; [free | intros _].
  apply spends_bind_free; [unfold load_api_key; free | intros _].
  apply spends_bind_free; [unfold get_initial_idea; cbv zeta; free |].
  intros initial_idea.
  apply (spends_bind 1 (3 + length (stdin env)));
    [apply spends_name_feature | intros feature_name].
  apply spends_bind_free; [free | intros _].
  unfold plan_feature.
  apply spends_bind_free; [apply spends_load_context | intros c]. cbv zeta.
  apply spends_bind_free; [free | intros _].
  apply (spends_bind 1 (2 + length (stdin env)));
    [apply spends_set_up_chat | intros system_prompt].
  apply (spends_weaken (length (stdin env) + 2)); [lia |].
  apply spends_bind; [apply spends_interactive_chat_loop | intros _].
  apply spends_final_synthesis.
Qed.

End Budget.

(** X19. A run of [main] makes at most four API calls (the name, the first
    message, the plan, the spec) besides at most one per line of the
    terminal script, and only adds to the request log. *)
Theorem main_call_budget (env : Env) (w : World) :
  exists more,
    requests (main env w).2 = requests w ++ more /\
    (length more <= 4 + length (stdin env))%nat /\
    (length (requests (main env w).2)
       <= length (requests w) + 4 + length (stdin env))%nat.
Proof.
  destruct (spends_main env w) as (more & Hreq & Hlen).
  exists more. split; [exact Hreq | split; [exact Hlen |]].
  rewrite Hreq, length_app. lia.
Qed.

(** ** More on the rendered history *)

Lemma join_cons (sep x : string) (l : list string) :
  l <> [] -> join sep (x :: l) = x +:+ sep +:+ join sep l.
Proof. destruct l; [now intros [] | reflexivity]. Qed.

Lemma join_app (sep : string) (a b : list string) :
  a <> [] -> b <> [] ->
  join sep (a ++ b) = join sep a +:+ sep +:+ join sep b.
Proof.
  intros Ha Hb. induction a as [|x a IH]; [now destruct Ha |].
  destruct a as [|y a].
  - cbn [app]. now rewrite join_cons.
  - cbn [app]. rewrite join_cons by discriminate.
    change (y :: a ++ b) with ((y :: a) ++ b).
    rewrite IH by discriminate.
    rewrite (join_cons sep x (y :: a)) by discriminate.
    now rewrite !append_assoc.
Qed.

(** X20. Rendering is compositional: the rendering of a history followed by
    further messages is the rendering of the history, a newline, and the
    rendering of those messages, so a longer session's block extends the
    shorter one's; a single message renders as its line, with no newline
    added. *)
Theorem format_history_for_prompt_app (earlier later : list SimpleMsg) :
  earlier <> [] -> later <> [] ->
  format_history_for_prompt (earlier ++ later)
    = format_history_for_prompt earlier +:+ nl
      +:+ format_history_for_prompt later /\
  forall msg, format_history_for_prompt [msg]
              = "[" +:+ capitalize (s_role msg) +:+ "]: " +:+ s_parts msg.
Proof.
  intros He Hl. split; [| reflexivity].
  unfold format_history_for_prompt. rewrite map_app.
  apply join_app.
  - destruct earlier; [now destruct He | discriminate].
  - destruct later; [now destruct Hl | discriminate].
Qed.

Lemma format_history_for_prompt_app_witness :
  format_history_for_prompt
    ([ {| s_role := "model"; s_parts := "Hello" |} ] ++
     [ {| s_role := "user"; s_parts := "Hi" |} ])
    = "[Model]: Hello" +:+ nl +:+ "[User]: Hi".
Proof.
  destruct (format_history_for_prompt_app
              [ {| s_role := "model"; s_parts := "Hello" |} ]
              [ {| s_role := "user"; s_parts := "Hi" |} ]
              ltac:(discriminate) ltac:(discriminate)) as [H _].
  exact H.
Defined.

(** ** A whole successful run *)

Lemma name_feature_ok (env : Env) (initial_idea t : string) (w : World) :
  generate_content env (generated w) (feature_name_prompt initial_idea)
    = text_reply t ->
  name_feature env initial_idea w =
    (Ret (strip t),
     {| console := console w ++
          ["[bold]Generated Feature Name:[/bold] " +:+ strip t +:+ nl];
        files := files w;
        requests := requests w ++ [Generate (feature_name_prompt initial_idea)];
        chat_history := chat_history w |}).
Proof.
  intros Hg.
  unfold name_feature, try_except, generate_feature_name, bind,
    model_generate_content. cbv zeta. now rewrite Hg.
Qed.

Lemma load_context_absent (env : Env) (w : World) :
  files w !! context_file = None ->
  load_context env w = (Ret ("{}", "Starting a new greenfield plan."), w).
Proof.
  intros Hfile. unfold load_context.
  erewrite bind_ret
    by (unfold path_exists; rewrite Hfile, bool_decide_eq_false_2
          by (intros [? ?]; discriminate);
        reflexivity).
  reflexivity.
Qed.

(** X21. End to end, for [main] on a console that shows whatever text it is
    given and a directory where the output files can be written: with the
    credential and an idea, no context file, a model that answers the three
    one-shot calls with a name, a plan and a non-blank spec and the first
    message with a reply, and a termination keyword as the first line typed,
    [main] returns normally after exactly four API calls; the files are
    those it found plus the plan and the spec under the sanitized name, and
    the instructions document if it was absent. *)
Theorem main_succeeds (env : Env) (fs : gmap string Node)
    (name_text plan_text spec_text reply kw : string) (rest : list Input) :
  let idea := strip (join " " (argv env)) in
  let base := sanitize_filename (strip name_text) in
  let system_prompt := SYSTEM_PROMPT_format "{}" in
  let r := main env (initial_world fs) in
  truthy (api_key env) = true ->
  is_empty idea = false ->
  (forall prompt, generate_content env 0 prompt = text_reply name_text) ->
  (forall prompt, generate_content env 1 prompt = text_reply plan_text) ->
  (forall prompt, generate_content env 2 prompt = text_reply spec_text) ->
  is_empty (strip spec_text) = false ->
  send_message env (seed_history system_prompt) (first_prompt idea)
    = Ok reply ->
  stdin env = Line kw :: rest ->
  is_termination (strip kw) = true ->
  fs !! context_file = None ->
  writable env (initial_world fs) (base +:+ ".plan.md") plan_text ->
  writable env (initial_world fs) (base +:+ ".spec.md") spec_text ->
  (fs !! AGENT_INSTRUCTIONS_FILENAME = None ->
   writable env (initial_world fs) AGENT_INSTRUCTIONS_FILENAME
     AGENT_INSTRUCTIONS_CONTENT) ->
  r.1 = Ret tt /\
  files r.2 =
    (let written := <[base +:+ ".spec.md" := File spec_text]>
                      (<[base +:+ ".plan.md" := File plan_text]> fs) in
     match fs !! AGENT_INSTRUCTIONS_FILENAME with
     | Some _ => written
     | None => <[AGENT_INSTRUCTIONS_FILENAME :=
                   File AGENT_INSTRUCTIONS_CONTENT]> written
     end) /\
  length (requests r.2) = 4%nat /\
  chat_history r.2 =
    seed_history system_prompt ++
    [user_turn (first_prompt idea); model_turn reply].
Proof.
  intros idea base system_prompt r Hkey Hidea Hname Hplan Hspec Hblank
    Hreply Hstdin Hkw Hctx Hd Hd' Ha.
  assert (Hreal : Forall (real_turn system_prompt)
                    [user_turn (first_prompt idea); model_turn reply]).
  { repeat constructor.
    - exists (first_prompt idea). right. split; [reflexivity |].
      apply first_prompt_is_not_the_prompt.
    - exists reply. now left. }
  pose proof (simple_history_session "{}" _ Hreal) as Hsimple.
  fold system_prompt in Hsimple.
  subst r. unfold main.
  erewrite bind_ret by reflexivity.
  erewrite bind_ret by (unfold load_api_key; rewrite Hkey; reflexivity).
  erewrite bind_ret
    by (unfold get_initial_idea; cbv zeta; fold idea; rewrite Hidea;
        reflexivity).
  erewrite bind_ret by (apply name_feature_ok; apply Hname).
  erewrite bind_ret by reflexivity.
  unfold plan_feature.
  erewrite bind_ret by (apply load_context_absent; exact Hctx).
  cbv zeta. cbn [fst snd].
  erewrite bind_ret by reflexivity.
  erewrite bind_ret by (apply set_up_chat_ok; exact Hreply).
  erewrite bind_ret
    by (rewrite Hstdin, interactive_chat_loop_line, Hkw; reflexivity).
  erewrite final_synthesis_success;
    [ | exact Hsimple | apply Hplan | apply Hspec | exact Hd | exact Hblank
      | exact Hd' | exact Ha ].
  simpl_world. repeat split.
Qed.

Lemma main_succeeds_witness :
  let r := main (test_env "# Test Spec") (initial_world no_files) in
  truthy (api_key (test_env "# Test Spec")) = true /\
  r.1 = Ret tt /\
  length (requests r.2) = 4%nat /\
  files r.2 =
    <[ AGENT_INSTRUCTIONS_FILENAME := File AGENT_INSTRUCTIONS_CONTENT ]>
      (<[ "test_feature_name.spec.md" := File "# Test Spec" ]>
         (<[ "test_feature_name.plan.md" := File "# Test Plan" ]> no_files)).
Proof.
  intros r.
  destruct (main_succeeds (test_env "# Test Spec") no_files
              "test_feature_name" "# Test Plan" "# Test Spec"
              "Agent response" "done" []
              eq_refl eq_refl (fun _ => eq_refl) (fun _ => eq_refl)
              (fun _ => eq_refl) eq_refl eq_refl eq_refl eq_refl
              ltac:(vm_compute; reflexivity)
              ltac:(writable_now) ltac:(writable_now)
              ltac:(intros _; writable_now)) as (H1 & H2 & H3 & _).
  split; [reflexivity | split; [exact H1 | split; [exact H3 |]]].
  exact H2.
Defined.

(** ** The fallback name and the names that collide *)

Lemma lower_char_facts (c : ascii) :
  lower_char (lower_char c) = lower_char c /\
  isspace (lower_char c) = isspace c.
Proof. destruct c as [[] [] [] [] [] [] [] []]; split; reflexivity. Qed.

Lemma not_alnum_facts (c : ascii) :
  alnum_char c = false ->
  alnum_char (separator_to_underscore c) = false /\
  (safe_char c = true -> is_underscore c = true).
Proof.
  destruct c as [[] [] [] [] [] [] [] []]; intros H;
    first [discriminate H | split; [reflexivity | intros H'];
           first [reflexivity | discriminate H']].
Qed.

Lemma sfilter_sforall (p q : ascii -> bool) (s : string) :
  (forall c, q c = true -> p c = true -> is_underscore c = true) ->
  sforall q s = true -> sforall is_underscore (sfilter p s) = true.
Proof.
  intros H. induction s as [|c s IH]; [reflexivity |].
  cbn [sforall sfilter]. intros Hq. apply andb_prop in Hq as [Hc Hs].
  destruct (p c) eqn:Hp; [| now apply IH].
  cbn [sforall]. now rewrite (H c Hc Hp), IH.
Qed.

Lemma rstrip_by_all (p : ascii -> bool) (s : string) :
  sforall p s = true -> rstrip_by p s = "".
Proof.
  induction s as [|c s IH]; [reflexivity |].
  cbn [sforall rstrip_by]. intros H. apply andb_prop in H as [Hc Hs].
  now rewrite IH, Hc.
Qed.

Lemma smap_lstrip (f : ascii -> ascii) (p : ascii -> bool) (s : string) :
  (forall c, p (f c) = p c) ->
  smap f (lstrip_by p s) = lstrip_by p (smap f s).
Proof.
  intros H. induction s as [|c s IH]; [reflexivity |].
  cbn [lstrip_by smap]. rewrite H. now destruct (p c).
Qed.

Lemma smap_rstrip (f : ascii -> ascii) (p : ascii -> bool) (s : string) :
  (forall c, p (f c) = p c) ->
  smap f (rstrip_by p s) = rstrip_by p (smap f s).
Proof.
  intros H. induction s as [|c s IH]; [reflexivity |].
  cbn [rstrip_by smap]. rewrite <- IH, H.
  destruct (rstrip_by p s); cbn; destruct (p c); reflexivity.
Qed.

Lemma lower_strip (s : string) : lower (strip s) = strip (lower s).
Proof.
  unfold lower, strip, strip_by.
  rewrite smap_lstrip, smap_rstrip; [reflexivity | |];
    intros c; apply lower_char_facts.
Qed.

Lemma lower_idempotent (s : string) : lower (lower s) = lower s.
Proof.
  unfold lower. induction s as [|c s IH]; [reflexivity |].
  cbn [smap]. rewrite IH. f_equal. apply lower_char_facts.
Qed.

(** X22. A text with no letter a-z or digit once lowered (empty, blank,
    punctuation only, accented letters only) always sanitizes to the fallback
    "feature_plan": all such feature names share the same output files. *)
Theorem sanitize_filename_fallback (text : string) :
  sforall (fun c => negb (alnum_char c)) (lower text) = true ->
  sanitize_filename text = "feature_plan".
Proof.
  intros H. unfold sanitize_filename.
  change (fun c : ascii => if space_or_hyphen c then underscore else c)
    with separator_to_underscore.
  set (t := smap separator_to_underscore (strip (lower text))).
  assert (Ht : sforall (fun c => negb (alnum_char c)) t = true).
  { apply (sforall_smap _ (fun c => negb (alnum_char c)));
      [| now apply sforall_strip_by].
    intros c Hc. apply negb_true_iff in Hc.
    apply negb_true_iff. now apply not_alnum_facts. }
  assert (Hu : sforall is_underscore (sfilter safe_char t) = true).
  { apply (sfilter_sforall _ (fun c => negb (alnum_char c))); [| exact Ht].
    intros c Hc Hsafe. apply negb_true_iff in Hc.
    now apply not_alnum_facts. }
  unfold strip_by. now rewrite (rstrip_by_all _ _ Hu).
Qed.

Lemma sanitize_filename_fallback_witness :
  sforall (fun c => negb (alnum_char c)) (lower "  ?!.. / ") = true /\
  sanitize_filename "  ?!.. / " = "feature_plan".
Proof.
  split; [reflexivity |].
  exact (sanitize_filename_fallback "  ?!.. / " eq_refl).
Defined.

(** X23. [sanitize_filename] ignores letter case and surrounding white
    space: a feature name, the same name lowered and the same name stripped
    give the same base name, hence the same output files. *)
Theorem sanitize_filename_ignores_case_and_padding (text : string) :
  sanitize_filename (lower text) = sanitize_filename text /\
  sanitize_filename (strip text) = sanitize_filename text.
Proof.
  unfold sanitize_filename. split.
  - now rewrite lower_idempotent.
  - now rewrite lower_strip, strip_idempotent.
Qed.

(** A name that reads like a path is flattened: the files land in the
    working directory. *)
Example main_with_a_path_like_name :
  let r := main traversal_env (initial_world no_files) in
  exit_status r.1 = 0%Z /\
  files r.2 !! "etccrond.plan.md" = Some (File "# Test Plan") /\
  files r.2 !! "etccrond.spec.md" = Some (File "# Test Spec") /\
  size (files r.2) = 3%nat.
Proof. vm_compute. repeat split; reflexivity. Qed.

(** A proposed name of 275 letters passes [sanitize_filename] unshortened;
    on a file system whose names hold 255 bytes the plan file cannot be
    opened, and the run ends with the synthesis error and status 1, having
    written nothing. *)
Example main_with_an_overlong_name :
  let r := main long_name_env (initial_world no_files) in
  sanitize_filename long_name = long_name /\
  exit_status r.1 = 1%Z /\
  files r.2 = no_files /\
  last (console r.2) =
    Some (nl +:+ "[bold red]Error during synthesis:[/bold red] " +:+
          "[Errno 36] File name too long: '" +:+ long_name +:+ ".plan.md'").
Proof. vm_compute. repeat split; reflexivity. Qed.

(** An interrupt while the feature name is awaited is no [Exception]: it
    passes the handler of the name step and reaches the top. *)
Example main_interrupted_at_the_name_call :
  let r := main interrupted_env (initial_world no_files) in
  r.1 = Raised KeyboardInterrupt /\
  exit_status r.1 = 130%Z /\
  files r.2 = no_files.
Proof. vm_compute. repeat split; reflexivity. Qed.
